(** * GS_search: the import pipeline, the embedding client, the store client
      and the search handler, embedded in Rocq.

    The Go packages of the repository become modules of the same name:
    [vectorization] (pkg/vectorization), [store] (pkg/store), [importer]
    (services/importer/internal) and [retrieval]
    (services/retrieval/internal).  The index and the search of pkg/store
    are the modules [ftcreate] and [ftsearch], [Importer.Start] is the module
    [start].

    Conventions of the embedding.
    - A Go [error] is its message (a [string]); [fmt.Errorf("ctx: %w", err)]
      is the concatenation of the context and the wrapped message.
    - A Go pair [(T, error)] is a [result T]: the value, or the error (the
      source returns the zero value next to every non-nil error).
    - Code that talks to the outside (HTTP calls, calls through a Go
      interface, the Redis pipeline) is a program of type [Prog E A]: a tree
      of events of the signature [E], each followed by the continuation that
      receives the answer.  A Go panic is the leaf [Crash].
    - [run] executes a program against a handler of its events on a world
      [W]; [trace] is the history of the run: its events and their answers.
    - Go's [int] is 64 bits wide: [Z] with the wrap-around written out
      ([int_wrap]).
    - Calls to the logger have no effect on any value the code computes and
      are left out. *)

From Stdlib Require Import ZArith List String Ascii Lia DecimalString.
From Stdlib Require DecimalPos DecimalZ.
From Stdlib.Strings Require Import Byte.
From Stdlib.Floats Require Import PrimFloat.
From stdpp Require Import base strings list gmap.

Open Scope Z_scope.
Open Scope string_scope.
Open Scope list_scope.

(** ** Values shared by all packages *)

(** A Go [error], by its message. *)
Abbreviation error := string.

Inductive result (A : Type) : Type :=
| Ok (a : A)
| Err (e : error).
Arguments Ok {A} a.
Arguments Err {A} e.

(** [[]byte] *)
Definition bytes := list byte.

(** [%d] of [fmt] on an [int]. *)
Definition itoa (z : Z) : string := NilZero.string_of_int (Z.to_int z).

(** Go's [int] on the 64-bit platforms the services are built for. *)
Definition int_min : Z := - 2 ^ 63.
Definition int_max : Z := 2 ^ 63 - 1.
Definition int_wrap (z : Z) : Z := (z + 2 ^ 63) mod 2 ^ 64 - 2 ^ 63.

(** [strings.Contains], as the tests use it on error messages. *)
Fixpoint strings_Contains (s substr : string) : bool :=
  String.prefix substr s
  || match s with
     | EmptyString => false
     | String _ s' => strings_Contains s' substr
     end.

(** ** Programs over a signature of events *)

Inductive Prog (E : Type -> Type) (A : Type) : Type :=
| Ret (a : A)
| Vis (X : Type) (e : E X) (k : X -> Prog E A)
| Crash (msg : string).
Arguments Ret {E A} a.
Arguments Vis {E A X} e k.
Arguments Crash {E A} msg.

Fixpoint bind {E A B} (p : Prog E A) (f : A -> Prog E B) : Prog E B :=
  match p with
  | Ret a => f a
  | Vis e k => Vis e (fun x => bind (k x) f)
  | Crash m => Crash m
  end.

Definition trigger {E X} (e : E X) : Prog E X := Vis e Ret.

Notation "x <- p ;; q" := (bind p (fun x => q))
  (at level 100, p at next level, right associativity).

(** What a run ends in: a value, or a panic that nobody recovered. *)
Inductive Res (A : Type) : Type :=
| Val (a : A)
| Panicked (msg : string).
Arguments Val {A} a.
Arguments Panicked {A} msg.

(** A handler answers every event, changing the world. *)
Definition Handler (E : Type -> Type) (W : Type) : Type :=
  forall X, E X -> W -> Res X * W.

Fixpoint run {E W A} (h : Handler E W) (p : Prog E A) (w : W) : Res A * W :=
  match p with
  | Ret a => (Val a, w)
  | Vis e k =>
      match h _ e w with
      | (Val x, w') => run h (k x) w'
      | (Panicked m, w') => (Panicked m, w')
      end
  | Crash m => (Panicked m, w)
  end.

(** One event together with the answer it got. *)
Definition Entry (E : Type -> Type) : Type := { X : Type & (E X * X)%type }.
Definition entry {E : Type -> Type} {X} (e : E X) (x : X) : Entry E :=
  existT X (e, x).

(** The history of the run of [p] from [w]: the events it issues, in order,
    each with its answer. *)
Fixpoint trace {E W A} (h : Handler E W) (p : Prog E A) (w : W) : list (Entry E) :=
  match p with
  | Vis e k =>
      match h _ e w with
      | (Val x, w') => entry e x :: trace h (k x) w'
      | (Panicked _, _) => []
      end
  | Ret _ | Crash _ => []
  end.

(** ** net/http, as far as the code uses it *)

Module http.

Definition StatusOK : Z := 200.
Definition StatusBadRequest : Z := 400.
Definition StatusMethodNotAllowed : Z := 405.
Definition StatusInternalServerError : Z := 500.

Definition MethodGet : string := "GET".
Definition MethodPost : string := "POST".

(** [textproto.CanonicalMIMEHeaderKey] on a key made of letters, digits
    and hyphens: the first letter and every letter after a hyphen in
    upper case, the others in lower case. *)
Definition upper (c : ascii) : ascii :=
  let n := nat_of_ascii c in
  if ((97 <=? n) && (n <=? 122))%nat then ascii_of_nat (n - 32) else c.
Definition lower (c : ascii) : ascii :=
  let n := nat_of_ascii c in
  if ((65 <=? n) && (n <=? 90))%nat then ascii_of_nat (n + 32) else c.

Fixpoint canonical (up : bool) (s : string) : string :=
  match s with
  | EmptyString => EmptyString
  | String c s' =>
      String (if up then upper c else lower c)
             (canonical (Ascii.eqb c "-"%char) s')
  end.
Definition CanonicalMIMEHeaderKey (s : string) : string := canonical true s.

(** [http.Header]: canonical key to the values received for it. *)
Abbreviation Header := (gmap string (list string)).

(** [Header.Get]: the first value of the key, or the empty string. *)
Definition Header_Get (h : Header) (key : string) : string :=
  match h !! CanonicalMIMEHeaderKey key with
  | Some (v :: _) => v
  | _ => ""
  end.

(** What the client hands back for one request that got an answer:
    [Body] is what can be read from the body, [ReadErr] the error the
    read ends in, if any. *)
Record Response : Type := {
  StatusCode : Z;
  Hdr : Header;
  Body : string;
  ReadErr : option error
}.

End http.

(** ** pkg/vectorization *)

Module vectorization.

(** [Client]: the HTTP client is the event signature below. *)
Record Client : Type := { baseURL : string }.

Record EmbeddingData : Type := {
  Embedding : string;
  Dimension : Z
}.

Record Response : Type := { Embeddings : list EmbeddingData }.

(** The client's only way out: [c.httpClient.Post(url, contentType, body)]. *)
Inductive HttpE : Type -> Type :=
| Post (url contentType body : string) : HttpE (result http.Response).

(** The library functions the client calls: [json.Marshal] on the request
    map, [json.Unmarshal] into [Response], [base64.StdEncoding.DecodeString]. *)
Class Codec : Type := {
  json_Marshal : list string -> result string;
  json_Unmarshal : string -> result Response;
  base64_DecodeString : string -> result bytes
}.

Section Client.
Context `{Codec}.

(** The loop of [VectorizeBatch] over the received embeddings, from index
    [i] on; [embeddings] is the slice being filled. *)
Fixpoint decodeEmbeddings (i : nat) (rest : list EmbeddingData)
    (embeddings : list bytes) : result (list bytes) :=
  match rest with
  | [] => Ok embeddings
  | embData :: rest' =>
      match base64_DecodeString (Embedding embData) with
      | Err e =>
          Err ("failed to decode embedding bytes at index "
               +:+ itoa (Z.of_nat i) +:+ ": " +:+ e)
      | Ok embeddingBytes =>
          if (length embeddingBytes =? 0)%nat
          then Err ("received empty embedding at index "
                    +:+ itoa (Z.of_nat i) +:+ " from vectorizer")
          else decodeEmbeddings (S i) rest' (<[i := embeddingBytes]> embeddings)
      end
  end.

Definition VectorizeBatch (c : Client) (texts : list string)
    : Prog HttpE (result (list bytes)) :=
  if (length texts =? 0)%nat then Ret (Err "texts cannot be empty")
  else
    match json_Marshal texts with
    | Err e => Ret (Err ("failed to marshal request: " +:+ e))
    | Ok jsonData =>
        r <- trigger (Post (baseURL c +:+ "/embed") "application/json" jsonData) ;;
        match r with
        | Err e => Ret (Err ("failed to send request to vectorizer: " +:+ e))
        | Ok resp =>
            if negb (http.StatusCode resp =? http.StatusOK)%Z
            then Ret (Err ("vectorizer returned status "
                           +:+ itoa (http.StatusCode resp) +:+ ": "
                           +:+ http.Body resp))
            else
              match http.ReadErr resp with
              | Some e => Ret (Err ("failed to read vectorizer response: " +:+ e))
              | None =>
                  match json_Unmarshal (http.Body resp) with
                  | Err e =>
                      Ret (Err ("failed to unmarshal vectorizer response: " +:+ e))
                  | Ok vecResp =>
                      if negb (length (Embeddings vecResp) =? length texts)%nat
                      then Ret (Err ("expected "
                                     +:+ itoa (Z.of_nat (length texts))
                                     +:+ " embeddings, got "
                                     +:+ itoa (Z.of_nat (length (Embeddings vecResp)))))
                      else
                        Ret (decodeEmbeddings 0 (Embeddings vecResp)
                               (replicate (length (Embeddings vecResp)) []))
                  end
              end
        end
    end.

(** The embedding at index [n] is the decoding, not empty, of the
    [n]-th embedding of the answer. *)
Definition decodes (received : list EmbeddingData) (embeddings : list bytes) : Prop :=
  Forall2 (fun d e => base64_DecodeString (Embedding d) = Ok e /\ e <> [])
          received embeddings.

Definition Vectorize (c : Client) (text : string) : Prog HttpE (result bytes) :=
  if String.eqb text "" then Ret (Err "text cannot be empty")
  else
    r <- VectorizeBatch c [text] ;;
    match r with
    | Err e => Ret (Err e)
    | Ok embeddings =>
        match embeddings !! 0%nat with
        | Some e0 => Ret (Ok e0)
        | None => Crash "index out of range [0]"
        end
    end.

End Client.

End vectorization.

(** ** pkg/store *)

Module store.

Definition IndexName : string := "gs_data".
Definition ArticlePrefix : string := "article:".

(** [Article] is the model for a stored article. *)
Record Article : Type := {
  Title : string;
  Link : string;
  Embedding : bytes
}.

(** [SearchHit] represents an article search result, from Redis. *)
Record SearchHit : Type := {
  h_Title : string;
  h_Link : string;
  h_Score : float
}.

(** The [interface{}] values the client hands to [HSet]. *)
Inductive value : Type :=
| VString (s : string)
| VBytes (b : bytes).

(** One [HSET key field value ...] queued on the pipeline. *)
Record HSetCmd : Type := {
  key : string;
  fields : gmap string value
}.

(** The client's only way out as far as [StoreArticles] goes: the
    execution of a pipeline of queued commands. *)
Inductive RedisE : Type -> Type :=
| PipelineExec (cmds : list HSetCmd) : RedisE (option error).

(** The body of the loop of [StoreArticles]: one [pipe.HSet]. *)
Definition queueHSet (pipe : list HSetCmd) (article : Article) : list HSetCmd :=
  pipe ++ [ {| key := ArticlePrefix +:+ Title article;
               fields := <["title" := VString (Title article)]>
                         (<["link" := VString (Link article)]>
                         (<["embedding" := VBytes (Embedding article)]> ∅)) |} ].

Definition StoreArticles (articles : list Article) : Prog RedisE (option error) :=
  if (length articles =? 0)%nat then Ret None
  else
    let pipe := fold_left queueHSet articles [] in
    r <- trigger (PipelineExec pipe) ;;
    match r with
    | Some e => Ret (Some ("failed to store articles: " +:+ e))
    | None => Ret None
    end.

(** A Redis server as far as the pipeline sees it: hashes by key.  [HSET]
    sets the given fields of the hash and keeps its other fields. *)
Abbreviation Redis := (gmap string (gmap string value)).

Definition hset (db : Redis) (c : HSetCmd) : Redis :=
  <[key c := fields c ∪ default ∅ (db !! key c)]> db.

(** A server that executes every pipeline it receives. *)
Definition redis_handler : Handler RedisE Redis :=
  fun X e =>
    match e in RedisE X return Redis -> Res X * Redis with
    | PipelineExec cmds => fun db => (Val None, fold_left hset cmds db)
    end.

(** A server that cannot be reached. *)
Definition redis_down (msg : error) : Handler RedisE Redis :=
  fun X e =>
    match e in RedisE X return Redis -> Res X * Redis with
    | PipelineExec cmds => fun db => (Val (Some msg), db)
    end.

End store.

(** ** strconv.Atoi *)

Module strconv.

Definition digit (c : ascii) : option Z :=
  let n := Z.of_nat (nat_of_ascii c) in
  if (48 <=? n)%Z && (n <=? 57)%Z then Some (n - 48) else None.

(** The value of a string of decimal digits, read after [acc]. *)
Fixpoint digits (s : string) (acc : Z) : option Z :=
  match s with
  | EmptyString => Some acc
  | String c s' =>
      match digit c with
      | Some d => digits s' (acc * 10 + d)
      | None => None
      end
  end.

Definition dquote : string := String (ascii_of_nat 34) EmptyString.
Definition backslash : string := String (ascii_of_nat 92) EmptyString.

Definition hex (n : nat) : string :=
  match String.get n "0123456789abcdef" with
  | Some c => String c EmptyString
  | None => EmptyString
  end.

(** What [Quote] writes for one byte: the double quote and the backslash
    get a backslash, the printable ASCII characters are copied, the control
    characters are escaped by their letter or in hexadecimal. *)
Definition quoted (c : ascii) : string :=
  let n := nat_of_ascii c in
  if (n =? 34)%nat || (n =? 92)%nat then backslash +:+ String c EmptyString
  else if (32 <=? n)%nat && (n <? 127)%nat then String c EmptyString
  else if (n =? 7)%nat then backslash +:+ "a"
  else if (n =? 8)%nat then backslash +:+ "b"
  else if (n =? 12)%nat then backslash +:+ "f"
  else if (n =? 10)%nat then backslash +:+ "n"
  else if (n =? 13)%nat then backslash +:+ "r"
  else if (n =? 9)%nat then backslash +:+ "t"
  else if (n =? 11)%nat then backslash +:+ "v"
  else if (n <? 128)%nat
       then backslash +:+ "x" +:+ hex (n / 16) +:+ hex (n mod 16)
       else String c EmptyString.

Fixpoint escaped (s : string) : string :=
  match s with
  | EmptyString => EmptyString
  | String c s' => quoted c +:+ escaped s'
  end.

(** [strconv.Quote], byte by byte.  It is Go's on ASCII strings.  A byte
    over 127 is copied: Go copies the printable runes of a UTF-8 string and
    escapes the others, which takes the tables of [unicode]. *)
Definition Quote (s : string) : string := dquote +:+ escaped s +:+ dquote.

(** [NumError.Error] for [ErrSyntax] and for [ErrRange]. *)
Definition ErrSyntax (s : string) : error :=
  "strconv.Atoi: parsing " +:+ Quote s +:+ ": invalid syntax".
Definition ErrRange (s : string) : error :=
  "strconv.Atoi: parsing " +:+ Quote s +:+ ": value out of range".

Inductive NumError : Type := Syntax | Range.

Definition maxUint64 : Z := 2 ^ 64 - 1.

(** The loop of [ParseUint] in base 10, [n] read so far: a byte that is no
    digit is a syntax error; a value that leaves [uint64] is a range error,
    and it is reported at the digit that overflows, before the bytes that
    follow are looked at.  ([n1 < n || n1 > maxVal] on [uint64] is
    [maxUint64 < n1] on [Z], as [n < cutoff] there.) *)
Fixpoint ParseUint_loop (s : string) (n : Z) : NumError + Z :=
  match s with
  | EmptyString => inr n
  | String c s' =>
      match digit c with
      | None => inl Syntax
      | Some d =>
          if (maxUint64 / 10 + 1 <=? n)%Z then inl Range
          else
            let n1 := (n * 10 + d)%Z in
            if (maxUint64 <? n1)%Z then inl Range else ParseUint_loop s' n1
      end
  end.

(** The cutoff of [ParseInt] for 64 bits. *)
Definition cutoff : Z := 2 ^ 63.

(** [Atoi] through [ParseInt(s, 10, 0)]: an optional sign, then one
    decimal digit or more, and the value has to fit Go's [int].  The fast
    path of [Atoi], for fewer than 19 bytes, returns the same: no such
    string leaves the range. *)
Definition Atoi (s : string) : result Z :=
  let '(neg, ds) :=
    match s with
    | String "-"%char r => (true, r)
    | String "+"%char r => (false, r)
    | _ => (false, s)
    end in
  match ds with
  | EmptyString => Err (ErrSyntax s)
  | _ =>
      match ParseUint_loop ds 0 with
      | inl Syntax => Err (ErrSyntax s)
      | inl Range => Err (ErrRange s)
      | inr un =>
          if neg
          then if (cutoff <? un)%Z then Err (ErrRange s) else Ok (- un)%Z
          else if (cutoff <=? un)%Z then Err (ErrRange s) else Ok un
      end
  end.

(** The strings a reader calls numeric: an optional sign and decimal
    digits, at least one. *)
Definition numeric (s : string) : bool :=
  let ds :=
    match s with
    | String "-"%char r => r
    | String "+"%char r => r
    | _ => s
    end in
  match ds with
  | EmptyString => false
  | _ => match digits ds 0 with Some _ => true | None => false end
  end.

End strconv.

(** ** services/importer/internal *)

Module importer.

(** [Importer]: the store, the vectorizer and the HTTP client are the
    events of [ImpE].  [initialImport] is the module [initial] below, [Start]
    and its ticker loop the module [start]. *)
Record Importer : Type := {
  target : string;
  maxGoroutines : Z
}.

(** [Article] represents the data from a website post. *)
Record Article : Type := {
  Title : string;
  Description : string;
  Link : string
}.

(** [VectorizedArticle] represents an article along with its embedding. *)
Record VectorizedArticle : Type := {
  va_Article : Article;
  va_Embedding : bytes
}.

(** What [encoding/json] puts behind an [interface{}]. *)
#[warnings="-register-all"]
Inductive jvalue : Type :=
| JNull
| JBool (b : bool)
| JNumber (literal : string)
| JString (s : string)
| JArray (items : list jvalue)
| JObject (members : list (string * jvalue)).

(** [WPPost] represents a WordPress post structure from the REST API. *)
Record WPPost : Type := {
  wp_Title : gmap string jvalue;
  wp_Excerpt : gmap string jvalue;
  wp_Link : string
}.

(** [v, _ := m[key].(string)]: the string behind the key, or the empty
    string when the key is absent or holds something else. *)
Definition rendered (m : gmap string jvalue) : string :=
  match m !! "rendered" with
  | Some (JString s) => s
  | _ => ""
  end.

(** The importer's ways out: its HTTP client and its two interfaces,
    [Vectorizer] and [Store]. *)
Inductive ImpE : Type -> Type :=
| HttpGet (url : string) : ImpE (result http.Response)
| VectorizeBatch (texts : list string) : ImpE (result (list bytes))
| CreateVectorIndex : ImpE (option error)
| StoreArticles (articles : list store.Article) : ImpE (option error).

(** [json.NewDecoder(resp.Body).Decode(&posts)] *)
Class Decoder : Type := {
  json_Decode : http.Response -> result (list WPPost)
}.

(** What the history of a run says of the store: the documents of the
    calls of [StoreArticles] that succeeded, and the pages asked of the
    site. *)
Definition stored (en : Entry ImpE) : list store.Article :=
  match en with
  | existT _ (e, x) =>
      match e in ImpE X return X -> list store.Article with
      | StoreArticles l => fun r => match r with None => l | Some _ => [] end
      | _ => fun _ => []
      end x
  end.

Definition documents_stored (history : list (Entry ImpE)) : list store.Article :=
  concat (map stored history).

Definition fetched (en : Entry ImpE) : list string :=
  match en with
  | existT _ (e, _) =>
      match e with
      | HttpGet url => [url]
      | _ => []
      end
  end.

Definition urls_fetched (history : list (Entry ImpE)) : list string :=
  concat (map fetched history).

Definition submitted (en : Entry ImpE) : list (list store.Article) :=
  match en with
  | existT _ (e, _) =>
      match e with
      | StoreArticles l => [l]
      | _ => []
      end
  end.

(** The batches handed to [StoreArticles], whatever the store answered. *)
Definition batches_submitted (history : list (Entry ImpE)) : list (list store.Article) :=
  concat (map submitted history).

Definition posts_url (i : Importer) (page hitsPerPage : Z) : string :=
  target i +:+ "/wp-json/wp/v2/posts?_fields=title,excerpt,link&per_page="
  +:+ itoa hitsPerPage +:+ "&page=" +:+ itoa page.

Section Pipeline.
Context `{Decoder}.
Variable i : Importer.

Definition fetchPostsPage (page hitsPerPage : Z)
    : Prog ImpE (result (list WPPost * Z)) :=
  r <- trigger (HttpGet (posts_url i page hitsPerPage)) ;;
  match r with
  | Err e => Ret (Err ("failed to create request: " +:+ e))
  | Ok resp =>
      let nbPagesHeader := http.Header_Get (http.Hdr resp) "X-WP-TotalPages" in
      match strconv.Atoi nbPagesHeader with
      | Err e => Ret (Err ("failed to parse total pages: " +:+ e))
      | Ok nbPages =>
          if negb (http.StatusCode resp =? http.StatusOK)%Z
          then Ret (Err ("failed to fetch posts, status code: "
                         +:+ itoa (http.StatusCode resp)))
          else
            match json_Decode resp with
            | Err e => Ret (Err ("failed to decode response: " +:+ e))
            | Ok posts => Ret (Ok (posts, nbPages))
            end
      end
  end.

(** The second loop of [vectorizeArticles], from index [n] on:
    [articles[n]] panics when [n] is out of range. *)
Fixpoint pairEmbeddings (articles : list Article) (n : nat)
    (embeddings : list bytes) (vectorizedArticles : list VectorizedArticle)
    : Prog ImpE (list VectorizedArticle) :=
  match embeddings with
  | [] => Ret vectorizedArticles
  | embedding :: rest =>
      match articles !! n with
      | Some article =>
          pairEmbeddings articles (S n) rest
            (vectorizedArticles
               ++ [ {| va_Article := article; va_Embedding := embedding |} ])
      | None =>
          Crash ("index out of range [" +:+ itoa (Z.of_nat n)
                 +:+ "] with length " +:+ itoa (Z.of_nat (length articles)))
      end
  end.

(** The first loop of [vectorizeArticles]. *)
Definition textsOf (articles : list Article) : list string :=
  fold_left
    (fun texts article =>
       texts ++ [Title article +:+ ". " +:+ Description article])
    articles [].

Definition vectorizeArticles (articles : list Article)
    : Prog ImpE (result (list VectorizedArticle)) :=
  let textsToVectorize := textsOf articles in
  r <- trigger (VectorizeBatch textsToVectorize) ;;
  match r with
  | Err e => Ret (Err ("failed to vectorize articles in batch: " +:+ e))
  | Ok embeddings =>
      vectorizedArticles <- pairEmbeddings articles 0 embeddings [] ;;
      Ret (Ok vectorizedArticles)
  end.

(** The loop of [storeArticles]. *)
Definition toStore (vectorizedArticles : list VectorizedArticle) : list store.Article :=
  fold_left
    (fun articles va =>
       articles ++ [ {| store.Title := Title (va_Article va);
                        store.Link := Link (va_Article va);
                        store.Embedding := va_Embedding va |} ])
    vectorizedArticles [].

Definition storeArticles (vectorizedArticles : list VectorizedArticle)
    : Prog ImpE (option error) :=
  let articles := toStore vectorizedArticles in
  r <- trigger (StoreArticles articles) ;;
  match r with
  | Some e => Ret (Some ("failed to store articles: " +:+ e))
  | None => Ret None
  end.

(** The first loop of [vectorizePostsPage]. *)
Definition articlesOf (posts : list WPPost) : list Article :=
  fold_left
    (fun articles post =>
       articles ++ [ {| Title := rendered (wp_Title post);
                        Description := rendered (wp_Excerpt post);
                        Link := wp_Link post |} ])
    posts [].

Definition vectorizePostsPage (page hitsPerPage : Z) : Prog ImpE (result Z) :=
  r <- fetchPostsPage page hitsPerPage ;;
  match r with
  | Err e =>
      Ret (Err ("failed to fetch posts for page " +:+ itoa page +:+ ": " +:+ e))
  | Ok (posts, nbPages) =>
      let articles := articlesOf posts in
      r <- vectorizeArticles articles ;;
      match r with
      | Err e => Ret (Err ("failed to vectorize articles: " +:+ e))
      | Ok vectorizedArticles =>
          r <- storeArticles vectorizedArticles ;;
          match r with
          | Some e => Ret (Err ("failed to store articles: " +:+ e))
          | None => Ret (Ok nbPages)
          end
      end
  end.

End Pipeline.

End importer.

(** ** golang.org/x/sync/errgroup, as [initialImport] uses it

    A zero [Group] (no context, hence no cancellation), [SetLimit], [Go] and
    [Wait].  The goroutines of the group are the list [running]; a goroutine
    advances by one event at a time, so that the runs of the model are the
    interleavings of the events of the goroutines.  [log] and [done] are
    history: what each goroutine has asked and been answered so far, and the
    goroutines that have returned, in the order in which they returned. *)

Module errgroup.

Section Group.
Context {E : Type -> Type} {W : Type}.

Record Task : Type := {
  id : Z;
  log : list (Entry E);
  prog : Prog E (option error)
}.

Record Finished : Type := {
  f_id : Z;
  f_log : list (Entry E);
  f_err : option error
}.

Record Group : Type := {
  sem : option Z;          (* capacity of the semaphore, if there is one *)
  running : list Task;     (* goroutines holding a token *)
  err : option error;      (* g.err, written once *)
  done : list Finished
}.

Definition zero : Group :=
  {| sem := None; running := []; err := None; done := [] |}.

(** [g.SetLimit(n)]: a negative [n] means no limit. *)
Definition SetLimit (n : Z) (g : Group) : Group :=
  {| sem := if (n <? 0)%Z then None else Some n;
     running := running g; err := err g; done := done g |}.

(** [g.Go(f)] blocks until a token is free. *)
Definition can_Go (g : Group) : bool :=
  match sem g with
  | None => true
  | Some n => (Z.of_nat (length (running g)) <? n)%Z
  end.

Definition Go (ident : Z) (f : Prog E (option error)) (g : Group) : Group :=
  {| sem := sem g;
     running := running g ++ [ {| id := ident; log := []; prog := f |} ];
     err := err g; done := done g |}.

(** [g.Wait()] blocks until every goroutine has returned, and returns
    the first error, if any. *)
Definition can_Wait (g : Group) : bool :=
  match running g with [] => true | _ => false end.

Definition Wait (g : Group) : option error := err g.

(** Goroutine [n] of the group moves: it issues its next event, or it
    returns (the first error is kept, the token released), or it
    panics, which ends the process. *)
Definition move (h : Handler E W) (n : nat) (g : Group) (w : W)
    : option (Res Group * W) :=
  match running g !! n with
  | None => None
  | Some t =>
      match prog t with
      | Ret r =>
          Some (Val {| sem := sem g;
                       running := delete n (running g);
                       err := match err g with
                              | Some e => Some e
                              | None => r
                              end;
                       done := done g ++ [ {| f_id := id t; f_log := log t;
                                              f_err := r |} ] |},
                w)
      | Vis e k =>
          match h _ e w with
          | (Val x, w') =>
              Some (Val {| sem := sem g;
                           running :=
                             <[n := {| id := id t;
                                       log := log t ++ [entry e x];
                                       prog := k x |}]> (running g);
                           err := err g; done := done g |},
                    w')
          | (Panicked m, w') => Some (Panicked m, w')
          end
      | Crash m => Some (Panicked m, w)
      end
  end.

End Group.

Arguments Task : clear implicits.
Arguments Finished : clear implicits.
Arguments Group : clear implicits.

End errgroup.

(** ** [initialImport] *)

Module initial.
Import importer.

(** Where the goroutine that runs [initialImport] is: at the head of the
    [for] loop (and, once the loop is over, in [grp.Wait]), returned, or
    dead with the process after a panic. *)
Inductive Main : Type :=
| Loop (nbPages page : Z)
| Returned (r : option error)
| Panicking (msg : string).

Record State (W : Type) : Type := {
  main : Main;
  grp : errgroup.Group ImpE;
  world : W
}.
Arguments main {W} s.
Arguments grp {W} s.
Arguments world {W} s.

(** What the scheduler picks next. *)
Inductive Choice : Type :=
| Dispatch            (* the loop body: [grp.Go] of the next page *)
| Goroutine (n : nat) (* goroutine [n] of the group moves *)
| WaitReturns.        (* [grp.Wait] returns *)

Section InitialImport.
Context `{Decoder} {W : Type}.
Variable h : Handler ImpE W.
Variable i : Importer.

(** The function handed to [grp.Go] for a page. *)
Definition pageTask (page : Z) : Prog ImpE (option error) :=
  r <- vectorizePostsPage i page 100 ;;
  match r with
  | Ok _ => Ret None
  | Err e => Ret (Some e)
  end.

(** [initialImport] up to the head of the loop: the first page is
    fetched with no other goroutine around. *)
Definition enter (w : W) : State W :=
  match run h (vectorizePostsPage i 1 100) w with
  | (Val (Err e), w') =>
      {| main := Returned (Some ("failed to fetch number of pages: " +:+ e));
         grp := errgroup.zero; world := w' |}
  | (Val (Ok nbPages), w') =>
      {| main := Loop nbPages 2;
         grp := errgroup.SetLimit (maxGoroutines i) errgroup.zero;
         world := w' |}
  | (Panicked m, w') =>
      {| main := Panicking m; grp := errgroup.zero; world := w' |}
  end.

Definition step (c : Choice) (s : State W) : option (State W) :=
  match main s with
  | Loop nbPages page =>
      match c with
      | Dispatch =>
          if (page <=? nbPages)%Z && errgroup.can_Go (grp s)
          then Some {| main := Loop nbPages (int_wrap (page + 1));
                       grp := errgroup.Go page (pageTask page) (grp s);
                       world := world s |}
          else None
      | Goroutine n =>
          match errgroup.move h n (grp s) (world s) with
          | None => None
          | Some (Val g', w') =>
              Some {| main := Loop nbPages page; grp := g'; world := w' |}
          | Some (Panicked m, w') =>
              Some {| main := Panicking m; grp := grp s; world := w' |}
          end
      | WaitReturns =>
          if negb (page <=? nbPages)%Z && errgroup.can_Wait (grp s)
          then Some {| main :=
                         Returned
                           match errgroup.Wait (grp s) with
                           | Some e => Some ("error during initial import: " +:+ e)
                           | None => None
                           end;
                       grp := grp s; world := world s |}
          else None
      end
  | Returned _ | Panicking _ => None
  end.

(** A schedule, choice by choice. *)
Fixpoint exec (cs : list Choice) (s : State W) : option (State W) :=
  match cs with
  | [] => Some s
  | c :: cs' =>
      match step c s with
      | Some s' => exec cs' s'
      | None => None
      end
  end.

(** One scheduler among all: the oldest goroutine first, the loop when
    no goroutine is running. *)
Definition pick (s : State W) : Choice :=
  match errgroup.running (grp s), main s with
  | _ :: _, _ => Goroutine 0
  | [], Loop nbPages page => if (page <=? nbPages)%Z then Dispatch else WaitReturns
  | [], _ => WaitReturns
  end.

Fixpoint drive (fuel : nat) (s : State W) : State W :=
  match fuel with
  | O => s
  | S fuel' =>
      match step (pick s) s with
      | Some s' => drive fuel' s'
      | None => s
      end
  end.

(** [initialImport] under a schedule: what it returns, if the schedule
    is one of its runs and takes it to its return. *)
Definition initialImport (cs : list Choice) (w : W)
    : option (option error * W) :=
  match exec cs (enter w) with
  | Some s =>
      match main s with
      | Returned r => Some (r, world s)
      | _ => None
      end
  | None => None
  end.

End InitialImport.

End initial.

(** ** services/retrieval/internal *)

Module retrieval.

(** [SearchRequest] represents a search request payload. *)
Record SearchRequest : Type := { Query : string }.

(** [SearchResult] represents a single search result. *)
Record SearchResult : Type := {
  Title : string;
  URL : string;
  Score : float
}.

(** [SearchResponse] represents the search response payload. *)
Record SearchResponse : Type := {
  Results : list SearchResult;
  Count : Z
}.

(** The server's two interfaces, [Vectorizer] and [Store]. *)
Inductive RetE : Type -> Type :=
| Vectorize (text : string) : RetE (result bytes)
| VectorSearch (queryEmbedding : bytes) (k : Z) : RetE (result (list store.SearchHit)).

(** [json.NewDecoder(r.Body).Decode(&req)] and
    [json.NewEncoder(w).Encode(response)]. *)
Class Json : Type := {
  json_Decode : string -> result SearchRequest;
  json_Encode : SearchResponse -> result string
}.

(** What the handler looks at in the [*http.Request]. *)
Record Request : Type := {
  Method : string;
  Body : string
}.

(** What the handler leaves in the [http.ResponseWriter]. *)
Record Reply : Type := {
  Code : Z;
  ContentType : string;
  Payload : string
}.

Definition newline : string := String (ascii_of_nat 10) EmptyString.

(** [http.Error(w, msg, code)] *)
Definition http_Error (msg : string) (code : Z) : Reply :=
  {| Code := code;
     ContentType := "text/plain; charset=utf-8";
     Payload := msg +:+ newline |}.

Section Server.
Context `{Json}.

Definition handleSearch (r : Request) : Prog RetE Reply :=
  if negb (String.eqb (Method r) http.MethodPost)
  then Ret (http_Error "Method not allowed" http.StatusMethodNotAllowed)
  else
    match json_Decode (Body r) with
    | Err _ => Ret (http_Error "Invalid request body" http.StatusBadRequest)
    | Ok req =>
        v <- trigger (Vectorize (Query req)) ;;
        match v with
        | Err _ =>
            Ret (http_Error "Failed to generate query embedding"
                   http.StatusInternalServerError)
        | Ok embeddingBytes =>
            s <- trigger (VectorSearch embeddingBytes 10) ;;
            match s with
            | Err _ =>
                Ret (http_Error "Vector search failed"
                       http.StatusInternalServerError)
            | Ok searchResults =>
                let results :=
                  fold_left
                    (fun results sr =>
                       results ++ [ {| Title := store.h_Title sr;
                                       URL := store.h_Link sr;
                                       Score := store.h_Score sr |} ])
                    searchResults [] in
                let response :=
                  {| Results := results;
                     Count := Z.of_nat (length results) |} in
                match json_Encode response with
                | Err _ =>
                    Ret (http_Error "Failed to encode response"
                           http.StatusInternalServerError)
                | Ok body =>
                    Ret {| Code := http.StatusOK;
                           ContentType := "application/json";
                           Payload := body |}
                end
            end
        end
    end.

End Server.

End retrieval.

(** ** The wiring of cmd/main.go

    The importer and the retrieval server get the production clients: the
    calls through their interfaces are runs of [vectorization.Client] and of
    [store.Client]. *)

Module wiring.

Section Importer.
Context `{vectorization.Codec} {W : Type}.
Variable source : string -> W -> Res (result http.Response) * W.
Variable embed : Handler vectorization.HttpE W.
Variable redis : Handler store.RedisE W.
Variable index : W -> Res (option error) * W.
Variable c : vectorization.Client.

Definition importer_handler : Handler importer.ImpE W :=
  fun X e =>
    match e in importer.ImpE X return W -> Res X * W with
    | importer.HttpGet url => source url
    | importer.VectorizeBatch texts => run embed (vectorization.VectorizeBatch c texts)
    | importer.CreateVectorIndex => index
    | importer.StoreArticles articles => run redis (store.StoreArticles articles)
    end.
End Importer.

Section Retrieval.
Context `{vectorization.Codec} {W : Type}.
Variable embed : Handler vectorization.HttpE W.
Variable search : bytes -> Z -> W -> Res (result (list store.SearchHit)) * W.
Variable c : vectorization.Client.

Definition retrieval_handler : Handler retrieval.RetE W :=
  fun X e =>
    match e in retrieval.RetE X return W -> Res X * W with
    | retrieval.Vectorize text => run embed (vectorization.Vectorize c text)
    | retrieval.VectorSearch q k => search q k
    end.
End Retrieval.

End wiring.

(** ** encoding/base64 *)

Module base64.

(** Place of a character in the standard alphabet. *)
Definition sextet (c : ascii) : option N :=
  let n := N_of_ascii c in
  if (65 <=? n)%N && (n <=? 90)%N then Some (n - 65)%N
  else if (97 <=? n)%N && (n <=? 122)%N then Some (n - 71)%N
  else if (48 <=? n)%N && (n <=? 57)%N then Some (n + 4)%N
  else if (n =? 43)%N then Some 62%N
  else if (n =? 47)%N then Some 63%N
  else None.

Definition octet (n : N) : byte :=
  match Byte.of_N (n mod 256) with Some b => b | None => x00 end.

Definition illegal : error := "illegal base64 data".

(** [StdEncoding.DecodeString] on an input without line breaks: groups of
    four characters, the last one possibly padded. *)
Fixpoint DecodeString (s : string) : result bytes :=
  match s with
  | EmptyString => Ok []
  | String a (String b (String c (String d rest))) =>
      match sextet a, sextet b with
      | Some x, Some y =>
          match sextet c, sextet d with
          | Some z, Some t =>
              let v := (((x * 64 + y) * 64 + z) * 64 + t)%N in
              match DecodeString rest with
              | Ok more =>
                  Ok (octet (v / 65536) :: octet (v / 256) :: octet v :: more)
              | Err e => Err e
              end
          | Some z, None =>
              if Ascii.eqb d "="%char && String.eqb rest ""
              then let v := ((x * 64 + y) * 64 + z)%N in
                   Ok [octet (v / 1024); octet (v / 4)]
              else Err illegal
          | None, _ =>
              if Ascii.eqb c "="%char && Ascii.eqb d "="%char && String.eqb rest ""
              then Ok [octet ((x * 64 + y) / 16)]
              else Err illegal
          end
      | _, _ => Err illegal
      end
  | _ => Err illegal
  end.

End base64.

(** ** Test doubles

    The mocks of the test files of the two services, and stand-ins for the
    JSON codecs on the wire formats of the examples. *)

Module doubles.

(** [strings.Split] and [strings.Join] on a one-character separator. *)
Fixpoint split (sep : ascii) (s cur : string) : list string :=
  match s with
  | EmptyString => [cur]
  | String c s' =>
      if Ascii.eqb c sep then cur :: split sep s' ""
      else split sep s' (cur +:+ String c "")
  end.

Fixpoint join (sep : string) (l : list string) : string :=
  match l with
  | [] => ""
  | [s] => s
  | s :: l' => s +:+ sep +:+ join sep l'
  end.

Definition bytes_of (s : string) : bytes := list_byte_of_string s.

(** *** The embedding service *)

(** A codec for the examples: the texts of a request separated by
    semicolons, the embeddings of an answer in base64 separated by
    commas. *)
Definition wire_codec : vectorization.Codec :=
  {| vectorization.json_Marshal := fun texts => Ok (join ";" texts);
     vectorization.json_Unmarshal := fun body =>
       if String.eqb body "" then Ok {| vectorization.Embeddings := [] |}
       else Ok {| vectorization.Embeddings :=
                    map (fun s => {| vectorization.Embedding := s;
                                     vectorization.Dimension := 0 |})
                        (split "," body "") |};
     vectorization.base64_DecodeString := base64.DecodeString |}.

(** An embedding service that answers by [reply] and keeps the bodies it
    has received. *)
Definition embed_service (reply : string -> result http.Response)
    : Handler vectorization.HttpE (list string) :=
  fun X e =>
    match e in vectorization.HttpE X return list string -> Res X * list string with
    | vectorization.Post url contentType body =>
        fun received => (Val (reply body), received ++ [body])
    end.

Definition ok_response (body : string) : http.Response :=
  {| http.StatusCode := http.StatusOK; http.Hdr := ∅;
     http.Body := body; http.ReadErr := None |}.

(** *** The mocks of the importer's tests *)

Record mockVectorizer : Type := {
  embeddings : list bytes;
  err : option error
}.

Definition mockVectorizer_VectorizeBatch (m : mockVectorizer) (texts : list string)
    : result (list bytes) :=
  match err m with
  | Some e => Err e
  | None =>
      Ok (imap (fun n _ =>
                  match embeddings m !! n with
                  | Some e => e
                  | None => bytes_of ("embedding-" +:+ itoa (Z.of_nat n))
                  end) texts)
  end.

Record mockStore : Type := {
  storeErr : option error;
  indexErr : option error;
  storedArticles : list store.Article
}.

Definition mockStore_StoreArticles (articles : list store.Article) (m : mockStore)
    : option error * mockStore :=
  match storeErr m with
  | Some e => (Some e, m)
  | None =>
      (None, {| storeErr := storeErr m; indexErr := indexErr m;
                storedArticles := storedArticles m ++ articles |})
  end.

(** [wpServerMock] without its request counter, which is in the world. *)
Record wpServerMock : Type := {
  articles : list importer.Article;
  totalPages : Z;
  statusCode : Z;
  invalidJSON : bool;
  missingHeader : bool
}.

Definition q : string := strconv.dquote.

Definition postJSON (a : importer.Article) : string :=
  "{" +:+ q +:+ "excerpt" +:+ q +:+ ":{" +:+ q +:+ "rendered" +:+ q +:+ ":"
      +:+ q +:+ importer.Description a +:+ q +:+ "},"
      +:+ q +:+ "link" +:+ q +:+ ":" +:+ q +:+ importer.Link a +:+ q +:+ ","
      +:+ q +:+ "title" +:+ q +:+ ":{" +:+ q +:+ "rendered" +:+ q +:+ ":"
      +:+ q +:+ importer.Title a +:+ q +:+ "}}".

(** [buildWordPressResponse], on articles whose texts need no escaping. *)
Definition buildWordPressResponse (l : list importer.Article) : string :=
  match l with
  | [] => "null"
  | _ => "[" +:+ join "," (map postJSON l) +:+ "]"
  end.

Definition StatusText (code : Z) : string :=
  if (code =? 500)%Z then "Internal Server Error"
  else if (code =? 404)%Z then "Not Found"
  else "".

(** The handler of [wpServerMock.Listen]. *)
Definition respond (m : wpServerMock) : http.Response :=
  {| http.StatusCode := statusCode m;
     http.Hdr :=
       (if missingHeader m then ∅
        else {[ "X-Wp-Totalpages" := [itoa (totalPages m)] ]})
       ∪ {[ "Content-Type" := ["application/json"] ]};
     http.Body :=
       if negb (statusCode m =? http.StatusOK)%Z then StatusText (statusCode m)
       else if invalidJSON m then "Invalid JSON"
       else buildWordPressResponse (articles m);
     http.ReadErr := None |}.

Definition postOf (a : importer.Article) : importer.WPPost :=
  {| importer.wp_Title := {[ "rendered" := importer.JString (importer.Title a) ]};
     importer.wp_Excerpt := {[ "rendered" := importer.JString (importer.Description a) ]};
     importer.wp_Link := importer.Link a |}.

(** A decoder that knows the bodies a given site can send. *)
Definition table_decoder (known : list (list importer.Article)) : importer.Decoder :=
  {| importer.json_Decode := fun resp =>
       match find (fun l => String.eqb (http.Body resp) (buildWordPressResponse l)) known with
       | Some l => Ok (map postOf l)
       | None => Err "invalid character 'I' looking for beginning of value"
       end |}.

(** The world of the importer's tests: the number of requests the site has
    served, the vectorizer and the store. *)
Record World : Type := {
  pageRequests : Z;
  vectorizer : mockVectorizer;
  mstore : mockStore
}.

Definition with_store (w : World) (m : mockStore) : World :=
  {| pageRequests := pageRequests w; vectorizer := vectorizer w; mstore := m |}.

(** A site is a mock per URL (the mock of the tests answers every page
    alike). *)
Definition serve (site : gmap string wpServerMock) (url : string) (w : World)
    : Res (result http.Response) * World :=
  match site !! url with
  | Some m =>
      (Val (Ok (respond m)),
       {| pageRequests := pageRequests w + 1;
          vectorizer := vectorizer w; mstore := mstore w |})
  | None => (Val (Err "connection refused"), w)
  end.

(** The mock store holds the document. *)
Definition holds (w : World) (a : store.Article) : Prop :=
  In a (storedArticles (mstore w)).

Definition mock_handler (site : gmap string wpServerMock) : Handler importer.ImpE World :=
  fun X e =>
    match e in importer.ImpE X return World -> Res X * World with
    | importer.HttpGet url => serve site url
    | importer.VectorizeBatch texts =>
        fun w => (Val (mockVectorizer_VectorizeBatch (vectorizer w) texts), w)
    | importer.CreateVectorIndex => fun w => (Val (indexErr (mstore w)), w)
    | importer.StoreArticles l =>
        fun w =>
          let '(r, m) := mockStore_StoreArticles l (mstore w) in
          (Val r, with_store w m)
    end.

(** *** The mocks of the retrieval server's tests *)

Record searchVectorizer : Type := {
  embedding : bytes;
  vErr : option error
}.

Record searchStore : Type := {
  searchResults : list store.SearchHit;
  searchErr : option error
}.

Definition search_handler (v : searchVectorizer) (s : searchStore)
    : Handler retrieval.RetE unit :=
  fun X e =>
    match e in retrieval.RetE X return unit -> Res X * unit with
    | retrieval.Vectorize text =>
        fun w => (Val match vErr v with Some e => Err e | None => Ok (embedding v) end, w)
    | retrieval.VectorSearch _ _ =>
        fun w => (Val match searchErr s with Some e => Err e | None => Ok (searchResults s) end, w)
    end.

Definition query_prefix : string := "{" +:+ q +:+ "query" +:+ q +:+ ":" +:+ q.
Definition query_suffix : string := q +:+ "}".

(** A codec for the examples: it reads a body made of the one member
    [query] and writes the count and the titles of a response. *)
Definition query_json : retrieval.Json :=
  {| retrieval.json_Decode := fun body =>
       let n := String.length body in
       let a := String.length query_prefix in
       let b := String.length query_suffix in
       if String.prefix query_prefix body
          && (a + b <=? n)%nat
          && String.eqb (substring (n - b) b body) query_suffix
       then Ok {| retrieval.Query := substring a (n - a - b) body |}
       else Err "invalid character";
     retrieval.json_Encode := fun r =>
       Ok ("{count:" +:+ itoa (retrieval.Count r) +:+ ",results:["
           +:+ join "," (map retrieval.Title (retrieval.Results r)) +:+ "]}") |}.

End doubles.

(** A handler of a part [V] of the world, as a handler of the world. *)
Definition focus {E : Type -> Type} {W V : Type}
    (get : W -> V) (set : W -> V -> W) (h : Handler E V) : Handler E W :=
  fun X e w =>
    match h X e (get w) with
    | (r, v) => (r, set w v)
    end.

(** ** Concrete situations used by the examples *)

Module examples.
Import doubles.

Definition client : vectorization.Client := {| vectorization.baseURL := "http://vectorizer:8000" |}.

(** A service that answers every request with the two embeddings [hi] and
    [abc], and one that answers with the single embedding [hi]. *)
Definition two_embeddings : Handler vectorization.HttpE (list string) :=
  embed_service (fun _ => Ok (ok_response "aGk=,YWJj")).
Definition one_embedding : Handler vectorization.HttpE (list string) :=
  embed_service (fun _ => Ok (ok_response "aGk=")).

(** The importer of the tests and the articles they use. *)
Definition imp : importer.Importer :=
  {| importer.target := "http://127.0.0.1:8080"; importer.maxGoroutines := 2 |}.

Definition article1 : importer.Article :=
  {| importer.Title := "Test Article 1";
     importer.Description := "This is the first test article";
     importer.Link := "https://example.com/article1" |}.
Definition article2 : importer.Article :=
  {| importer.Title := "Test Article 2";
     importer.Description := "This is the second test article";
     importer.Link := "https://example.com/article2" |}.

Definition decoder : importer.Decoder := table_decoder [[]; [article1; article2]].

Definition emptyStore : mockStore :=
  {| storeErr := None; indexErr := None; storedArticles := [] |}.
Definition plainVectorizer : mockVectorizer := {| embeddings := []; err := None |}.

Definition fresh : World :=
  {| pageRequests := 0; vectorizer := plainVectorizer; mstore := emptyStore |}.

(** A site whose only page is answered by the mock [m]. *)
Definition onePage (hitsPerPage : Z) (m : wpServerMock) : gmap string wpServerMock :=
  {[ importer.posts_url imp 1 hitsPerPage := m ]}.

(** The cases MissingPagesHeader and EmptyResponse of TestVectorizePostsPage,
    and the mock of its case HTTPError without the header. *)
Definition missingPagesHeader : wpServerMock :=
  {| articles := []; totalPages := 0; statusCode := http.StatusOK;
     invalidJSON := false; missingHeader := true |}.
Definition emptyResponse : wpServerMock :=
  {| articles := []; totalPages := 0; statusCode := http.StatusOK;
     invalidJSON := false; missingHeader := false |}.
Definition errorWithoutHeader : wpServerMock :=
  {| articles := []; totalPages := 1; statusCode := http.StatusInternalServerError;
     invalidJSON := false; missingHeader := true |}.

(** The world of the production wiring: the site, the bodies the embedding
    service has received, the Redis server. *)
Record Production : Type := {
  p_site : gmap string wpServerMock;
  p_received : list string;
  p_db : store.Redis
}.

Definition p_source (url : string) (w : Production)
    : Res (result http.Response) * Production :=
  match p_site w !! url with
  | Some m => (Val (Ok (respond m)), w)
  | None => (Val (Err "connection refused"), w)
  end.

Definition p_embed : Handler vectorization.HttpE Production :=
  focus p_received
    (fun w v => {| p_site := p_site w; p_received := v; p_db := p_db w |})
    two_embeddings.

Definition p_redis : Handler store.RedisE Production :=
  focus p_db
    (fun w v => {| p_site := p_site w; p_received := p_received w; p_db := v |})
    store.redis_handler.

Definition production : Handler importer.ImpE Production :=
  @wiring.importer_handler wire_codec Production p_source p_embed p_redis
    (fun w => (Val None, w)) client.

(** A site of several pages, one article a page, and one of its pages
    answering with status 500. *)
Definition pageArticle (p : Z) : importer.Article :=
  {| importer.Title := "Article " +:+ itoa p;
     importer.Description := "Desc " +:+ itoa p;
     importer.Link := "http://test.com/" +:+ itoa p |}.

Definition pageDocument (p : Z) : store.Article :=
  {| store.Title := "Article " +:+ itoa p;
     store.Link := "http://test.com/" +:+ itoa p;
     store.Embedding := bytes_of "embedding-0" |}.

Definition okPage (total p : Z) : wpServerMock :=
  {| articles := [pageArticle p]; totalPages := total; statusCode := http.StatusOK;
     invalidJSON := false; missingHeader := false |}.

Definition brokenPage (total : Z) : wpServerMock :=
  {| articles := []; totalPages := total;
     statusCode := http.StatusInternalServerError;
     invalidJSON := false; missingHeader := false |}.

Definition pagesDecoder : importer.Decoder :=
  table_decoder [ [pageArticle 1]; [pageArticle 2]; [pageArticle 3];
                  [pageArticle 4]; [pageArticle 5] ].

(** Page 3 of 5 fails. *)
Definition fivePages : gmap string wpServerMock :=
  {[ importer.posts_url imp 1 100 := okPage 5 1;
     importer.posts_url imp 2 100 := okPage 5 2;
     importer.posts_url imp 3 100 := brokenPage 5;
     importer.posts_url imp 4 100 := okPage 5 4;
     importer.posts_url imp 5 100 := okPage 5 5 ]}.

(** A run with two goroutines at a time, their events interleaved; the
    goroutine of page 3 is the first to return. *)
Definition interleaved : list initial.Choice :=
  [ initial.Dispatch; initial.Dispatch; initial.Goroutine 1; initial.Goroutine 0;
    initial.Goroutine 1; initial.Dispatch; initial.Goroutine 1; initial.Goroutine 0;
    initial.Goroutine 0; initial.Goroutine 1; initial.Goroutine 0; initial.Dispatch;
    initial.Goroutine 1; initial.Goroutine 0; initial.Goroutine 0; initial.Goroutine 0;
    initial.Goroutine 0; initial.Goroutine 0; initial.WaitReturns ].

(** Four pages and as many goroutines as pages, as in the case
    SuccessConcurrentPages of TestInitialImport. *)
Definition imp4 : importer.Importer :=
  {| importer.target := "http://127.0.0.1:8080"; importer.maxGoroutines := 4 |}.

Definition fourPages : gmap string wpServerMock :=
  {[ importer.posts_url imp4 1 100 := okPage 4 1;
     importer.posts_url imp4 2 100 := okPage 4 1;
     importer.posts_url imp4 3 100 := okPage 4 1;
     importer.posts_url imp4 4 100 := okPage 4 1 ]}.

(** The three goroutines are started before any of them moves, then move
    in turn. *)
Definition allAtOnce : list initial.Choice :=
  [ initial.Dispatch; initial.Dispatch; initial.Dispatch ]
  ++ concat (replicate 3 [ initial.Goroutine 0; initial.Goroutine 1;
                           initial.Goroutine 2 ])
  ++ [ initial.Goroutine 2; initial.Goroutine 1; initial.Goroutine 0;
       initial.WaitReturns ].

Definition testVectorizer : searchVectorizer :=
  {| embedding := bytes_of "test-embedding"; vErr := None |}.
Definition noResults : searchStore := {| searchResults := []; searchErr := None |}.


(** A vectorizer that returns two embeddings whatever it is asked. *)
Definition tooMany : Handler importer.ImpE unit :=
  fun X e =>
    match e in importer.ImpE X return unit -> Res X * unit with
    | importer.HttpGet _ => fun w => (Val (Err "connection refused"), w)
    | importer.VectorizeBatch _ =>
        fun w => (Val (Ok [bytes_of "embedding1"; bytes_of "embedding2"]), w)
    | importer.CreateVectorIndex => fun w => (Val None, w)
    | importer.StoreArticles _ => fun w => (Val None, w)
    end.

Definition emptySite : Production :=
  {| p_site := {[ importer.posts_url imp 1 100 := emptyResponse ]};
     p_received := []; p_db := ∅ |}.

End examples.

(** ** What the runs of [initialImport] are measured against *)

(** How a program has ended, if it has. *)
Definition fin {E : Type -> Type} {A} (p : Prog E A) : option (Res A) :=
  match p with
  | Ret a => Some (Val a)
  | Crash m => Some (Panicked m)
  | Vis _ _ => None
  end.

(** The answers a handler can give to an event. *)
Definition answers {E : Type -> Type} {W} (h : Handler E W) (X : Type) (e : E X) (x : X)
    : Prop :=
  exists w w', h X e w = (Val x, w').

(** [Q] holds of the history and of what is left of the program at every
    point of every run of [p] in which the answers are among [ok]. *)
Fixpoint always {E : Type -> Type} {A} (ok : forall X, E X -> X -> Prop)
    (p : Prog E A) (Q : list (Entry E) -> Prog E A -> Prop) : Prop :=
  Q [] p
  /\ match p with
     | Vis e k => forall x, ok _ e x -> always ok (k x) (fun l => Q (entry e x :: l))
     | Ret _ | Crash _ => True
     end.

(** The program has not panicked. *)
Definition not_panicked {E : Type -> Type} {A} (l : list (Entry E)) (p : Prog E A) : Prop :=
  forall m, fin p <> Some (Panicked m).

Module pages.
Import importer.

(** The pages [first], [first + 1], ... ([n] of them). *)
Fixpoint pages_from (first : Z) (n : nat) : list Z :=
  match n with
  | O => []
  | S n' => first :: pages_from (first + 1) n'
  end.

(** The pages the loop of [initialImport] goes through: 2 to [nbPages]. *)
Definition fanned_out (nbPages : Z) : list Z := pages_from 2 (Z.to_nat (nbPages - 1)).

(** The first error among the results of the goroutines, in the order in
    which they returned. *)
Fixpoint first_error (l : list (option error)) : option error :=
  match l with
  | [] => None
  | Some e :: _ => Some e
  | None :: l' => first_error l'
  end.

Section Page.
Context `{Decoder}.
Variable i : Importer.

(** The documents of a page: its articles with the embeddings they got. *)
Definition page_documents (posts : list WPPost) (embeddings : list bytes)
    : list store.Article :=
  toStore (zip_with (fun a e => {| va_Article := a; va_Embedding := e |})
                    (articlesOf posts) embeddings).

(** The documents of a page, post by post: the title and the link of the
    post, and the embedding at the place of the post.  There are as many as
    there are embeddings, when there are no more embeddings than posts; the
    excerpt is not among the fields. *)
Definition documents (posts : list WPPost) (embeddings : list bytes)
    : list store.Article :=
  zip_with (fun post e => {| store.Title := rendered (wp_Title post);
                             store.Link := wp_Link post;
                             store.Embedding := e |})
           posts embeddings.

(** [l] is the history of a call that took [page] through: the site was
    asked for the page and its answer decoded into [posts]; the vectorizer
    was sent one text per post, the title and the excerpt joined by a full
    stop, and answered [embeddings], no more of them than posts; the store
    was handed the documents of the page in one batch and accepted it. *)
Definition went_through (page : Z) (l : list (Entry ImpE))
    (posts : list WPPost) (embeddings : list bytes) : Prop :=
  (length embeddings <= length posts)%nat
  /\ exists resp,
       json_Decode resp = Ok posts
       /\ l = [ entry (HttpGet (posts_url i page 100)) (Ok resp);
                entry (VectorizeBatch
                         (map (fun post => rendered (wp_Title post) +:+ ". "
                                           +:+ rendered (wp_Excerpt post)) posts))
                      (Ok embeddings);
                entry (StoreArticles (documents posts embeddings)) None ].

(** What holds of the history [l] of the goroutine of a page and of what is
    left of it, [p]: it asks the site for its own page, once and first; it
    hands at most one batch to the store; when it returns without error its
    history is the fetch, the embedding of the texts of the page and the
    storing, accepted, of the documents of the page; when it returns an
    error it has stored nothing. *)
Definition page_history (page : Z) (l : list (Entry ImpE))
    (p : Prog ImpE (option error)) : Prop :=
  (length l + match fin p with None => 1 | Some _ => 0 end <= 3)%nat
  /\ urls_fetched l = match l with [] => [] | _ :: _ => [posts_url i page 100] end
  /\ (l = [] -> fin p = None)
  /\ (length (batches_submitted l) <= 1)%nat
  /\ (fin p = Some (Val None) ->
      exists resp posts embeddings,
        json_Decode resp = Ok posts
        /\ (length embeddings <= length posts)%nat
        /\ l = [ entry (HttpGet (posts_url i page 100)) (Ok resp);
                 entry (VectorizeBatch (textsOf (articlesOf posts))) (Ok embeddings);
                 entry (StoreArticles (page_documents posts embeddings)) None ])
  /\ (forall e, fin p = Some (Val (Some e)) -> documents_stored l = []).

End Page.

(** *** The invariant of the runs of [initialImport] *)

Section Invariant.
Context `{Decoder} {W : Type}.
Variable h : Handler ImpE W.
Variable i : Importer.
(** [holds w a]: the store of the world [w] holds the document [a]. *)
Variable holds : W -> store.Article -> Prop.

Definition task_ok (t : errgroup.Task ImpE) : Prop :=
  always (answers h) (errgroup.prog t)
    (fun l p => page_history i (errgroup.id t) (errgroup.log t ++ l) p).

Definition task_safe (t : errgroup.Task ImpE) : Prop :=
  always (answers h) (errgroup.prog t) not_panicked.

Definition finished_ok (f : errgroup.Finished ImpE) : Prop :=
  page_history i (errgroup.f_id f) (errgroup.f_log f) (Ret (errgroup.f_err f)).

(** The documents a history says were stored are held by the store. *)
Definition kept (w : W) (l : list (Entry ImpE)) : Prop :=
  forall a, In a (documents_stored l) -> holds w a.

(** The semaphore is the one [SetLimit] made, and no more goroutines run
    than it has tokens. *)
Definition within_limit (g : errgroup.Group ImpE) : Prop :=
  errgroup.sem g = (if (maxGoroutines i <? 0)%Z then None else Some (maxGoroutines i))
  /\ match errgroup.sem g with
     | Some n => (Z.of_nat (length (errgroup.running g)) <= Z.max n 0)%Z
     | None => True
     end.

Definition Inv (nb : Z) (s : initial.State W) : Prop :=
  within_limit (initial.grp s)
  /\ Forall task_ok (errgroup.running (initial.grp s))
  /\ Forall finished_ok (errgroup.done (initial.grp s))
  /\ errgroup.err (initial.grp s)
     = first_error (map errgroup.f_err (errgroup.done (initial.grp s)))
  /\ Forall (fun t => kept (initial.world s) (errgroup.log t))
            (errgroup.running (initial.grp s))
  /\ Forall (fun f => kept (initial.world s) (errgroup.f_log f))
            (errgroup.done (initial.grp s))
  /\ match initial.main s with
     | initial.Loop nb' page =>
         nb' = nb /\ (2 <= page)%Z /\ (page <= nb + 1 \/ page = 2)%Z
         /\ map errgroup.id (errgroup.running (initial.grp s))
            ++ map errgroup.f_id (errgroup.done (initial.grp s))
            ≡ₚ pages_from 2 (Z.to_nat (page - 2))
     | initial.Returned r =>
         errgroup.running (initial.grp s) = []
         /\ map errgroup.f_id (errgroup.done (initial.grp s)) ≡ₚ fanned_out nb
         /\ r = match first_error (map errgroup.f_err (errgroup.done (initial.grp s))) with
                | Some e => Some ("error during initial import: " +:+ e)
                | None => None
                end
     | initial.Panicking _ => True
     end.

(** What is left to do: the pages not yet handed to [grp.Go], the events
    the goroutines may still issue and their returns, and the return of
    [grp.Wait]. *)
Definition weight (l : list (errgroup.Task ImpE)) : nat :=
  list_sum (map (fun t => 4 - length (errgroup.log t))%nat l).

Definition measure (s : initial.State W) : nat :=
  match initial.main s with
  | initial.Loop nb page =>
      (1 + 5 * Z.to_nat (nb + 1 - page) + weight (errgroup.running (initial.grp s)))%nat
  | initial.Returned _ | initial.Panicking _ => O
  end.

(** What a goroutine that has returned has done, read off its history: it
    has asked the site for its page, once; it has handed at most one batch
    to the store; and when it returned no error, one batch, accepted. *)
Definition once (f : errgroup.Finished ImpE) : Prop :=
  urls_fetched (errgroup.f_log f) = [posts_url i (errgroup.f_id f) 100]
  /\ (length (batches_submitted (errgroup.f_log f)) <= 1)%nat
  /\ (errgroup.f_err f = None ->
      exists docs, batches_submitted (errgroup.f_log f) = [docs]
                   /\ documents_stored (errgroup.f_log f) = docs).

(** No goroutine is about to panic, and none has. *)
Definition Safe (s : initial.State W) : Prop :=
  Forall task_safe (errgroup.running (initial.grp s))
  /\ forall m, initial.main s <> initial.Panicking m.

(** The collaborators behave: no handler panics, and the vectorizer never
    returns more embeddings than it was given texts. *)
Definition well_behaved : Prop :=
  (forall X (e : ImpE X) w, exists x w', h X e w = (Val x, w'))
  /\ (forall texts w embeddings w',
         h _ (VectorizeBatch texts) w = (Val (Ok embeddings), w') ->
         (length embeddings <= length texts)%nat).

End Invariant.

End pages.

(** ** The harness of the tests *)

Module harness.
Import doubles.

Definition testArticle : importer.Article :=
  {| importer.Title := "Test"; importer.Description := "Content";
     importer.Link := "http://test.com" |}.

Definition decoder : importer.Decoder :=
  table_decoder [ []; [examples.article1; examples.article2]; [testArticle];
                  [examples.pageArticle 1; examples.pageArticle 2];
                  [examples.pageArticle 1] ].

Definition testImporter (maxGoroutines : Z) : importer.Importer :=
  {| importer.target := "http://127.0.0.1:8080";
     importer.maxGoroutines := maxGoroutines |}.

(** The mock of the site as the tests build it: the same answer for every
    page. *)
Definition everyPage (hitsPerPage : Z) (m : wpServerMock) : gmap string wpServerMock :=
  list_to_map
    (map (fun p => (importer.posts_url (testImporter 5) p hitsPerPage, m))
         [1; 2; 3; 4; 5]%Z).

(** The body of a case of TestVectorizePostsPage: the result of the call,
    and what the mock store holds after it. *)
Definition vectorizePostsPageCase (m : wpServerMock) (v : mockVectorizer) (st : mockStore)
    : Res (result Z) * list store.Article :=
  let '(r, w) :=
    run (mock_handler (everyPage 10 m))
        (@importer.vectorizePostsPage decoder (testImporter 5) 1 10)
        {| pageRequests := 0; vectorizer := v; mstore := st |} in
  (r, storedArticles (mstore w)).

(** The body of a case of TestInitialImport, under the scheduler [pick]:
    the result, the number of articles stored and of pages requested. *)
Definition initialImportCase (m : wpServerMock) (v : mockVectorizer) (maxGoroutines : Z)
    : option (option error) * nat * Z :=
  let s :=
    @initial.drive decoder _ (mock_handler (everyPage 100 m)) (testImporter maxGoroutines)
      100
      (@initial.enter decoder _ (mock_handler (everyPage 100 m)) (testImporter maxGoroutines)
         {| pageRequests := 0; vectorizer := v; mstore := examples.emptyStore |}) in
  (match initial.main s with
   | initial.Returned r => Some r
   | _ => None
   end,
   length (storedArticles (mstore (initial.world s))),
   pageRequests (initial.world s)).

Definition failed_with (indicator : string) (r : Res (result Z)) : bool :=
  match r with
  | Val (Err e) => strings_Contains e indicator
  | _ => false
  end.

(** The body of a case of TestHandleSearch. *)
Definition handleSearchCase (r : retrieval.Request) (v : searchVectorizer) (s : searchStore)
    : Res retrieval.Reply :=
  fst (run (search_handler v s) (@retrieval.handleSearch query_json r) tt).

Definition post (query : string) : retrieval.Request :=
  {| retrieval.Method := http.MethodPost;
     retrieval.Body := query_prefix +:+ query +:+ query_suffix |}.

End harness.

(** ** [store.Client.CreateVectorIndex] *)

Module ftcreate.

Inductive SearchFieldType : Type :=
| SearchFieldTypeText
| SearchFieldTypeVector.

Record FTFlatOptions : Type := {
  Type_ : string;
  Dim : Z;
  DistanceMetric : string
}.

Record FieldSchema : Type := {
  FieldName : string;
  FieldType : SearchFieldType;
  VectorArgs : option FTFlatOptions
}.

Record FTCreateOptions : Type := {
  OnHash : bool;
  Prefix : list string
}.

(** The client's way out: [c.FTCreate(ctx, index, options, schema...)],
    answered by the error of the command, if any. *)
Inductive IndexE : Type -> Type :=
| FTCreate (index : string) (options : FTCreateOptions) (schema : list FieldSchema)
    : IndexE (option error).

(** The options and the schema [CreateVectorIndex] hands to [FTCreate]. *)
Definition options : FTCreateOptions :=
  {| OnHash := true; Prefix := [store.ArticlePrefix] |}.

Definition schema (embeddingDimension : Z) : list FieldSchema :=
  [ {| FieldName := "embedding";
       FieldType := SearchFieldTypeVector;
       VectorArgs := Some {| Type_ := "FLOAT32";
                             Dim := embeddingDimension;
                             DistanceMetric := "COSINE" |} |};
    {| FieldName := "title"; FieldType := SearchFieldTypeText; VectorArgs := None |};
    {| FieldName := "link"; FieldType := SearchFieldTypeText; VectorArgs := None |} ].

Definition CreateVectorIndex (embeddingDimension : Z) : Prog IndexE (option error) :=
  r <- trigger (FTCreate store.IndexName options (schema embeddingDimension)) ;;
  match r with
  | Some e =>
      if String.eqb e "Index already exists" then Ret None
      else Ret (Some ("failed to create index: " +:+ e))
  | None => Ret None
  end.

(** A Redis server as far as [FT.CREATE] goes: the indexes it has, by name.
    It refuses to create an index under a name that is taken. *)
Abbreviation Indexes := (gmap string (FTCreateOptions * list FieldSchema)).

Definition ft_server : Handler IndexE Indexes :=
  fun X e =>
    match e in IndexE X return Indexes -> Res X * Indexes with
    | FTCreate index o s =>
        fun ix =>
          match ix !! index with
          | Some _ => (Val (Some "Index already exists"), ix)
          | None => (Val None, <[index := (o, s)]> ix)
          end
    end.

(** The kind of value [StoreArticles] writes for a field of the schema: the
    bytes of a vector, the string of a text. *)
Definition fits (t : SearchFieldType) (v : store.value) : bool :=
  match t, v with
  | SearchFieldTypeVector, store.VBytes _ => true
  | SearchFieldTypeText, store.VString _ => true
  | _, _ => false
  end.

End ftcreate.

(** ** [store.Client.VectorSearch] *)

Module ftsearch.

Record FTSearchSortBy : Type := {
  sb_FieldName : string;
  Asc : bool
}.

Record FTSearchReturn : Type := { r_FieldName : string }.

Record FTSearchOptions : Type := {
  SortBy : list FTSearchSortBy;
  DialectVersion : Z;
  Params : gmap string store.value;
  Return : list FTSearchReturn
}.

(** [redis.Document], of which the client reads the fields. *)
Record Document : Type := { Fields : gmap string string }.

Record FTSearchResult : Type := { Docs : list Document }.

(** [*redis.FTSearchCmd]: [Err()] is its error, [Result()] its value
    together with the same error. *)
Record FTSearchCmd : Type := {
  val : FTSearchResult;
  err : option error
}.

Definition Err_ (cmd : FTSearchCmd) : option error := err cmd.
Definition Result (cmd : FTSearchCmd) : FTSearchResult * option error :=
  (val cmd, err cmd).

Inductive SearchE : Type -> Type :=
| FTSearchWithArgs (index query : string) (options : FTSearchOptions)
    : SearchE FTSearchCmd.

(** [fmt.Sscanf(s, "%f", &score)]: the number read, or the error; on an
    error [score] is left as it was. *)
Class Scanner : Type := {
  Sscanf_f : string -> result float
}.

Section Client.
Context `{Scanner}.

(** [m[key]] on a [map[string]string]. *)
Definition field (m : gmap string string) (key : string) : string :=
  default "" (m !! key).

(** The body of the loop of [VectorSearch]. *)
Definition appendHit (results : list store.SearchHit) (doc : Document)
    : list store.SearchHit :=
  let title := field (Fields doc) "title" in
  let link := field (Fields doc) "link" in
  let score :=
    let scoreVal := field (Fields doc) "vector_score" in
    if negb (String.eqb scoreVal "")
    then match Sscanf_f scoreVal with
         | Ok f => f
         | Err _ => 0%float
         end
    else 0%float in
  results ++ [ {| store.h_Title := title; store.h_Link := link;
                  store.h_Score := score |} ].

Definition knnQuery (k : Z) : string :=
  "*=>[KNN " +:+ itoa k +:+ " @embedding $query_vec AS vector_score]".

Definition searchOptions (queryEmbedding : bytes) : FTSearchOptions :=
  {| SortBy := [ {| sb_FieldName := "vector_score"; Asc := true |} ];
     DialectVersion := 2;
     Params := {[ "query_vec" := store.VBytes queryEmbedding ]};
     Return := [ {| r_FieldName := "title" |}; {| r_FieldName := "link" |};
                 {| r_FieldName := "vector_score" |} ] |}.

Definition VectorSearch (queryEmbedding : bytes) (k : Z)
    : Prog SearchE (result (list store.SearchHit)) :=
  searchCmd <- trigger (FTSearchWithArgs store.IndexName (knnQuery k)
                          (searchOptions queryEmbedding)) ;;
  match Err_ searchCmd with
  | Some e => Ret (Err ("vector search failed: " +:+ e))
  | None =>
      match Result searchCmd with
      | (_, Some e) => Ret (Err ("failed to get search results: " +:+ e))
      | (searchResult, None) =>
          Ret (Ok (fold_left appendHit (Docs searchResult) []))
      end
  end.

End Client.

End ftsearch.

(** ** [Importer.Start] *)

Module start.
Import importer.

(** What the [select] of the loop receives: a tick of the ticker, or the
    end of the context. *)
Inductive Signal : Type :=
| Tick
| Done.

(** Where [Start] is after the signals it was given: returned, or waiting
    in [select] for the next one. *)
Inductive Status : Type :=
| Stopped
| Waiting.

(** The ticks that reach the loop: those before the first [Done]. *)
Fixpoint ticks (signals : list Signal) : nat :=
  match signals with
  | Tick :: rest => S (ticks rest)
  | Done :: _ | [] => O
  end.

Section Start.
Context `{Decoder} {W : Type}.
Variable h : Handler ImpE W.
Variable i : Importer.

(** The [for] loop of [Start]. *)
Fixpoint polling (signals : list Signal) : Prog ImpE Status :=
  match signals with
  | [] => Ret Waiting
  | Done :: _ => Ret Stopped
  | Tick :: rest =>
      _ <- vectorizePostsPage i 1 20 ;;
      polling rest
  end.

(** [Start]: [time.NewTicker] panics on an interval that is not positive;
    the errors of [CreateVectorIndex] and of [initialImport] are logged and
    nothing else.  [cs] is the schedule of the initial import; the result is
    [None] when [cs] is not one of its runs to the end. *)
Definition Start (interval : Z) (cs : list initial.Choice) (signals : list Signal)
    (w : W) : option (Res Status * W) :=
  if (interval <=? 0)%Z then Some (Panicked "non-positive interval for NewTicker", w)
  else
    match h _ CreateVectorIndex w with
    | (Panicked m, w1) => Some (Panicked m, w1)
    | (Val _, w1) =>
        match initial.exec h i cs (initial.enter h i w1) with
        | Some s =>
            match initial.main s with
            | initial.Returned _ => Some (run h (polling signals) (initial.world s))
            | initial.Panicking m => Some (Panicked m, initial.world s)
            | initial.Loop _ _ => None
            end
        | None => None
        end
    end.

End Start.

End start.

(** ** The wiring of the retrieval service: its store is [store.Client] *)

Module served.

Section Served.
Context `{vectorization.Codec} `{ftsearch.Scanner} {W : Type}.
Variable embed : Handler vectorization.HttpE W.
Variable redis : Handler ftsearch.SearchE W.
Variable c : vectorization.Client.

Definition handler : Handler retrieval.RetE W :=
  wiring.retrieval_handler embed
    (fun queryEmbedding k => run redis (ftsearch.VectorSearch queryEmbedding k)) c.

End Served.

End served.

(** ** The order of the pages under a ceiling of 1 *)

Module sequential.
Import importer.

(** The goroutines that have returned, followed by the one that runs, are
    those of the pages from 2 up to the page of the loop, in that order. *)
Definition in_order {W : Type} (nb : Z) (s : initial.State W) : Prop :=
  (length (errgroup.running (initial.grp s)) <= 1)%nat
  /\ match initial.main s with
     | initial.Loop nb' page =>
         nb' = nb /\ (2 <= page)%Z /\ (page <= nb + 1 \/ page = 2)%Z
         /\ map errgroup.f_id (errgroup.done (initial.grp s))
            ++ map errgroup.id (errgroup.running (initial.grp s))
            = pages.pages_from 2 (Z.to_nat (page - 2))
     | initial.Returned _ =>
         map errgroup.f_id (errgroup.done (initial.grp s)) = pages.fanned_out nb
     | initial.Panicking _ => True
     end.

End sequential.

(** ** More concrete situations *)

Module situations.
Import doubles.

(** A scanner for the examples: it knows the numbers written in the answers
    of the examples. *)
Definition table_scanner : ftsearch.Scanner :=
  {| ftsearch.Sscanf_f := fun s =>
       if String.eqb s "0.5" then Ok 0.5%float
       else if String.eqb s "0.25" then Ok 0.25%float
       else Err "strconv.ParseFloat: parsing: invalid syntax" |}.

(** A server that answers every search with [cmd]. *)
Definition search_server {W : Type} (cmd : ftsearch.FTSearchCmd)
    : Handler ftsearch.SearchE W :=
  fun X e =>
    match e in ftsearch.SearchE X return W -> Res X * W with
    | ftsearch.FTSearchWithArgs _ _ _ => fun w => (Val cmd, w)
    end.

(** Three documents: one with all its fields, one with its title only, one
    whose score is not a number. *)
Definition threeDocs : ftsearch.FTSearchCmd :=
  {| ftsearch.val :=
       {| ftsearch.Docs :=
            [ {| ftsearch.Fields :=
                   {[ "title" := "A"; "link" := "http://a"; "vector_score" := "0.5" ]} |};
              {| ftsearch.Fields := {[ "title" := "B" ]} |};
              {| ftsearch.Fields :=
                   {[ "title" := "C"; "link" := "http://c"; "vector_score" := "near" ]} |} ] |};
     ftsearch.err := None |}.

(** The case Success of TestVectorizePostsPage: two articles on a page of
    a site of five pages. *)
Definition twoArticles : wpServerMock :=
  {| articles := [examples.article1; examples.article2]; totalPages := 5;
     statusCode := http.StatusOK; invalidJSON := false; missingHeader := false |}.

(** A store that refuses everything, as in the case StoreError. *)
Definition refusing : World :=
  {| pageRequests := 0; vectorizer := examples.plainVectorizer;
     mstore := {| storeErr := Some "redis connection failed";
                  indexErr := Some "index creation failed";
                  storedArticles := [] |} |}.

(** The importer of the examples with no token at all, and with no
    ceiling. *)
Definition blocked : importer.Importer :=
  {| importer.target := importer.target examples.imp; importer.maxGoroutines := 0 |}.
Definition unbounded : importer.Importer :=
  {| importer.target := importer.target examples.imp; importer.maxGoroutines := -1 |}.

(** A world whose store cannot create its index. *)
Definition noIndex : World :=
  {| pageRequests := 0; vectorizer := examples.plainVectorizer;
     mstore := {| storeErr := None; indexErr := Some "index creation failed";
                  storedArticles := [] |} |}.

(** The importer of the examples with a ceiling of 1, a site whose pages 3
    and 5 answer with status 500, and the one run there is: each goroutine
    runs to its return before the next page is handed to [grp.Go]. *)
Definition oneAtATime : importer.Importer :=
  {| importer.target := importer.target examples.imp; importer.maxGoroutines := 1 |}.

Definition twoBroken : gmap string wpServerMock :=
  {[ importer.posts_url examples.imp 1 100 := examples.okPage 5 1;
     importer.posts_url examples.imp 2 100 := examples.okPage 5 2;
     importer.posts_url examples.imp 3 100 := examples.brokenPage 5;
     importer.posts_url examples.imp 4 100 := examples.okPage 5 4;
     importer.posts_url examples.imp 5 100 := examples.brokenPage 5 ]}.

Definition oneByOne : list initial.Choice :=
  [ initial.Dispatch ] ++ replicate 4 (initial.Goroutine 0)
  ++ [ initial.Dispatch ] ++ replicate 2 (initial.Goroutine 0)
  ++ [ initial.Dispatch ] ++ replicate 4 (initial.Goroutine 0)
  ++ [ initial.Dispatch ] ++ replicate 2 (initial.Goroutine 0)
  ++ [ initial.WaitReturns ].

(** The production wiring in front of a site that answers every request
    with the two articles of the tests and of an embedding service that
    answers with the two embeddings [hi] and [abc]; the world is the Redis
    server. *)
Definition site_source (url : string) (db : store.Redis)
    : Res (result http.Response) * store.Redis :=
  (Val (Ok (respond twoArticles)), db).

Definition embeds : Handler vectorization.HttpE store.Redis :=
  fun X e =>
    match e in vectorization.HttpE X return store.Redis -> Res X * store.Redis with
    | vectorization.Post _ _ _ => fun db => (Val (Ok (ok_response "aGk=,YWJj")), db)
    end.

Definition wired : Handler importer.ImpE store.Redis :=
  @wiring.importer_handler wire_codec store.Redis site_source embeds
    (focus (fun db => db) (fun _ db => db) store.redis_handler)
    (fun db => (Val None, db)) examples.client.

End situations.

(** * Properties *)

(** ** Strings and programs *)

Lemma prefix_append (s t : string) : String.prefix s (s +:+ t) = true.
Proof.
  induction s as [|c s IH]; simpl.
  - now destruct t.
  - destruct (ascii_dec c c) as [_|n]; [exact IH | now destruct n].
Qed.

Lemma Contains_here (s t : string) : strings_Contains (s +:+ t) s = true.
Proof.
  destruct s as [|c s]; simpl.
  - now destruct t.
  - destruct (ascii_dec c c) as [_|n]; [| now destruct n].
    now rewrite prefix_append.
Qed.

Lemma Contains_prefix (s sub : string) :
  String.prefix sub s = true -> strings_Contains s sub = true.
Proof.
  intros Hp. destruct s as [|c s].
  - now destruct sub.
  - cbn [strings_Contains]. now rewrite Hp.
Qed.

Lemma Contains_append_l (a s sub : string) :
  strings_Contains s sub = true -> strings_Contains (a +:+ s) sub = true.
Proof.
  intros Hs. induction a as [|c a IH]; simpl; [exact Hs |].
  rewrite IH. apply orb_true_r.
Qed.

Lemma run_bind {E W A B} (h : Handler E W) (p : Prog E A) (f : A -> Prog E B) (w : W) :
  run h (bind p f) w =
  match run h p w with
  | (Val a, w') => run h (f a) w'
  | (Panicked m, w') => (Panicked m, w')
  end.
Proof.
  revert w. induction p as [a | X e k IH | m]; intros w; simpl; try reflexivity.
  destruct (h X e w) as [[x | m] w']; [apply IH | reflexivity].
Qed.

Lemma trace_bind {E W A B} (h : Handler E W) (p : Prog E A) (f : A -> Prog E B) (w : W) :
  trace h (bind p f) w =
  trace h p w ++
  match run h p w with
  | (Val a, w') => trace h (f a) w'
  | (Panicked _, _) => []
  end.
Proof.
  revert w. induction p as [a | X e k IH | m]; intros w; simpl; try reflexivity.
  destruct (h X e w) as [[x | m] w']; [| reflexivity].
  simpl. now rewrite IH.
Qed.

(** ** The embedding client *)

Section VectorizationFacts.
Context `{vectorization.Codec}.
Import vectorization.

Lemma decodeEmbeddings_ok (rest : list EmbeddingData) :
  forall (n : nat) (embeddings out : list bytes),
    decodeEmbeddings n rest embeddings = Ok out ->
    length embeddings = (n + length rest)%nat ->
    length out = length embeddings
    /\ take n out = take n embeddings
    /\ decodes rest (drop n out).
Proof.
  induction rest as [|d rest IH]; intros n embeddings out Hdec Hlen; simpl in *.
  - injection Hdec as <-. split; [reflexivity |]. split; [reflexivity |].
    rewrite drop_ge by lia. constructor.
  - destruct (base64_DecodeString (Embedding d)) as [b|e] eqn:Hb; [| discriminate].
    destruct (length b =? 0)%nat eqn:Hz; [discriminate |].
    apply IH in Hdec; [| rewrite length_insert; lia].
    destruct Hdec as (Hl & Htake & Hrest).
    rewrite length_insert in Hl.
    assert (Hn : out !! n = Some b).
    { assert (Hs : take (S n) out !! n = Some b).
      { rewrite Htake. rewrite lookup_take_lt by lia.
        apply list_lookup_insert_eq. lia. }
      rewrite lookup_take_lt in Hs by lia. exact Hs. }
    split; [exact Hl |]. split.
    + apply (f_equal (take n)) in Htake.
      rewrite !take_take in Htake.
      replace (n `min` S n)%nat with n in Htake by lia.
      rewrite Htake. now rewrite take_insert_ge by lia.
    + rewrite (drop_S _ _ _ Hn). constructor; [| exact Hrest].
      split; [exact Hb |]. intros ->. simpl in Hz. discriminate.
Qed.

Lemma VectorizeBatch_empty (c : Client) :
  VectorizeBatch c [] = Ret (Err "texts cannot be empty").
Proof. reflexivity. Qed.

(** What a successful call has gone through. *)
Lemma VectorizeBatch_inv {W} (h : Handler HttpE W) (c : Client) (texts : list string)
    (w w' : W) (embeddings : list bytes) :
  run h (VectorizeBatch c texts) w = (Val (Ok embeddings), w') ->
  exists jsonData resp vecResp,
    texts <> []
    /\ json_Marshal texts = Ok jsonData
    /\ h _ (Post (baseURL c +:+ "/embed") "application/json" jsonData) w = (Val (Ok resp), w')
    /\ http.StatusCode resp = http.StatusOK
    /\ json_Unmarshal (http.Body resp) = Ok vecResp
    /\ length (Embeddings vecResp) = length texts
    /\ decodeEmbeddings 0 (Embeddings vecResp)
         (replicate (length (Embeddings vecResp)) []) = Ok embeddings.
Proof.
  unfold VectorizeBatch. intros Hrun.
  destruct texts as [|t texts]; [discriminate |].
  cbn [length Nat.eqb] in Hrun.
  destruct (json_Marshal (t :: texts)) as [jsonData|e] eqn:Hm; [| discriminate].
  cbn [bind trigger run] in Hrun.
  destruct (h _ _ w) as [[[resp|e]|m] w1] eqn:Hh; simpl in Hrun; try discriminate.
  destruct (http.StatusCode resp =? http.StatusOK)%Z eqn:Hs; simpl in Hrun;
    [| discriminate].
  destruct (http.ReadErr resp) as [e|]; simpl in Hrun; [discriminate |].
  destruct (json_Unmarshal (http.Body resp)) as [vecResp|e] eqn:Hu; simpl in Hrun;
    [| discriminate].
  destruct (length (Embeddings vecResp) =? S (length texts))%nat eqn:Hl;
    simpl in Hrun; [| discriminate].
  injection Hrun as Hd <-.
  exists jsonData, resp, vecResp.
  apply Nat.eqb_eq in Hl. apply Z.eqb_eq in Hs.
  repeat split; try assumption; try discriminate.
Qed.

(** A successful call returns as many embeddings as it was given texts. *)
Lemma VectorizeBatch_length {W} (h : Handler HttpE W) (c : Client) (texts : list string)
    (w w' : W) (embeddings : list bytes) :
  run h (VectorizeBatch c texts) w = (Val (Ok embeddings), w') ->
  length embeddings = length texts.
Proof.
  intros Hrun. apply VectorizeBatch_inv in Hrun.
  destruct Hrun as (jsonData & resp & vecResp & _ & _ & _ & _ & _ & Hl & Hd).
  apply decodeEmbeddings_ok in Hd; [| rewrite length_replicate; lia].
  destruct Hd as (Hlen & _ & _). rewrite length_replicate in Hlen. congruence.
Qed.

End VectorizationFacts.

Section VectorizationClaims.
Context `{vectorization.Codec} {W : Type}.
Import vectorization.
Variable h : Handler HttpE W.
Variable c : Client.

(** C3: for a non-empty sequence of texts, a successful [VectorizeBatch]
    returns as many embeddings as there are texts, the embedding at each
    index being the decoding of the embedding the service sent at that
    index; and when the service answers (status 200, readable and
    well-formed body) with a number of embeddings that differs from the
    number of texts, [VectorizeBatch] fails with the count error instead
    of returning a sequence. *)
Theorem VectorizeBatch_length_and_order (texts : list string) (w : W) :
  texts <> [] ->
  (forall embeddings w',
      run h (VectorizeBatch c texts) w = (Val (Ok embeddings), w') ->
      length embeddings = length texts
      /\ exists jsonData resp vecResp,
          json_Marshal texts = Ok jsonData
          /\ h _ (Post (baseURL c +:+ "/embed") "application/json" jsonData) w
             = (Val (Ok resp), w')
          /\ json_Unmarshal (http.Body resp) = Ok vecResp
          /\ decodes (Embeddings vecResp) embeddings)
  /\ (forall jsonData resp vecResp w',
         json_Marshal texts = Ok jsonData ->
         h _ (Post (baseURL c +:+ "/embed") "application/json" jsonData) w
         = (Val (Ok resp), w') ->
         http.StatusCode resp = http.StatusOK ->
         http.ReadErr resp = None ->
         json_Unmarshal (http.Body resp) = Ok vecResp ->
         length (Embeddings vecResp) <> length texts ->
         run h (VectorizeBatch c texts) w
         = (Val (Err ("expected " +:+ itoa (Z.of_nat (length texts))
                      +:+ " embeddings, got "
                      +:+ itoa (Z.of_nat (length (Embeddings vecResp))))), w')).
Proof.
  intros Hne. split.
  - intros embeddings w' Hrun.
    apply VectorizeBatch_inv in Hrun.
    destruct Hrun as (jsonData & resp & vecResp & _ & Hm & Hh & _ & Hu & Hl & Hd).
    apply decodeEmbeddings_ok in Hd; [| rewrite length_replicate; lia].
    destruct Hd as (Hlen & _ & Hdec).
    rewrite length_replicate in Hlen. rewrite drop_0 in Hdec.
    split; [congruence |].
    exists jsonData, resp, vecResp. auto.
  - intros jsonData resp vecResp w' Hm Hh Hs Hr Hu Hl.
    unfold VectorizeBatch.
    destruct texts as [|t ts]; [now destruct Hne |].
    cbn [length Nat.eqb]. rewrite Hm. cbn [bind trigger run]. rewrite Hh.
    simpl. rewrite Hs, Hr, Hu. simpl.
    apply Nat.eqb_neq in Hl. cbn [length] in Hl. now rewrite Hl.
Qed.

(** C6: on the empty sequence [VectorizeBatch] fails with its validation
    error and issues no request; on the empty string [Vectorize] fails
    with its validation error and issues no request; on any other string
    [Vectorize] is [VectorizeBatch] on the one-element sequence (the same
    requests, the same error) and returns the single embedding of its
    result. *)
Theorem Vectorize_validates_and_delegates (text : string) (w : W) :
  text <> "" ->
  (VectorizeBatch c [] = Ret (Err "texts cannot be empty")
   /\ run h (VectorizeBatch c []) w = (Val (Err "texts cannot be empty"), w)
   /\ trace h (VectorizeBatch c []) w = [])
  /\ (Vectorize c "" = Ret (Err "text cannot be empty")
      /\ run h (Vectorize c "") w = (Val (Err "text cannot be empty"), w)
      /\ trace h (Vectorize c "") w = [])
  /\ (trace h (Vectorize c text) w = trace h (VectorizeBatch c [text]) w
      /\ match run h (VectorizeBatch c [text]) w with
         | (Val (Ok embeddings), w') =>
             exists e, embeddings = [e]
                       /\ run h (Vectorize c text) w = (Val (Ok e), w')
         | (Val (Err e), w') => run h (Vectorize c text) w = (Val (Err e), w')
         | (Panicked m, w') => run h (Vectorize c text) w = (Panicked m, w')
         end).
Proof.
  intros Hne. split; [repeat split | split; [repeat split |]].
  assert (Hv : Vectorize c text =
               bind (VectorizeBatch c [text])
                    (fun r => match r with
                              | Err e => Ret (Err e)
                              | Ok embeddings =>
                                  match embeddings !! 0%nat with
                                  | Some e0 => Ret (Ok e0)
                                  | None => Crash "index out of range [0]"
                                  end
                              end)).
  { unfold Vectorize. destruct (String.eqb_spec text ""); [contradiction | reflexivity]. }
  split.
  - rewrite Hv, trace_bind.
    destruct (run h (VectorizeBatch c [text]) w) as [[[embeddings|e]|m] w'] eqn:Hrun;
      try apply app_nil_r.
    apply VectorizeBatch_length in Hrun.
    destruct embeddings as [|e0 ?]; [discriminate Hrun | apply app_nil_r].
  - rewrite Hv, run_bind.
    destruct (run h (VectorizeBatch c [text]) w) as [[[embeddings|e]|m] w'] eqn:Hrun;
      try reflexivity.
    apply VectorizeBatch_length in Hrun.
    destruct embeddings as [|e0 [|e1 ?]]; try discriminate.
    exists e0. split; reflexivity.
Qed.

End VectorizationClaims.

Lemma VectorizeBatch_length_and_order_witness :
  ["first text"; "second text"] <> []
  /\ run examples.two_embeddings
       (@vectorization.VectorizeBatch doubles.wire_codec examples.client
          ["first text"; "second text"]) []
     = (Val (Ok [doubles.bytes_of "hi"; doubles.bytes_of "abc"]),
        ["first text;second text"])
  /\ length [doubles.bytes_of "hi"; doubles.bytes_of "abc"]
     = length ["first text"; "second text"]
  /\ run examples.one_embedding
       (@vectorization.VectorizeBatch doubles.wire_codec examples.client
          ["first text"; "second text"]) []
     = (Val (Err "expected 2 embeddings, got 1"), ["first text;second text"]).
Proof.
  pose proof (@VectorizeBatch_length_and_order doubles.wire_codec _
                examples.two_embeddings examples.client
                ["first text"; "second text"] [] ltac:(discriminate)) as [Hok _].
  pose proof (@VectorizeBatch_length_and_order doubles.wire_codec _
                examples.one_embedding examples.client
                ["first text"; "second text"] [] ltac:(discriminate)) as [_ Hbad].
  split; [discriminate |].
  split; [reflexivity |].
  split.
  - exact (proj1 (Hok _ _ eq_refl)).
  - exact (Hbad "first text;second text" (doubles.ok_response "aGk=")
             {| vectorization.Embeddings :=
                  [ {| vectorization.Embedding := "aGk="; vectorization.Dimension := 0 |} ] |}
             ["first text;second text"]
             eq_refl eq_refl eq_refl eq_refl eq_refl ltac:(discriminate)).
Defined.

Lemma Vectorize_validates_and_delegates_witness :
  "test query" <> ""
  /\ trace examples.one_embedding
       (@vectorization.Vectorize doubles.wire_codec examples.client "test query") []
     = trace examples.one_embedding
         (@vectorization.VectorizeBatch doubles.wire_codec examples.client ["test query"]) []
  /\ exists e,
       run examples.one_embedding
         (@vectorization.Vectorize doubles.wire_codec examples.client "test query") []
       = (Val (Ok e), ["test query"]).
Proof.
  split; [discriminate |].
  pose proof (@Vectorize_validates_and_delegates doubles.wire_codec _
                examples.one_embedding examples.client "test query" []
                ltac:(discriminate)) as (_ & _ & Htrace & Hrun).
  split; [exact Htrace |].
  change (run examples.one_embedding
            (@vectorization.VectorizeBatch doubles.wire_codec examples.client ["test query"]) [])
    with (@Val (result (list bytes)) (Ok [doubles.bytes_of "hi"]), ["test query"]) in Hrun.
  destruct Hrun as (e & _ & He). exists e. exact He.
Defined.

(** ** The store client *)

(** C7: on the empty batch [StoreArticles] is the program that returns [nil]
    at once: run against any server it issues no command, returns success
    and leaves the state of the server as it was. *)
Theorem StoreArticles_empty_is_noop :
  store.StoreArticles [] = Ret None
  /\ forall (W : Type) (h : Handler store.RedisE W) (w : W),
       run h (store.StoreArticles []) w = (Val None, w)
       /\ trace h (store.StoreArticles []) w = [].
Proof. split; [reflexivity | intros W h w; split; reflexivity]. Qed.

Lemma StoreArticles_pipeline (articles : list store.Article) :
  fold_left store.queueHSet articles [] =
  map (fun a => {| store.key := store.ArticlePrefix +:+ store.Title a;
                   store.fields :=
                     <["title" := store.VString (store.Title a)]>
                     (<["link" := store.VString (store.Link a)]>
                     (<["embedding" := store.VBytes (store.Embedding a)]> ∅)) |})
      articles.
Proof.
  enough (forall acc, fold_left store.queueHSet articles acc
                      = acc ++ map (fun a => {| store.key := store.ArticlePrefix +:+ store.Title a;
                   store.fields :=
                     <["title" := store.VString (store.Title a)]>
                     (<["link" := store.VString (store.Link a)]>
                     (<["embedding" := store.VBytes (store.Embedding a)]> ∅)) |}) articles)
    as Hgen by apply (Hgen []).
  induction articles as [|a l IH]; intros acc; simpl.
  - now rewrite app_nil_r.
  - rewrite IH. unfold store.queueHSet. now rewrite <- app_assoc.
Qed.

(** ** strconv.Atoi *)

(** Where the digits do not make a number, the loop of [ParseUint] fails,
    whatever it has read so far. *)
Lemma ParseUint_loop_not_digits (s : string) : forall acc n : Z,
  strconv.digits s acc = None -> exists k, strconv.ParseUint_loop s n = inl k.
Proof.
  induction s as [|c s IH]; intros acc n Hd; simpl in *; [discriminate |].
  destruct (strconv.digit c) as [d|]; [| now exists strconv.Syntax].
  destruct (_ <=? n)%Z; [now exists strconv.Range |].
  destruct (_ <? _)%Z; [now exists strconv.Range |].
  exact (IH _ _ Hd).
Qed.

Lemma digit_range (c : ascii) (d : Z) : strconv.digit c = Some d -> (0 <= d <= 9)%Z.
Proof.
  unfold strconv.digit.
  destruct (_ && _) eqn:Hr; [| discriminate].
  intros Hd. injection Hd as <-.
  apply andb_prop in Hr. destruct Hr as [Hlo Hhi].
  apply Z.leb_le in Hlo, Hhi. lia.
Qed.

Lemma digits_grow (s : string) : forall acc v : Z,
  (0 <= acc)%Z -> strconv.digits s acc = Some v -> (acc <= v)%Z.
Proof.
  induction s as [|c s IH]; intros acc v Hacc Hd; simpl in Hd.
  - injection Hd as <-. lia.
  - destruct (strconv.digit c) as [d|] eqn:Hc; [| discriminate].
    apply digit_range in Hc. apply IH in Hd; lia.
Qed.

Lemma ParseUint_loop_grows (s : string) : forall acc v : Z,
  strconv.ParseUint_loop s acc = inr v -> (0 <= acc)%Z -> (acc <= v)%Z.
Proof.
  induction s as [|c s IH]; intros acc v Hv Hacc; cbn [strconv.ParseUint_loop] in Hv.
  - injection Hv as <-. lia.
  - destruct (strconv.digit c) as [d|] eqn:Hc; [| discriminate].
    apply digit_range in Hc.
    destruct (_ <=? acc)%Z; [discriminate |].
    cbn zeta in Hv.
    destruct (_ <? _)%Z; [discriminate |].
    assert (Hn1 : (0 <= acc * 10 + d)%Z) by lia.
    pose proof (IH _ _ Hv Hn1). lia.
Qed.

(** On digits whose value fits [uint64], the loop of [ParseUint] returns
    the value. *)
Lemma ParseUint_loop_digits (s : string) : forall acc v : Z,
  (0 <= acc)%Z -> strconv.digits s acc = Some v -> (v <= strconv.maxUint64)%Z ->
  strconv.ParseUint_loop s acc = inr v.
Proof.
  induction s as [|c s IH]; intros acc v Hacc Hd Hv;
    cbn [strconv.digits strconv.ParseUint_loop] in *.
  - now injection Hd as <-.
  - destruct (strconv.digit c) as [d|] eqn:Hc; [| discriminate].
    apply digit_range in Hc.
    assert (Hn1 : (0 <= acc * 10 + d)%Z) by lia.
    pose proof (digits_grow s _ v Hn1 Hd) as Hgrow.
    assert (Hmax : strconv.maxUint64 = 18446744073709551615%Z) by reflexivity.
    assert (Hcut : (strconv.maxUint64 / 10 + 1 = 1844674407370955162)%Z) by reflexivity.
    cbn zeta.
    destruct (Z.leb_spec (strconv.maxUint64 / 10 + 1) acc) as [Hle|Hle]; [lia |].
    destruct (Z.ltb_spec strconv.maxUint64 (acc * 10 + d)) as [Hover|Hover]; [lia |].
    apply IH; [lia | exact Hd | exact Hv].
Qed.

Lemma Atoi_not_numeric (s : string) :
  strconv.numeric s = false -> exists e, strconv.Atoi s = Err e.
Proof.
  unfold strconv.numeric, strconv.Atoi. intros Hn.
  assert (Hloop : forall ds,
             match strconv.digits ds 0 with Some _ => true | None => false end = false ->
             forall neg : bool,
             exists e,
               match strconv.ParseUint_loop ds 0 with
               | inl strconv.Syntax => Err (strconv.ErrSyntax s)
               | inl strconv.Range => Err (strconv.ErrRange s)
               | inr un =>
                   if neg
                   then if (strconv.cutoff <? un)%Z
                        then Err (strconv.ErrRange s) else Ok (- un)%Z
                   else if (strconv.cutoff <=? un)%Z
                        then Err (strconv.ErrRange s) else Ok un
               end = Err e).
  { intros ds Hds neg.
    destruct (strconv.digits ds 0) eqn:Hd; [discriminate |].
    destruct (ParseUint_loop_not_digits ds 0 0 Hd) as [[|] ->]; eauto. }
  destruct s as [|c r]; [eauto |].
  destruct (Ascii.eqb_spec c "-"%char) as [-> | Hm].
  { destruct r; [eauto |]. exact (Hloop _ Hn true). }
  destruct (Ascii.eqb_spec c "+"%char) as [-> | Hp].
  { destruct r; [eauto |]. exact (Hloop _ Hn false). }
  assert (Hsplit : (match String c r with
                    | String "-"%char r0 => (true, r0)
                    | String "+"%char r0 => (false, r0)
                    | _ => (false, String c r)
                    end) = (false, String c r)).
  { destruct c as [[] [] [] [] [] [] [] []]; try reflexivity;
      exfalso; (apply Hm; reflexivity) || (apply Hp; reflexivity). }
  assert (Hsplit' : (match String c r with
                     | String "-"%char r0 => r0
                     | String "+"%char r0 => r0
                     | _ => String c r
                     end) = String c r).
  { destruct c as [[] [] [] [] [] [] [] []]; try reflexivity;
      exfalso; (apply Hm; reflexivity) || (apply Hp; reflexivity). }
  rewrite Hsplit. rewrite Hsplit' in Hn.
  exact (Hloop _ Hn false).
Qed.

Lemma Header_Get_absent (hdr : http.Header) (key : string) :
  hdr !! http.CanonicalMIMEHeaderKey key = None -> http.Header_Get hdr key = "".
Proof. unfold http.Header_Get. now intros ->. Qed.

(** ** One page of the import pipeline *)

Section PageFacts.
Context `{importer.Decoder} {W : Type}.
Import importer.
Variable h : Handler ImpE W.
Variable i : Importer.

Lemma texts_are_mapped (articles : list Article) :
  textsOf articles
  = map (fun a => Title a +:+ ". " +:+ Description a) articles.
Proof.
  unfold textsOf.
  enough (forall acc,
             fold_left (fun texts article =>
                          texts ++ [Title article +:+ ". " +:+ Description article])
                       articles acc
             = acc ++ map (fun a => Title a +:+ ". " +:+ Description a) articles)
    as Hgen by apply (Hgen []).
  induction articles as [|a l IH]; intros acc; simpl.
  - now rewrite app_nil_r.
  - rewrite IH. now rewrite <- app_assoc.
Qed.

Lemma articlesOf_length (posts : list WPPost) :
  length (articlesOf posts) = length posts.
Proof.
  unfold articlesOf.
  enough (forall acc,
             length (fold_left
                       (fun articles post =>
                          articles ++ [ {| Title := rendered (wp_Title post);
                                           Description := rendered (wp_Excerpt post);
                                           Link := wp_Link post |} ]) posts acc)
             = (length acc + length posts)%nat) as Hgen by apply (Hgen []).
  induction posts as [|p l IH]; intros acc; simpl; [lia |].
  rewrite IH, length_app. simpl. lia.
Qed.

(** The pairing loop: it ends when every embedding finds its article, and
    panics at the first index past the articles. *)
Lemma pairEmbeddings_in_range (articles : list Article) (embeddings : list bytes) :
  forall (n : nat) (acc : list VectorizedArticle),
    (n + length embeddings <= length articles)%nat ->
    pairEmbeddings articles n embeddings acc
    = Ret (acc ++ zip_with (fun a e => {| va_Article := a; va_Embedding := e |})
                           (drop n articles) embeddings).
Proof.
  induction embeddings as [|e l IH]; intros n acc Hle; simpl in *.
  - destruct (drop n articles); simpl; now rewrite app_nil_r.
  - destruct (articles !! n) as [a|] eqn:Ha.
    + rewrite IH by lia. rewrite (drop_S _ _ _ Ha). simpl.
      now rewrite <- app_assoc.
    + apply lookup_ge_None in Ha. lia.
Qed.

Lemma pairEmbeddings_out_of_range (articles : list Article) (embeddings : list bytes) :
  forall (n : nat) (acc : list VectorizedArticle),
    (n <= length articles < n + length embeddings)%nat ->
    pairEmbeddings articles n embeddings acc
    = Crash ("index out of range [" +:+ itoa (Z.of_nat (length articles))
             +:+ "] with length " +:+ itoa (Z.of_nat (length articles))).
Proof.
  induction embeddings as [|e l IH]; intros n acc Hle; simpl in *; [lia |].
  destruct (articles !! n) as [a|] eqn:Ha.
  - apply lookup_lt_Some in Ha. apply IH. lia.
  - apply lookup_ge_None in Ha. replace n with (length articles) by lia. reflexivity.
Qed.

(** C8: [vectorizeArticles] reads [articles[n]] for every index [n] of the
    embeddings it got back, with no check of its own on their number.  It
    returns (the first embeddings paired with the first articles) when the
    vectorizer returns at most as many embeddings as there are articles, and
    it panics with an index out of range when the vectorizer returns more. *)
Theorem vectorizeArticles_indexes_by_embeddings
    (articles : list Article) (embeddings : list bytes) (w w' : W) :
  h _ (VectorizeBatch (map (fun a => Title a +:+ ". " +:+ Description a) articles)) w
  = (Val (Ok embeddings), w') ->
  ((length embeddings <= length articles)%nat ->
   run h (vectorizeArticles articles) w
   = (Val (Ok (zip_with (fun a e => {| va_Article := a; va_Embedding := e |})
                        articles embeddings)), w'))
  /\ ((length articles < length embeddings)%nat ->
      run h (vectorizeArticles articles) w
      = (Panicked ("index out of range [" +:+ itoa (Z.of_nat (length articles))
                   +:+ "] with length " +:+ itoa (Z.of_nat (length articles))), w')).
Proof.
  intros Hh. unfold vectorizeArticles. rewrite texts_are_mapped.
  cbn [bind trigger run]. rewrite Hh. cbn [bind]. split; intros Hlen.
  - rewrite pairEmbeddings_in_range by (simpl; lia). reflexivity.
  - rewrite pairEmbeddings_out_of_range by lia. reflexivity.
Qed.

Lemma run_fetchPostsPage (page hitsPerPage : Z) (w : W) :
  run h (fetchPostsPage i page hitsPerPage) w =
  match h _ (HttpGet (posts_url i page hitsPerPage)) w with
  | (Val (Err e), w') => (Val (Err ("failed to create request: " +:+ e)), w')
  | (Val (Ok resp), w') =>
      (Val match strconv.Atoi (http.Header_Get (http.Hdr resp) "X-WP-TotalPages") with
           | Err e => Err ("failed to parse total pages: " +:+ e)
           | Ok nbPages =>
               if negb (http.StatusCode resp =? http.StatusOK)%Z
               then Err ("failed to fetch posts, status code: "
                         +:+ itoa (http.StatusCode resp))
               else match json_Decode resp with
                    | Err e => Err ("failed to decode response: " +:+ e)
                    | Ok posts => Ok (posts, nbPages)
                    end
           end, w')
  | (Panicked m, w') => (Panicked m, w')
  end.
Proof.
  unfold fetchPostsPage. cbn [bind trigger run].
  destruct (h _ _ w) as [[[resp|e]|m] w']; try reflexivity.
  cbn [bind].
  destruct (strconv.Atoi _); [| reflexivity].
  destruct (negb _); [reflexivity |].
  destruct (json_Decode resp); reflexivity.
Qed.

Lemma trace_fetchPostsPage (page hitsPerPage : Z) (w : W) :
  trace h (fetchPostsPage i page hitsPerPage) w =
  match h _ (HttpGet (posts_url i page hitsPerPage)) w with
  | (Val r, _) => [entry (HttpGet (posts_url i page hitsPerPage)) r]
  | (Panicked _, _) => []
  end.
Proof.
  unfold fetchPostsPage. cbn [bind trigger trace].
  destruct (h _ _ w) as [[[resp|e]|m] w']; try reflexivity.
  cbn [bind].
  destruct (strconv.Atoi _); [| reflexivity].
  destruct (negb _); [reflexivity |].
  destruct (json_Decode resp); reflexivity.
Qed.

(** C10: [fetchPostsPage] reads [X-WP-TotalPages] before it looks at the
    status.  Whatever the status, a header that does not parse gives the
    error of the header; a header that is not numeric does not parse, so
    that with a status other than 200 the error is the one of the header,
    whatever [strconv.Atoi] says of it, and not the one of the status; the
    error of the status is returned exactly when the status is not 200 and
    the header has parsed. *)
Theorem fetchPostsPage_parses_header_before_status
    (page hitsPerPage : Z) (resp : http.Response) (w w' : W) :
  h _ (HttpGet (posts_url i page hitsPerPage)) w = (Val (Ok resp), w') ->
  (forall e,
      strconv.Atoi (http.Header_Get (http.Hdr resp) "X-WP-TotalPages") = Err e ->
      run h (fetchPostsPage i page hitsPerPage) w
      = (Val (Err ("failed to parse total pages: " +:+ e)), w'))
  /\ (strconv.numeric (http.Header_Get (http.Hdr resp) "X-WP-TotalPages") = false ->
      http.StatusCode resp <> http.StatusOK ->
      exists e,
        strconv.Atoi (http.Header_Get (http.Hdr resp) "X-WP-TotalPages") = Err e
        /\ run h (fetchPostsPage i page hitsPerPage) w
           = (Val (Err ("failed to parse total pages: " +:+ e)), w')
        /\ run h (fetchPostsPage i page hitsPerPage) w
           <> (Val (Err ("failed to fetch posts, status code: "
                         +:+ itoa (http.StatusCode resp))), w'))
  /\ (run h (fetchPostsPage i page hitsPerPage) w
      = (Val (Err ("failed to fetch posts, status code: "
                   +:+ itoa (http.StatusCode resp))), w')
      <-> http.StatusCode resp <> http.StatusOK
          /\ exists nbPages,
               strconv.Atoi (http.Header_Get (http.Hdr resp) "X-WP-TotalPages")
               = Ok nbPages).
Proof.
  intros Hh. rewrite run_fetchPostsPage, Hh.
  split; [| split].
  - intros e ->. reflexivity.
  - intros Hn _. destruct (Atoi_not_numeric _ Hn) as [e He]. exists e. rewrite He.
    split; [reflexivity |]. split; [reflexivity |].
    intros Heq. injection Heq as Heq. cbn in Heq. discriminate Heq.
  - destruct (strconv.Atoi _) as [nbPages|e].
    + destruct (Z.eqb_spec (http.StatusCode resp) http.StatusOK) as [Heq|Hne]; simpl.
      * split.
        -- destruct (json_Decode resp); intros Hrun; discriminate Hrun.
        -- intros [Hne _]. contradiction.
      * split; [intros _; split; [exact Hne | now exists nbPages] | reflexivity].
    + split.
      * intros Hrun. exfalso. discriminate Hrun.
      * intros [_ [n Hn]]. discriminate Hn.
Qed.

End PageFacts.

Lemma vectorizeArticles_indexes_by_embeddings_witness :
  run examples.tooMany
    (importer.vectorizeArticles [examples.article1; examples.article2]) tt
  = (Val (Ok [ {| importer.va_Article := examples.article1;
                  importer.va_Embedding := doubles.bytes_of "embedding1" |};
               {| importer.va_Article := examples.article2;
                  importer.va_Embedding := doubles.bytes_of "embedding2" |} ]), tt)
  /\ run examples.tooMany (importer.vectorizeArticles [examples.article1]) tt
     = (Panicked "index out of range [1] with length 1", tt).
Proof.
  split.
  - apply (vectorizeArticles_indexes_by_embeddings examples.tooMany
             [examples.article1; examples.article2]
             [doubles.bytes_of "embedding1"; doubles.bytes_of "embedding2"] tt tt
             eq_refl).
    simpl. lia.
  - apply (vectorizeArticles_indexes_by_embeddings examples.tooMany
             [examples.article1]
             [doubles.bytes_of "embedding1"; doubles.bytes_of "embedding2"] tt tt
             eq_refl).
    simpl. lia.
Defined.

Lemma fetchPostsPage_parses_header_before_status_witness :
  run (doubles.mock_handler (examples.onePage 10 examples.errorWithoutHeader))
    (@importer.fetchPostsPage examples.decoder examples.imp 1 10) examples.fresh
  = (Val (Err ("failed to parse total pages: " +:+ strconv.ErrSyntax "")),
     snd (doubles.serve (examples.onePage 10 examples.errorWithoutHeader)
            (importer.posts_url examples.imp 1 10) examples.fresh)).
Proof.
  exact (proj1 (@fetchPostsPage_parses_header_before_status examples.decoder _
                  (doubles.mock_handler (examples.onePage 10 examples.errorWithoutHeader))
                  examples.imp 1 10
                  (doubles.respond examples.errorWithoutHeader) examples.fresh _ eq_refl)
           (strconv.ErrSyntax "") eq_refl).
Defined.

Section PageClaims.
Context `{importer.Decoder} {W : Type}.
Import importer.
Variable h : Handler ImpE W.
Variable i : Importer.

(** A page whose fetch fails: the error is wrapped with the page, and the
    fetch is the only event of the call. *)
Lemma vectorizePostsPage_fetch_fails (page hitsPerPage : Z) (w w' : W) (e : error) :
  run h (fetchPostsPage i page hitsPerPage) w = (Val (Err e), w') ->
  run h (vectorizePostsPage i page hitsPerPage) w
  = (Val (Err ("failed to fetch posts for page " +:+ itoa page +:+ ": " +:+ e)), w')
  /\ trace h (vectorizePostsPage i page hitsPerPage) w
     = trace h (fetchPostsPage i page hitsPerPage) w.
Proof.
  intros Hf. unfold vectorizePostsPage. rewrite run_bind, trace_bind, Hf.
  split; [reflexivity | apply app_nil_r].
Qed.

(** C5: when the answer of the site has no [X-WP-TotalPages] header, or one
    that is not a number, [vectorizePostsPage] fails with an error that
    contains "failed to parse total pages"; the fetch is the only event of
    the call, so that nothing is handed to the store. *)
Theorem vectorizePostsPage_missing_total_pages
    (page hitsPerPage : Z) (resp : http.Response) (w w' : W) :
  h _ (HttpGet (posts_url i page hitsPerPage)) w = (Val (Ok resp), w') ->
  http.Hdr resp !! http.CanonicalMIMEHeaderKey "X-WP-TotalPages" = None
  \/ strconv.numeric (http.Header_Get (http.Hdr resp) "X-WP-TotalPages") = false ->
  exists e,
    run h (vectorizePostsPage i page hitsPerPage) w = (Val (Err e), w')
    /\ strings_Contains e "failed to parse total pages" = true
    /\ trace h (vectorizePostsPage i page hitsPerPage) w
       = [entry (HttpGet (posts_url i page hitsPerPage)) (Ok resp)]
    /\ batches_submitted (trace h (vectorizePostsPage i page hitsPerPage) w) = []
    /\ documents_stored (trace h (vectorizePostsPage i page hitsPerPage) w) = [].
Proof.
  intros Hh Hhdr.
  assert (Hn : strconv.numeric (http.Header_Get (http.Hdr resp) "X-WP-TotalPages") = false).
  { destruct Hhdr as [Habs | Hn]; [| exact Hn].
    now rewrite (Header_Get_absent _ _ Habs). }
  destruct (Atoi_not_numeric _ Hn) as [e0 He0].
  assert (Hparse : run h (fetchPostsPage i page hitsPerPage) w
                   = (Val (Err ("failed to parse total pages: " +:+ e0)), w')).
  { rewrite run_fetchPostsPage, Hh. now rewrite He0. }
  destruct (vectorizePostsPage_fetch_fails page hitsPerPage w w' _ Hparse) as [Hrun Htrace].
  eexists. split; [exact Hrun |].
  split.
  { do 3 apply Contains_append_l. apply Contains_prefix. reflexivity. }
  rewrite Htrace, trace_fetchPostsPage, Hh. repeat split.
Qed.

(** What an empty page leads to: [vectorizePostsPage] goes on to
    [vectorizeArticles], which calls [VectorizeBatch] on no text at all. *)
Lemma vectorizePostsPage_empty_page
    (page hitsPerPage nbPages : Z) (w w' : W) :
  run h (fetchPostsPage i page hitsPerPage) w = (Val (Ok ([], nbPages)), w') ->
  trace h (vectorizePostsPage i page hitsPerPage) w
  = trace h (fetchPostsPage i page hitsPerPage) w
    ++ match h _ (VectorizeBatch []) w' with
       | (Val (Ok embeddings), w'') =>
           entry (VectorizeBatch []) (Ok embeddings)
           :: match embeddings with
              | [] => match h _ (StoreArticles []) w'' with
                      | (Val r, _) => [entry (StoreArticles []) r]
                      | (Panicked _, _) => []
                      end
              | _ :: _ => []
              end
       | (Val (Err e), _) => [entry (VectorizeBatch []) (Err e)]
       | (Panicked _, _) => []
       end
  /\ (forall e w'',
         h _ (VectorizeBatch []) w' = (Val (Err e), w'') ->
         run h (vectorizePostsPage i page hitsPerPage) w
         = (Val (Err ("failed to vectorize articles: "
                      +:+ "failed to vectorize articles in batch: " +:+ e)), w'')).
Proof.
  intros Hf. unfold vectorizePostsPage.
  rewrite trace_bind, run_bind, Hf. cbn -[append].
  split.
  - f_equal. destruct (h _ (VectorizeBatch []) w') as [[[embeddings|e]|m] w''];
      cbn -[append]; try reflexivity.
    destruct embeddings as [|e0 l]; cbn -[append]; [| reflexivity].
    match goal with
    | |- context [h ?X (StoreArticles []) w''] =>
        destruct (h X (StoreArticles []) w'') as [[[e|]|m] w3]; reflexivity
    end.
  - intros e w'' ->. reflexivity.
Qed.

End PageClaims.

Lemma vectorizePostsPage_missing_total_pages_witness :
  (exists e,
      run (doubles.mock_handler (examples.onePage 10 examples.missingPagesHeader))
        (@importer.vectorizePostsPage examples.decoder examples.imp 1 10)
        examples.fresh
      = (Val (Err e),
         snd (doubles.serve (examples.onePage 10 examples.missingPagesHeader)
                (importer.posts_url examples.imp 1 10) examples.fresh))
      /\ strings_Contains e "failed to parse total pages" = true)
  /\ doubles.storedArticles
       (doubles.mstore
          (snd (doubles.serve (examples.onePage 10 examples.missingPagesHeader)
                  (importer.posts_url examples.imp 1 10) examples.fresh))) = [].
Proof.
  split; [| reflexivity].
  destruct (@vectorizePostsPage_missing_total_pages examples.decoder _
              (doubles.mock_handler (examples.onePage 10 examples.missingPagesHeader))
              examples.imp 1 10
              (doubles.respond examples.missingPagesHeader)
              examples.fresh _ eq_refl
              (or_introl eq_refl)) as (e & Hrun & Hc & _).
  exists e. split; [exact Hrun | exact Hc].
Defined.

Section EmptyPage.
Context `{importer.Decoder} `{vectorization.Codec} {W : Type}.
Import importer.
Variable source : string -> W -> Res (result http.Response) * W.
Variable embed : Handler vectorization.HttpE W.
Variable redis : Handler store.RedisE W.
Variable index : W -> Res (option error) * W.
Variable c : vectorization.Client.
Variable i : Importer.

(** C9: a page without posts is not skipped.  [vectorizePostsPage] goes on
    to [vectorizeArticles], which calls [VectorizeBatch] on the empty slice;
    wired to the production client, which rejects the empty slice before any
    request, the page fails, and [StoreArticles] is never reached. *)
Theorem empty_page_fails_with_production_client
    (page hitsPerPage nbPages : Z) (resp : http.Response) (w w' : W) :
  source (posts_url i page hitsPerPage) w = (Val (Ok resp), w') ->
  strconv.Atoi (http.Header_Get (http.Hdr resp) "X-WP-TotalPages") = Ok nbPages ->
  http.StatusCode resp = http.StatusOK ->
  json_Decode resp = Ok [] ->
  run (wiring.importer_handler source embed redis index c)
      (vectorizePostsPage i page hitsPerPage) w
  = (Val (Err ("failed to vectorize articles: "
               +:+ "failed to vectorize articles in batch: "
               +:+ "texts cannot be empty")), w')
  /\ trace (wiring.importer_handler source embed redis index c)
           (vectorizePostsPage i page hitsPerPage) w
     = [ entry (HttpGet (posts_url i page hitsPerPage)) (Ok resp);
         entry (VectorizeBatch []) (Err "texts cannot be empty") ]
  /\ trace embed (vectorization.VectorizeBatch c []) w' = []
  /\ batches_submitted
       (trace (wiring.importer_handler source embed redis index c)
              (vectorizePostsPage i page hitsPerPage) w) = [].
Proof.
  intros Hs Ha Hc Hd.
  set (h := wiring.importer_handler source embed redis index c).
  assert (Hf : run h (fetchPostsPage i page hitsPerPage) w = (Val (Ok ([], nbPages)), w')).
  { rewrite run_fetchPostsPage. unfold h at 1. cbn [wiring.importer_handler].
    rewrite Hs, Ha, Hc, Hd. reflexivity. }
  assert (Hv : h _ (VectorizeBatch []) w' = (Val (Err "texts cannot be empty"), w'))
    by reflexivity.
  destruct (vectorizePostsPage_empty_page h i page hitsPerPage nbPages w w' Hf)
    as [Htrace Hrun].
  assert (Ht : trace h (vectorizePostsPage i page hitsPerPage) w
               = [ entry (HttpGet (posts_url i page hitsPerPage)) (Ok resp);
                   entry (VectorizeBatch []) (Err "texts cannot be empty") ]).
  { rewrite Htrace, Hv, trace_fetchPostsPage. unfold h at 1.
    cbn [wiring.importer_handler]. rewrite Hs. reflexivity. }
  split; [exact (Hrun _ _ Hv) |].
  split; [exact Ht |].
  split; [reflexivity |].
  rewrite Ht. reflexivity.
Qed.

End EmptyPage.

Lemma empty_page_fails_with_production_client_witness :
  run examples.production
      (@importer.vectorizePostsPage examples.decoder examples.imp 1 100)
      examples.emptySite
  = (Val (Err ("failed to vectorize articles: "
               +:+ "failed to vectorize articles in batch: "
               +:+ "texts cannot be empty")), examples.emptySite)
  /\ run (doubles.mock_handler (examples.onePage 10 examples.emptyResponse))
       (@importer.vectorizePostsPage examples.decoder examples.imp 1 10)
       examples.fresh
     = (Val (Ok 0),
        snd (doubles.serve (examples.onePage 10 examples.emptyResponse)
               (importer.posts_url examples.imp 1 10) examples.fresh)).
Proof.
  split; [| reflexivity].
  apply (@empty_page_fails_with_production_client examples.decoder doubles.wire_codec _
           examples.p_source examples.p_embed examples.p_redis
           (fun w => (Val None, w)) examples.client examples.imp
           1 100 0 (doubles.respond examples.emptyResponse)
           examples.emptySite examples.emptySite eq_refl eq_refl eq_refl eq_refl).
Defined.

(** ** The search handler *)

Section SearchFacts.
Context `{retrieval.Json} {W : Type}.
Import retrieval.
Variable h : Handler RetE W.

Lemma results_are_mapped (hits : list store.SearchHit) :
  fold_left (fun results sr =>
               results ++ [ {| Title := store.h_Title sr;
                               URL := store.h_Link sr;
                               Score := store.h_Score sr |} ])
            hits []
  = map (fun sr => {| Title := store.h_Title sr;
                      URL := store.h_Link sr;
                      Score := store.h_Score sr |}) hits.
Proof.
  enough (forall acc,
             fold_left (fun results sr =>
                          results ++ [ {| Title := store.h_Title sr;
                                          URL := store.h_Link sr;
                                          Score := store.h_Score sr |} ])
                       hits acc
             = acc ++ map (fun sr => {| Title := store.h_Title sr;
                                        URL := store.h_Link sr;
                                        Score := store.h_Score sr |}) hits)
    as Hgen by apply (Hgen []).
  induction hits as [|x l IH]; intros acc; simpl.
  - now rewrite app_nil_r.
  - rewrite IH. now rewrite <- app_assoc.
Qed.


End SearchFacts.



(** ** The loops of the pipeline, as maps *)

Lemma articlesOf_map (posts : list importer.WPPost) :
  importer.articlesOf posts
  = map (fun post => {| importer.Title := importer.rendered (importer.wp_Title post);
                        importer.Description := importer.rendered (importer.wp_Excerpt post);
                        importer.Link := importer.wp_Link post |}) posts.
Proof.
  unfold importer.articlesOf.
  enough (forall acc,
             fold_left
               (fun articles post =>
                  articles ++ [ {| importer.Title := importer.rendered (importer.wp_Title post);
                                   importer.Description :=
                                     importer.rendered (importer.wp_Excerpt post);
                                   importer.Link := importer.wp_Link post |} ]) posts acc
             = acc ++ map (fun post =>
                             {| importer.Title := importer.rendered (importer.wp_Title post);
                                importer.Description :=
                                  importer.rendered (importer.wp_Excerpt post);
                                importer.Link := importer.wp_Link post |}) posts)
    as Hgen by apply (Hgen []).
  induction posts as [|p l IH]; intros acc; simpl.
  - now rewrite app_nil_r.
  - rewrite IH. now rewrite <- app_assoc.
Qed.

Lemma toStore_map (vas : list importer.VectorizedArticle) :
  importer.toStore vas
  = map (fun va => {| store.Title := importer.Title (importer.va_Article va);
                      store.Link := importer.Link (importer.va_Article va);
                      store.Embedding := importer.va_Embedding va |}) vas.
Proof.
  unfold importer.toStore.
  enough (forall acc,
             fold_left
               (fun articles va =>
                  articles ++ [ {| store.Title := importer.Title (importer.va_Article va);
                                   store.Link := importer.Link (importer.va_Article va);
                                   store.Embedding := importer.va_Embedding va |} ]) vas acc
             = acc ++ map (fun va =>
                             {| store.Title := importer.Title (importer.va_Article va);
                                store.Link := importer.Link (importer.va_Article va);
                                store.Embedding := importer.va_Embedding va |}) vas)
    as Hgen by apply (Hgen []).
  induction vas as [|p l IH]; intros acc; simpl.
  - now rewrite app_nil_r.
  - rewrite IH. now rewrite <- app_assoc.
Qed.

(** The documents of a page, post by post. *)
Lemma page_documents_zip (posts : list importer.WPPost) : forall embeddings : list bytes,
  pages.page_documents posts embeddings
  = zip_with (fun post e => {| store.Title := importer.rendered (importer.wp_Title post);
                               store.Link := importer.wp_Link post;
                               store.Embedding := e |}) posts embeddings.
Proof.
  intros embeddings. unfold pages.page_documents. rewrite toStore_map, articlesOf_map.
  revert embeddings.
  induction posts as [|p posts IH]; intros [|e embeddings]; try reflexivity.
  cbn [map zip_with]. f_equal. apply IH.
Qed.

(** ** The runs of [initialImport] *)

Lemma always_impl {E : Type -> Type} {A} (ok : forall X, E X -> X -> Prop) (p : Prog E A) :
  forall (Q Q' : list (Entry E) -> Prog E A -> Prop),
    (forall l p', Q l p' -> Q' l p') -> always ok p Q -> always ok p Q'.
Proof.
  induction p as [a | X e k IH | m]; intros Q Q' HQ [H0 Hk]; simpl; split; auto.
  intros x Hx. apply (IH x _ _ (fun l p' => HQ (entry e x :: l) p')), Hk, Hx.
Qed.

Lemma int_wrap_small (z : Z) : int_min <= z <= int_max -> int_wrap z = z.
Proof.
  unfold int_min, int_max, int_wrap. intros Hz.
  rewrite Z.mod_small by lia. lia.
Qed.

Lemma pages_from_snoc (n : nat) : forall a,
  pages.pages_from a (S n) = pages.pages_from a n ++ [a + Z.of_nat n].
Proof.
  induction n as [|n IH]; intros a.
  - simpl. now rewrite Z.add_0_r.
  - change (pages.pages_from a (S (S n))) with (a :: pages.pages_from (a + 1) (S n)).
    rewrite IH. simpl. do 2 f_equal. f_equal. lia.
Qed.

Lemma first_error_snoc (l : list (option error)) (r : option error) :
  pages.first_error (l ++ [r])
  = match pages.first_error l with Some e => Some e | None => r end.
Proof.
  induction l as [|[e|] l IH]; simpl; [now destruct r | reflexivity | exact IH].
Qed.

Section Machine.
Context `{importer.Decoder} {W : Type}.
Import importer pages initial errgroup.
Variable h : Handler ImpE W.
Variable i : Importer.
Variable holds : W -> store.Article -> Prop.
Local Abbreviation task_ok := (task_ok h i).
Local Abbreviation finished_ok := (finished_ok i).
Local Abbreviation kept := (kept holds).
Local Abbreviation within_limit := (within_limit i).
Local Abbreviation Inv := (Inv h i holds).
Hypothesis holds_mono :
  forall X (e : ImpE X) w a, holds w a -> holds (snd (h X e w)) a.
Hypothesis holds_store :
  forall l w w', h _ (StoreArticles l) w = (Val None, w') ->
                 forall a, In a l -> holds w' a.

Ltac history_leaf :=
  split; [| exact I]; unfold page_history; cbn;
  repeat split; try lia; intros; try discriminate.

Lemma pageTask_history (page : Z) :
  always (answers h) (pageTask i page) (page_history i page).
Proof.
  unfold pageTask, vectorizePostsPage, fetchPostsPage.
  cbn [bind trigger always].
  split.
  { unfold page_history; cbn. repeat split; try lia; intros; discriminate. }
  intros [resp|e] _; cbn [bind always]; [| history_leaf].
  destruct (strconv.Atoi _) as [nb|e]; cbn [bind always]; [| history_leaf].
  destruct (negb _); cbn [bind always]; [history_leaf |].
  destruct (json_Decode resp) as [posts|e] eqn:Hd; cbn [bind always]; [| history_leaf].
  unfold vectorizeArticles. cbn [bind trigger always].
  split.
  { unfold page_history; cbn. repeat split; try lia; intros; discriminate. }
  intros [embeddings|e] _; cbn [bind always]; [| history_leaf].
  destruct (le_lt_dec (length embeddings) (length posts)) as [Hle|Hlt];
    [rewrite pairEmbeddings_in_range by (rewrite articlesOf_length; simpl; lia)
    | rewrite pairEmbeddings_out_of_range by (rewrite articlesOf_length; lia)];
    cbn [bind always app drop]; [| history_leaf].
  unfold storeArticles. cbn [bind trigger always].
  split.
  { unfold page_history; cbn. repeat split; try lia; intros; discriminate. }
  intros [e|] _; cbn [bind always]; history_leaf.
  exists resp, posts, embeddings. split; [exact Hd |]. split; [exact Hle | reflexivity].
Qed.

Lemma documents_stored_snoc (l : list (Entry ImpE)) (en : Entry ImpE) :
  documents_stored (l ++ [en]) = documents_stored l ++ stored en.
Proof.
  unfold documents_stored. rewrite map_app, concat_app. simpl. now rewrite app_nil_r.
Qed.

Lemma kept_mono X (e : ImpE X) (r : Res X) (w w' : W) (l : list (Entry ImpE)) :
  h X e w = (r, w') -> kept w l -> kept w' l.
Proof.
  intros Hh Hk a Ha. replace w' with (snd (h X e w)) by now rewrite Hh.
  apply holds_mono, Hk, Ha.
Qed.

Lemma kept_event X (e : ImpE X) (x : X) (w w' : W) (l : list (Entry ImpE)) :
  h X e w = (Val x, w') -> kept w l -> kept w' (l ++ [entry e x]).
Proof.
  intros Hh Hk a. rewrite documents_stored_snoc, in_app_iff. intros [Ha | Ha].
  - eapply kept_mono; eauto.
  - revert x Hh Ha. destruct e; intros x Hh Ha; simpl in Ha; try contradiction.
    destruct x; [contradiction |]. eapply holds_store; eauto.
Qed.

Local Arguments pageTask : simpl never.

Lemma step_within_limit (c : Choice) (s s' : State W) :
  within_limit (grp s) -> step h i c s = Some s' -> within_limit (grp s').
Proof.
  intros [Hsem Hlen] Hstep. unfold step in Hstep.
  destruct (main s) as [nb' page | r | m]; [| discriminate | discriminate].
  destruct c as [| n |].
  - destruct (page <=? nb')%Z; [| discriminate].
    destruct (can_Go (grp s)) eqn:Hgo; [| discriminate].
    injection Hstep as <-. unfold within_limit, can_Go in *. cbn.
    split; [exact Hsem |].
    destruct (sem (grp s)) as [k|]; [| exact I].
    apply Z.ltb_lt in Hgo. rewrite length_app. simpl. lia.
  - unfold move in Hstep.
    destruct (running (grp s) !! n) as [t|] eqn:Ht; [| discriminate].
    destruct (prog t) as [r | X e k | m].
    + injection Hstep as <-. unfold within_limit in *. cbn.
      split; [exact Hsem |].
      destruct (sem (grp s)) as [k|]; [| exact I].
      rewrite length_delete by eauto. lia.
    + destruct (h X e (world s)) as [[x | m] w'].
      * injection Hstep as <-. unfold within_limit in *. cbn.
        split; [exact Hsem |]. now rewrite length_insert.
      * injection Hstep as <-. split; assumption.
    + injection Hstep as <-. split; assumption.
  - destruct (negb _ && _); [| discriminate].
    injection Hstep as <-. split; assumption.
Qed.

Lemma step_Inv (nb : Z) (c : Choice) (s s' : State W) :
  (nb < int_max)%Z ->
  Inv nb s -> step h i c s = Some s' -> Inv nb s'.
Proof.
  intros Hnb (Hlim & Htasks & Hdone & Herr & Hkr & Hkd & Hmain) Hstep.
  pose proof (step_within_limit c s s' Hlim Hstep) as Hlim'.
  unfold step in Hstep.
  destruct (main s) as [nb' page | r | m] eqn:Hm; [| discriminate | discriminate].
  destruct Hmain as (-> & Hpage & Hrange & Hperm).
  destruct c as [| n |].
  - (* Dispatch *)
    destruct (page <=? nb)%Z eqn:Hle; [| discriminate].
    destruct (can_Go (grp s)) eqn:Hgo; [| discriminate].
    injection Hstep as <-. apply Z.leb_le in Hle.
    unfold Inv; cbn. split; [exact Hlim' |].
    split.
    { apply Forall_app. split; [exact Htasks |].
      constructor; [| constructor]. unfold task_ok; cbn. apply pageTask_history. }
    split; [exact Hdone |]. split; [exact Herr |].
    split.
    { apply Forall_app. split; [exact Hkr |].
      constructor; [| constructor]. intros a []. }
    split; [exact Hkd |].
    rewrite int_wrap_small by (unfold int_min, int_max in *; lia).
    split; [reflexivity |]. split; [lia |]. split; [left; lia |].
    rewrite map_app. cbn [map].
    replace (Z.to_nat (page + 1 - 2)) with (S (Z.to_nat (page - 2))) by lia.
    rewrite pages_from_snoc. replace (2 + Z.of_nat (Z.to_nat (page - 2)))%Z with page by lia.
    rewrite <- Hperm. rewrite <- !app_assoc. apply Permutation_app_head.
    apply Permutation_app_comm.
  - (* Goroutine n *)
    unfold move in Hstep.
    destruct (running (grp s) !! n) as [t|] eqn:Ht; [| discriminate].
    pose proof (proj1 (Forall_lookup _ _) Htasks _ _ Ht) as Htask.
    pose proof (proj1 (Forall_lookup _ _) Hkr _ _ Ht) as Hkt.
    destruct (prog t) as [r | X e k | m] eqn:Hp.
    + (* the goroutine returns *)
      injection Hstep as <-. unfold Inv; cbn. split; [exact Hlim' |].
      split; [now apply Forall_delete |].
      split.
      { apply Forall_app. split; [exact Hdone |]. constructor; [| constructor].
        unfold finished_ok; cbn. unfold task_ok in Htask. rewrite Hp in Htask.
        destruct Htask as [H0 _]. now rewrite app_nil_r in H0. }
      split.
      { rewrite map_app. cbn [map]. rewrite first_error_snoc, <- Herr. reflexivity. }
      split; [now apply Forall_delete |].
      split.
      { apply Forall_app. split; [exact Hkd |]. constructor; [exact Hkt | constructor]. }
      split; [reflexivity |]. split; [exact Hpage |]. split; [exact Hrange |].
      rewrite <- Hperm. rewrite map_app. cbn [map].
      rewrite (delete_Permutation _ _ _ Ht) at 2. cbn [map].
      rewrite app_assoc. symmetry. apply Permutation_cons_append.
    + (* the goroutine issues an event *)
      destruct (h X e (world s)) as [[x | m] w'] eqn:Hh.
      * injection Hstep as <-. unfold Inv; cbn. split; [exact Hlim' |].
        split.
        { apply Forall_insert; [exact Htasks |].
          unfold task_ok in *; cbn. rewrite Hp in Htask. destruct Htask as [_ Hk].
          eapply always_impl; [| apply Hk; now exists (world s), w'].
          cbn. intros l p' HQ. now rewrite <- app_assoc. }
        split; [exact Hdone |]. split; [exact Herr |].
        split.
        { apply Forall_insert.
          - eapply Forall_impl; [exact Hkr |]. intros t0. apply (kept_mono _ _ _ _ _ _ Hh).
          - cbn. eapply kept_event; eauto. }
        split.
        { eapply Forall_impl; [exact Hkd |]. intros f0. apply (kept_mono _ _ _ _ _ _ Hh). }
        split; [reflexivity |]. split; [exact Hpage |]. split; [exact Hrange |].
        rewrite list_fmap_insert. cbn.
        rewrite list_insert_id; [exact Hperm |].
        rewrite list_lookup_fmap, Ht. reflexivity.
      * injection Hstep as <-. unfold Inv; cbn.
        split; [exact Hlim' |].
        repeat split; try assumption.
        -- eapply Forall_impl; [exact Hkr |]. intros t0. apply (kept_mono _ _ _ _ _ _ Hh).
        -- eapply Forall_impl; [exact Hkd |]. intros f0. apply (kept_mono _ _ _ _ _ _ Hh).
    + injection Hstep as <-. unfold Inv; cbn.
      split; [exact Hlim' |]. repeat split; try assumption.
  - (* WaitReturns *)
    destruct (page <=? nb)%Z eqn:Hle; [discriminate |].
    destruct (can_Wait (grp s)) eqn:Hw; [| discriminate].
    injection Hstep as <-. apply Z.leb_gt in Hle.
    unfold can_Wait in Hw. destruct (running (grp s)) as [|t0 ?] eqn:Hr; [| discriminate].
    unfold Inv; cbn. split; [exact Hlim' |]. rewrite Hr.
    repeat split; try assumption.
    + cbn in Hperm. rewrite Hperm. unfold fanned_out. f_equiv.
      destruct Hrange as [Hrange | ->]; [f_equal; lia |].
      replace (Z.to_nat (nb - 1)) with O by lia. reflexivity.
    + unfold Wait. now rewrite Herr.
Qed.

Lemma exec_within_limit (cs : list Choice) : forall s s',
  within_limit (grp s) -> exec h i cs s = Some s' -> within_limit (grp s').
Proof.
  induction cs as [|c cs IH]; intros s s' Hl Hex; simpl in Hex.
  - now injection Hex as <-.
  - destruct (step h i c s) as [s1|] eqn:Hs; [| discriminate].
    eapply IH; [| exact Hex]. eapply step_within_limit; eauto.
Qed.

Lemma exec_Inv (nb : Z) (cs : list Choice) : forall s s',
  (nb < int_max)%Z -> Inv nb s -> exec h i cs s = Some s' -> Inv nb s'.
Proof.
  induction cs as [|c cs IH]; intros s s' Hnb HI Hex; simpl in Hex.
  - now injection Hex as <-.
  - destruct (step h i c s) as [s1|] eqn:Hs; [| discriminate].
    eapply IH; [exact Hnb | | exact Hex]. eapply step_Inv; eauto.
Qed.

(** The invariants of [always], read on a run. *)
Lemma always_run {A} (p : Prog ImpE A) :
  forall (Q : list (Entry ImpE) -> Prog ImpE A -> Prop) (w : W),
    always (answers h) p Q ->
    match run h p w with
    | (Val a, _) => Q (trace h p w) (Ret a)
    | (Panicked _, _) => True
    end.
Proof.
  induction p as [a | X e k IH | m]; intros Q w [H0 Hk]; simpl; auto.
  destruct (h X e w) as [[x | m] w'] eqn:Hh; [| exact I].
  apply (IH x (fun l => Q (entry e x :: l)) w'). apply Hk. now exists w, w'.
Qed.

Lemma run_kept {A} (p : Prog ImpE A) :
  forall (w : W) (l : list (Entry ImpE)),
    kept w l -> kept (snd (run h p w)) (l ++ trace h p w).
Proof.
  induction p as [a | X e k IH | m]; intros w l Hk; simpl;
    try (now rewrite app_nil_r).
  destruct (h X e w) as [[x | m] w'] eqn:Hh.
  - replace (l ++ entry e x :: trace h (k x) w')
      with ((l ++ [entry e x]) ++ trace h (k x) w') by now rewrite <- app_assoc.
    apply IH. eapply kept_event; eauto.
  - simpl. rewrite app_nil_r. eapply kept_mono; eauto.
Qed.

Lemma step_holds (c : Choice) (s s' : State W) (a : store.Article) :
  holds (world s) a -> step h i c s = Some s' -> holds (world s') a.
Proof.
  intros Ha Hstep. unfold step in Hstep.
  destruct (main s) as [nb page | r | m]; [| discriminate | discriminate].
  destruct c as [| n |].
  - destruct (_ && _); [| discriminate]. now injection Hstep as <-.
  - unfold move in Hstep.
    destruct (running (grp s) !! n) as [t|]; [| discriminate].
    destruct (prog t) as [r | X e k | m].
    + now injection Hstep as <-.
    + pose proof (holds_mono X e (world s) a Ha) as Hm.
      destruct (h X e (world s)) as [[x | m] w']; now injection Hstep as <-.
    + now injection Hstep as <-.
  - destruct (_ && _); [| discriminate]. now injection Hstep as <-.
Qed.

Lemma exec_holds (cs : list Choice) (a : store.Article) : forall s s',
  holds (world s) a -> exec h i cs s = Some s' -> holds (world s') a.
Proof.
  induction cs as [|c cs IH]; intros s s' Ha Hex; simpl in Hex.
  - now injection Hex as <-.
  - destruct (step h i c s) as [s1|] eqn:Hs; [| discriminate].
    eapply IH; [| exact Hex]. eapply step_holds; eauto.
Qed.

(** The first page, fetched before the loop. *)
Lemma run_pageTask (page : Z) (w : W) :
  run h (pageTask i page) w
  = match run h (vectorizePostsPage i page 100) w with
    | (Val (Ok _), w') => (Val None, w')
    | (Val (Err e), w') => (Val (Some e), w')
    | (Panicked m, w') => (Panicked m, w')
    end
  /\ trace h (pageTask i page) w = trace h (vectorizePostsPage i page 100) w.
Proof.
  unfold pageTask. rewrite run_bind, trace_bind.
  destruct (run h (vectorizePostsPage i page 100) w) as [[[nb|e]|m] w'];
    (split; [reflexivity | apply app_nil_r]).
Qed.

Lemma first_page_history (w w1 : W) (nb : Z) :
  run h (vectorizePostsPage i 1 100) w = (Val (Ok nb), w1) ->
  page_history i 1 (trace h (vectorizePostsPage i 1 100) w) (Ret None).
Proof.
  intros Hrun. destruct (run_pageTask 1 w) as [Hr Ht].
  pose proof (always_run (pageTask i 1) _ w (pageTask_history 1)) as Ha.
  rewrite Hr, Hrun, Ht in Ha. exact Ha.
Qed.

Lemma enter_Inv (w w1 : W) (nb : Z) :
  run h (vectorizePostsPage i 1 100) w = (Val (Ok nb), w1) ->
  Inv nb (enter h i w)
  /\ main (enter h i w) = Loop nb 2
  /\ world (enter h i w) = w1.
Proof.
  intros Hrun. unfold enter. rewrite Hrun.
  split; [| split; reflexivity].
  unfold pages.Inv, pages.within_limit; cbn.
  repeat split; try (right; reflexivity); try constructor; try lia.
  destruct (maxGoroutines i <? 0)%Z; [exact I | cbn; lia].
Qed.

Lemma int_wrap_range (z : Z) : (int_min <= int_wrap z <= int_max)%Z.
Proof.
  unfold int_min, int_max, int_wrap.
  pose proof (Z.mod_pos_bound (z + 2 ^ 63) (2 ^ 64) ltac:(lia)). lia.
Qed.

(** With [int_max] pages the loop never ends: [page <= nbPages] holds of
    every [int]. *)
Lemma step_never_returns (c : Choice) (s s' : State W) (page : Z) :
  main s = Loop int_max page -> (page <= int_max)%Z ->
  step h i c s = Some s' ->
  (exists page', main s' = Loop int_max page' /\ (page' <= int_max)%Z)
  \/ (exists m, main s' = Panicking m).
Proof.
  intros Hm Hp Hstep. unfold step in Hstep. rewrite Hm in Hstep.
  destruct c as [| n |].
  - destruct (_ && _); [| discriminate]. injection Hstep as <-.
    left. eexists. split; [reflexivity | apply int_wrap_range].
  - destruct (move h n (grp s) (world s)) as [[[g|m] w']|]; [| | discriminate];
      injection Hstep as <-; [left | right]; eauto.
  - apply Z.leb_le in Hp. rewrite Hp in Hstep. discriminate.
Qed.

Lemma exec_never_returns (cs : list Choice) : forall (s s' : State W) (page : Z),
  main s = Loop int_max page -> (page <= int_max)%Z ->
  exec h i cs s = Some s' ->
  forall r, main s' <> Returned r.
Proof.
  induction cs as [|c cs IH]; intros s s' page Hm Hp Hex r; simpl in Hex.
  - injection Hex as <-. rewrite Hm. discriminate.
  - destruct (step h i c s) as [s1|] eqn:Hs; [| discriminate].
    destruct (step_never_returns c s s1 page Hm Hp Hs) as [(page' & Hm' & Hp') | (m & Hm')].
    + eapply IH; eauto.
    + destruct cs as [|c' cs]; simpl in Hex.
      * injection Hex as <-. rewrite Hm'. discriminate.
      * unfold step in Hex. rewrite Hm' in Hex. discriminate.
Qed.

(** *** Every run ends *)

Lemma weight_app (l l' : list (Task ImpE)) : weight (l ++ l') = (weight l + weight l')%nat.
Proof. unfold weight. now rewrite map_app, list_sum_app. Qed.

Lemma weight_cons (t : Task ImpE) (l : list (Task ImpE)) :
  weight (t :: l) = ((4 - length (log t)) + weight l)%nat.
Proof. reflexivity. Qed.

Lemma weight_delete (l : list (Task ImpE)) : forall (n : nat) (t : Task ImpE),
  l !! n = Some t ->
  (weight (delete n l) + (4 - length (log t)))%nat = weight l.
Proof.
  induction l as [|t0 l IH]; intros [|n] t Ht; try discriminate.
  - injection Ht as ->. change (delete 0%nat (t :: l)) with l.
    rewrite weight_cons. lia.
  - change (delete (S n) (t0 :: l)) with (t0 :: delete n l).
    rewrite !weight_cons. specialize (IH n t Ht). lia.
Qed.

Lemma weight_insert (l : list (Task ImpE)) : forall (n : nat) (t t' : Task ImpE),
  l !! n = Some t ->
  (weight (<[n := t']> l) + (4 - length (log t)))%nat
  = (weight l + (4 - length (log t')))%nat.
Proof.
  induction l as [|t0 l IH]; intros [|n] t t' Ht; try discriminate.
  - injection Ht as ->. change (<[0%nat := t']> (t :: l)) with (t' :: l).
    rewrite !weight_cons. lia.
  - change (<[S n := t']> (t0 :: l)) with (t0 :: <[n := t']> l).
    rewrite !weight_cons. specialize (IH n t t' Ht). lia.
Qed.

Lemma step_measure (nb : Z) (c : Choice) (s s' : State W) :
  (nb < int_max)%Z ->
  Inv nb s -> step h i c s = Some s' -> (measure s' < measure s)%nat.
Proof.
  intros Hnb (Hlim & Htasks & _ & _ & _ & _ & Hmain) Hstep.
  unfold step in Hstep. unfold measure at 2.
  destruct (main s) as [nb' page | r | m] eqn:Hm; [| discriminate | discriminate].
  destruct Hmain as (-> & Hpage & Hrange & _).
  destruct c as [| n |].
  - destruct (page <=? nb)%Z eqn:Hle; [| discriminate].
    destruct (can_Go (grp s)); [| discriminate].
    injection Hstep as <-. apply Z.leb_le in Hle.
    unfold measure; cbn [main grp running Go].
    rewrite int_wrap_small by (unfold int_min, int_max in *; lia).
    rewrite weight_app, weight_cons. cbn [log length]. unfold weight at 2. cbn [map list_sum fold_right]. lia.
  - unfold move in Hstep.
    destruct (running (grp s) !! n) as [t|] eqn:Ht; [| discriminate].
    pose proof (proj1 (Forall_lookup _ _) Htasks _ _ Ht) as Htask.
    unfold pages.task_ok in Htask.
    destruct (prog t) as [r | X e k | m] eqn:Hp.
    + injection Hstep as <-. unfold measure; cbn [main grp running Go].
      destruct Htask as [(Hlen & _) _]. rewrite app_nil_r in Hlen. cbn in Hlen.
      pose proof (weight_delete _ _ _ Ht). lia.
    + destruct Htask as [(Hlen & _) _]. rewrite app_nil_r in Hlen. cbn in Hlen.
      destruct (h X e (world s)) as [[x | m] w'].
      * injection Hstep as <-. unfold measure; cbn [main grp running Go].
        pose proof (weight_insert _ n t
                      {| id := id t; log := log t ++ [entry e x]; prog := k x |} Ht) as Hw.
        cbn in Hw. rewrite length_app in Hw. cbn in Hw. lia.
      * injection Hstep as <-. unfold measure; cbn [main grp running Go]. lia.
    + injection Hstep as <-. unfold measure; cbn [main grp running Go]. lia.
  - destruct (_ && _); [| discriminate].
    injection Hstep as <-. unfold measure; cbn [main grp running Go]. lia.
Qed.

(** No schedule is longer than the measure of the state it starts from. *)
Lemma exec_bounded (nb : Z) (cs : list Choice) : forall s s',
  (nb < int_max)%Z -> Inv nb s -> exec h i cs s = Some s' ->
  (length cs + measure s' <= measure s)%nat.
Proof.
  induction cs as [|c cs IH]; intros s s' Hnb HI Hex; simpl in Hex.
  - injection Hex as <-. simpl. lia.
  - destruct (step h i c s) as [s1|] eqn:Hs; [| discriminate].
    pose proof (step_measure nb c s s1 Hnb HI Hs).
    pose proof (IH s1 s' Hnb (step_Inv nb c s s1 Hnb HI Hs) Hex). simpl. lia.
Qed.

Hypothesis behaved : well_behaved h.

Lemma pageTask_safe (page : Z) :
  always (answers h) (pageTask i page) not_panicked.
Proof.
  unfold pageTask, vectorizePostsPage, fetchPostsPage.
  cbn [bind trigger always].
  split; [intros m; discriminate |].
  intros [resp|e] _; cbn [bind always]; [| split; [intros m; discriminate | exact I]].
  destruct (strconv.Atoi _) as [nb|e]; cbn [bind always];
    [| split; [intros m; discriminate | exact I]].
  destruct (negb _); cbn [bind always]; [split; [intros m; discriminate | exact I] |].
  destruct (json_Decode resp) as [posts|e]; cbn [bind always];
    [| split; [intros m; discriminate | exact I]].
  unfold vectorizeArticles. cbn [bind trigger always].
  split; [intros m; discriminate |].
  intros [embeddings|e] Hans; cbn [bind always];
    [| split; [intros m; discriminate | exact I]].
  destruct Hans as (w & w' & Hh). apply (proj2 behaved) in Hh.
  rewrite texts_are_mapped, length_map in Hh.
  rewrite pairEmbeddings_in_range by (simpl; lia). cbn [bind always app].
  unfold storeArticles. cbn [bind trigger always].
  split; [intros m; discriminate |].
  intros [e|] _; cbn [bind always]; split; try exact I; intros m; discriminate.
Qed.

Local Abbreviation Safe := (Safe h).

Lemma step_Safe (c : Choice) (s s' : State W) :
  Safe s -> step h i c s = Some s' -> Safe s'.
Proof.
  intros [Hsafe Hmain] Hstep. unfold step in Hstep.
  destruct (main s) as [nb page | r | m] eqn:Hm; [| discriminate | discriminate].
  destruct c as [| n |].
  - destruct (_ && _); [| discriminate]. injection Hstep as <-.
    split; [| intros m; discriminate]. cbn.
    apply Forall_app. split; [exact Hsafe |]. constructor; [| constructor].
    apply pageTask_safe.
  - unfold move in Hstep.
    destruct (running (grp s) !! n) as [t|] eqn:Ht; [| discriminate].
    pose proof (proj1 (Forall_lookup _ _) Hsafe _ _ Ht) as Htask.
    unfold task_safe in Htask.
    destruct (prog t) as [r | X e k | m] eqn:Hp.
    + injection Hstep as <-. split; [| intros m; discriminate]. cbn.
      now apply Forall_delete.
    + destruct (proj1 behaved X e (world s)) as (x & w' & Hh). rewrite Hh in Hstep.
      injection Hstep as <-. split; [| intros m; discriminate]. cbn.
      apply Forall_insert; [exact Hsafe |]. unfold task_safe; cbn.
      destruct Htask as [_ Hk].
      eapply always_impl; [| apply Hk; now exists (world s), w'].
      intros l p' HQ. exact HQ.
    + destruct Htask as [H0 _]. exfalso. apply (H0 m). reflexivity.
  - destruct (_ && _); [| discriminate]. injection Hstep as <-.
    split; [exact Hsafe | intros m; discriminate].
Qed.

Lemma exec_Safe (cs : list Choice) : forall s s',
  Safe s -> exec h i cs s = Some s' -> Safe s'.
Proof.
  induction cs as [|ch cs IH]; intros s s' HS Hex; cbn in Hex.
  - now injection Hex as <-.
  - destruct (step h i ch s) as [s1|] eqn:Hstep; [| discriminate Hex].
    apply (IH s1 s'); [| exact Hex].
    exact (step_Safe ch s s1 HS Hstep).
Qed.

(** A schedule after another. *)
Lemma exec_app (cs cs' : list Choice) : forall s,
  exec h i (cs ++ cs') s
  = match exec h i cs s with
    | Some s1 => exec h i cs' s1
    | None => None
    end.
Proof.
  induction cs as [|c cs IH]; intros s; simpl; [reflexivity |].
  destruct (step h i c s) as [s1|]; [apply IH | reflexivity].
Qed.

(** The scheduler [pick] always finds something to do, as long as the
    semaphore has at least one token. *)
Lemma pick_enabled (s : State W) (nb page : Z) :
  maxGoroutines i <> 0%Z ->
  within_limit (grp s) -> main s = Loop nb page ->
  exists s', step h i (pick s) s = Some s'.
Proof.
  intros HC [Hsem _] Hm. unfold pick, step. rewrite Hm.
  destruct (running (grp s)) as [|t l] eqn:Hr.
  - destruct (page <=? nb)%Z eqn:Hle; cbn [andb negb].
    + unfold can_Go. rewrite Hsem, Hr.
      destruct (maxGoroutines i <? 0)%Z eqn:Hneg; [eauto |].
      apply Z.ltb_ge in Hneg. cbn [length].
      destruct (Z.of_nat 0 <? maxGoroutines i)%Z eqn:Hpos; [eauto |].
      apply Z.ltb_ge in Hpos. lia.
    + unfold can_Wait. rewrite Hr. eauto.
  - unfold move. rewrite Hr. cbn [lookup list_lookup].
    destruct (prog t) as [r | X e k | m]; [eauto | | eauto].
    destruct (h X e (world s)) as [[x | m] w']; eauto.
Qed.

Lemma drive_exec (fuel : nat) : forall s,
  exists cs, exec h i cs s = Some (drive h i fuel s).
Proof.
  induction fuel as [|fuel IH]; intros s; simpl.
  - now exists [].
  - destruct (step h i (pick s) s) as [s1|] eqn:Hs; [| now exists []].
    destruct (IH s1) as [cs Hcs]. exists (pick s :: cs). simpl. now rewrite Hs.
Qed.

Lemma drive_returns (nb : Z) (fuel : nat) : forall s,
  (nb < int_max)%Z -> maxGoroutines i <> 0%Z ->
  Inv nb s -> Safe s -> (measure s <= fuel)%nat ->
  exists r, main (drive h i fuel s) = Returned r.
Proof.
  induction fuel as [|fuel IH]; intros s Hnb HC HI HS Hfuel.
  - destruct HS as [_ Hnp]. unfold measure in Hfuel.
    destruct (main s) as [nb' page | r | m] eqn:Hm; [lia | | now destruct (Hnp m)].
    exists r. exact Hm.
  - simpl. destruct (main s) as [nb' page | r | m] eqn:Hm.
    + destruct (pick_enabled s nb' page HC (proj1 HI) Hm) as [s1 Hs]. rewrite Hs.
      apply IH; try assumption.
      * eapply step_Inv; eauto.
      * eapply step_Safe; eauto.
      * pose proof (step_measure nb _ s s1 Hnb HI Hs). lia.
    + unfold step. rewrite Hm. exists r. destruct (pick s); exact Hm.
    + destruct HS as [_ Hnp]. now destruct (Hnp m).
Qed.

End Machine.

(** ** [initialImport]: the claims *)

Lemma Atoi_range (s : string) (n : Z) :
  strconv.Atoi s = Ok n -> (int_min <= n <= int_max)%Z.
Proof.
  unfold strconv.Atoi.
  match goal with
  | |- context [let '(a, b) := ?t in _] => destruct t as [neg ds]
  end.
  destruct ds as [|c ds]; [discriminate |].
  destruct (strconv.ParseUint_loop (String c ds) 0) as [[|]|un] eqn:Hloop;
    [discriminate | discriminate |].
  pose proof (ParseUint_loop_grows _ _ _ Hloop ltac:(lia)) as Hun.
  unfold strconv.cutoff, int_min, int_max.
  destruct neg.
  - destruct (Z.ltb_spec (2 ^ 63) un); [discriminate |].
    intros Hn. injection Hn as <-. lia.
  - destruct (Z.leb_spec (2 ^ 63) un); [discriminate |].
    intros Hn. injection Hn as <-. lia.
Qed.

Lemma first_error_None (l : list (option error)) :
  pages.first_error l = None -> Forall (fun r => None = r) l.
Proof.
  induction l as [|[e|] l IH]; simpl; intros Hl.
  - constructor.
  - discriminate.
  - constructor; [reflexivity | exact (IH Hl)].
Qed.

Lemma in_pages_from (n : nat) : forall (a p : Z),
  In p (pages.pages_from a n) <-> (a <= p < a + Z.of_nat n)%Z.
Proof.
  induction n as [|n IH]; intros a p; simpl.
  - lia.
  - rewrite IH. lia.
Qed.

Lemma NoDup_pages_from (n : nat) : forall a, NoDup (pages.pages_from a n).
Proof.
  induction n as [|n IH]; intros a; simpl; constructor.
  - rewrite list_elem_of_In, in_pages_from. lia.
  - apply IH.
Qed.

(** The loop goes through the pages 2 to [nbPages], each once. *)
Lemma fanned_out_pages (nbPages p : Z) :
  In p (pages.fanned_out nbPages) <-> (2 <= p <= nbPages)%Z.
Proof. unfold pages.fanned_out. rewrite in_pages_from. lia. Qed.

Section Claims.
Context `{importer.Decoder} {W : Type}.
Import importer pages initial errgroup.
Variable h : Handler ImpE W.
Variable i : Importer.

Lemma first_page_range (w w1 : W) (nb : Z) :
  run h (vectorizePostsPage i 1 100) w = (Val (Ok nb), w1) ->
  (nb <= int_max)%Z.
Proof.
  intros Hrun.
  unfold vectorizePostsPage in Hrun. rewrite run_bind, run_fetchPostsPage in Hrun.
  destruct (h _ _ w) as [[[resp|e]|m] w0]; try discriminate.
  destruct (strconv.Atoi _) as [n|e] eqn:Ha; [| discriminate].
  apply Atoi_range in Ha.
  destruct (negb _); [discriminate |].
  destruct (json_Decode resp) as [posts|e]; [| discriminate].
  rewrite run_bind in Hrun.
  destruct (run h (vectorizeArticles (articlesOf posts)) w0) as [[[vas|e]|m] w2];
    try discriminate.
  rewrite run_bind in Hrun.
  destruct (run h (storeArticles vas) w2) as [[[e|]|m] w3]; try discriminate.
  injection Hrun as <- _. lia.
Qed.

Lemma page_history_once (page : Z) (l : list (Entry ImpE)) (r : option error) :
  page_history i page l (Ret r) ->
  urls_fetched l = [posts_url i page 100]
  /\ (length (batches_submitted l) <= 1)%nat
  /\ (r = None ->
      exists docs, batches_submitted l = [docs] /\ documents_stored l = docs).
Proof.
  intros (_ & Hurl & Hne & Hb & Hok & _).
  split.
  { destruct l; [| exact Hurl]. specialize (Hne eq_refl). discriminate. }
  split; [exact Hb |].
  intros ->. destruct (Hok eq_refl) as (resp & posts & embeddings & _ & _ & ->).
  exists (page_documents posts embeddings).
  split; [reflexivity |]. unfold documents_stored. cbn. apply app_nil_r.
Qed.

(** The history of a page that went through, post by post. *)
Lemma page_history_went_through (page : Z) (l : list (Entry ImpE)) :
  page_history i page l (Ret None) ->
  exists posts embeddings,
    went_through i page l posts embeddings
    /\ batches_submitted l = [documents posts embeddings]
    /\ documents_stored l = documents posts embeddings.
Proof.
  intros (_ & _ & _ & _ & Hok & _).
  destruct (Hok eq_refl) as (resp & posts & embeddings & Hd & Hlen & ->).
  exists posts, embeddings.
  rewrite texts_are_mapped, articlesOf_map, map_map, page_documents_zip.
  cbn [Title Description]. fold (documents posts embeddings).
  split; [split; [exact Hlen | exists resp; split; [exact Hd | reflexivity]] |].
  split; [reflexivity |]. unfold documents_stored. cbn. apply app_nil_r.
Qed.

(** C2, as the code has it: with a ceiling [C >= 1] and a first page that
    reports [N] pages, no state of any run of [initialImport] has more than
    [C] goroutines in flight; and in every run that returns, whatever [C],
    page 1 has been fetched once and its documents handed to the store once
    and accepted: the one batch of the call is, post by post of the page as
    it was decoded, the title, the link and the embedding that the
    vectorizer returned at the place of the post.  The goroutines that have
    returned are those of the pages 2 to [N], one a page, and each of them
    has fetched its page once and handed at most one batch to the store;
    each of them that returned no error has handed the store the documents
    of its page, once, and the store has accepted them; when the import
    returns no error that is every page. *)
Theorem initialImport_bounded_and_exactly_once
    (C N : Z) (w w1 : W) (cs : list Choice) (s : State W) :
  (1 <= C)%Z ->
  maxGoroutines i = C ->
  run h (vectorizePostsPage i 1 100) w = (Val (Ok N), w1) ->
  exec h i cs (enter h i w) = Some s ->
  (Z.of_nat (length (running (grp s))) <= C)%Z
  /\ (forall r,
         main s = Returned r ->
         urls_fetched (trace h (vectorizePostsPage i 1 100) w) = [posts_url i 1 100]
         /\ (exists posts embeddings,
                went_through i 1 (trace h (vectorizePostsPage i 1 100) w) posts embeddings
                /\ batches_submitted (trace h (vectorizePostsPage i 1 100) w)
                   = [documents posts embeddings]
                /\ documents_stored (trace h (vectorizePostsPage i 1 100) w)
                   = documents posts embeddings)
         /\ running (grp s) = []
         /\ map f_id (done (grp s)) ≡ₚ fanned_out N
         /\ Forall (once i) (done (grp s))
         /\ Forall (fun f =>
                      f_err f = None ->
                      exists posts embeddings,
                        went_through i (f_id f) (f_log f) posts embeddings
                        /\ batches_submitted (f_log f) = [documents posts embeddings]
                        /\ documents_stored (f_log f) = documents posts embeddings)
                   (done (grp s))
         /\ (r = None -> Forall (fun f => f_err f = None) (done (grp s)))).
Proof.
  intros HC Hmax Hrun Hex.
  destruct (enter_Inv h i (fun _ _ => True) w w1 N Hrun) as (HI & Hm & _).
  split.
  { destruct (exec_within_limit h i cs _ _ (proj1 HI) Hex) as [Hsem Hlen].
    rewrite Hsem, Hmax in Hlen.
    destruct (C <? 0)%Z eqn:Hneg; [apply Z.ltb_lt in Hneg; lia |].
    lia. }
  intros r Hr.
  pose proof (first_page_range w w1 N Hrun) as Hmaxint.
  destruct (Z.eq_dec N int_max) as [-> | Hne].
  { exfalso. eapply (exec_never_returns h i cs _ s 2 Hm); eauto.
    unfold int_max. lia. }
  assert (Hlt : (N < int_max)%Z) by lia.
  pose proof (exec_Inv h i (fun _ _ => True) (fun _ _ _ _ _ => I) (fun _ _ _ _ _ _ => I)
                N cs _ s Hlt HI Hex) as (_ & _ & Hdone & _ & _ & _ & Hmain).
  rewrite Hr in Hmain. destruct Hmain as (Hrun0 & Hperm & Hres).
  pose proof (page_history_once 1 _ None
                (first_page_history h i w w1 N Hrun)) as (H1 & _ & _).
  split; [exact H1 |].
  split; [exact (page_history_went_through 1 _ (first_page_history h i w w1 N Hrun)) |].
  split; [exact Hrun0 |]. split; [exact Hperm |].
  split.
  { eapply Forall_impl; [exact Hdone |].
    intros f Hf. apply page_history_once. exact Hf. }
  split.
  { eapply Forall_impl; [exact Hdone |].
    intros f Hf Hnone. unfold finished_ok in Hf. rewrite Hnone in Hf.
    exact (page_history_went_through _ _ Hf). }
  intros ->.
  destruct (first_error (map f_err (done (grp s)))) eqn:Hfe; [discriminate |].
  apply first_error_None in Hfe.
  apply Forall_forall. intros f Hf.
  rewrite Forall_forall in Hfe. symmetry. apply Hfe.
  apply list_elem_of_In. apply in_map. now apply list_elem_of_In.
Qed.

End Claims.

Lemma first_error_failure (l : list (option error)) :
  Exists (fun r => r <> None) l -> pages.first_error l <> None.
Proof.
  induction l as [|[e|] l IH]; intros Hex; simpl.
  - inversion Hex.
  - discriminate.
  - apply IH. inversion Hex as [? ? Hx | ? ? Hx]; [now destruct Hx | exact Hx].
Qed.

Section PartialFailure.
Context `{importer.Decoder} {W : Type}.
Import importer pages initial errgroup.
Variable h : Handler ImpE W.
Variable i : Importer.
Variable holds : W -> store.Article -> Prop.
Hypothesis holds_mono :
  forall X (e : ImpE X) w a, holds w a -> holds (snd (h X e w)) a.
Hypothesis holds_store :
  forall l w w', h _ (StoreArticles l) w = (Val None, w') ->
                 forall a, In a l -> holds w' a.

(** C1: when the first page fails, [initialImport] returns that error at
    once.  Otherwise, in every run that returns, every page from 2 to [N]
    has got its goroutine and every goroutine has returned, those
    dispatched after a failure too; the result is the first error among the
    goroutines, in the order in which they returned, and so a failure as
    soon as one of them failed.  Page 1 and every goroutine that returned no
    error have handed the store the documents of their page (post by post of
    the page as it was decoded, the title, the link and the embedding the
    vectorizer returned for it), and the store holds each of these documents
    when [initialImport] returns, whatever the other pages did: nothing is
    rolled back.  With collaborators that do not panic, a vectorizer that
    returns no more embeddings than texts and a ceiling other than 0, some
    run returns; and after any schedule the import has not panicked, is no
    further than the measure of its first state, has a next step as long as
    it has not returned, and can be scheduled on to its return. *)
Theorem initialImport_partial_failure (w : W) :
  (forall e w1,
      run h (vectorizePostsPage i 1 100) w = (Val (Err e), w1) ->
      initialImport h i [] w
      = Some (Some ("failed to fetch number of pages: " +:+ e), w1))
  /\ (forall N w1 cs r w',
         run h (vectorizePostsPage i 1 100) w = (Val (Ok N), w1) ->
         initialImport h i cs w = Some (r, w') ->
         exists s,
           exec h i cs (enter h i w) = Some s
           /\ main s = Returned r /\ world s = w'
           /\ running (grp s) = []
           /\ map f_id (done (grp s)) ≡ₚ fanned_out N
           /\ r = match first_error (map f_err (done (grp s))) with
                  | Some e => Some ("error during initial import: " +:+ e)
                  | None => None
                  end
           /\ (Exists (fun f => f_err f <> None) (done (grp s)) -> r <> None)
           /\ (exists posts embeddings,
                  went_through i 1 (trace h (vectorizePostsPage i 1 100) w)
                    posts embeddings
                  /\ forall a, In a (documents posts embeddings) -> holds w' a)
           /\ Forall (fun f =>
                        f_err f = None ->
                        exists posts embeddings,
                          went_through i (f_id f) (f_log f) posts embeddings
                          /\ forall a, In a (documents posts embeddings) -> holds w' a)
                     (done (grp s))
           /\ kept holds w' (trace h (vectorizePostsPage i 1 100) w)
           /\ Forall (fun f => kept holds w' (f_log f)) (done (grp s))
           /\ Forall (once i) (done (grp s)))
  /\ (forall N w1,
         run h (vectorizePostsPage i 1 100) w = (Val (Ok N), w1) ->
         (N < int_max)%Z ->
         maxGoroutines i <> 0%Z ->
         well_behaved h ->
         (exists cs r w', initialImport h i cs w = Some (r, w'))
         /\ (forall cs s,
                exec h i cs (enter h i w) = Some s ->
                (length cs <= measure (enter h i w))%nat
                /\ (forall m, main s <> Panicking m)
                /\ (forall nb page,
                       main s = Loop nb page -> exists c s', step h i c s = Some s')
                /\ (exists cs' r w', initialImport h i (cs ++ cs') w = Some (r, w')))).
Proof.
  split; [| split].
  - intros e w1 Hrun. unfold initialImport, enter. cbn [exec]. now rewrite Hrun.
  - intros N w1 cs r w' Hrun Himp.
    unfold initialImport in Himp.
    destruct (exec h i cs (enter h i w)) as [s|] eqn:Hex; [| discriminate].
    destruct (main s) as [nb page | r0 | m] eqn:Hr; try discriminate.
    injection Himp as -> <-.
    exists s. split; [reflexivity |]. split; [exact Hr |]. split; [reflexivity |].
    destruct (enter_Inv h i holds w w1 N Hrun) as (HI & Hm & Hw).
    pose proof (first_page_range h i w w1 N Hrun) as Hmaxint.
    destruct (Z.eq_dec N int_max) as [-> | Hne].
    { exfalso. eapply (exec_never_returns h i cs _ s 2 Hm); eauto.
      unfold int_max. lia. }
    assert (Hlt : (N < int_max)%Z) by lia.
    pose proof (exec_Inv h i holds holds_mono holds_store N cs _ s Hlt HI Hex)
      as (_ & _ & Hdone & _ & _ & Hkd & Hmain).
    rewrite Hr in Hmain. destruct Hmain as (Hrun0 & Hperm & Hres).
    assert (Hk1 : kept holds (world s) (trace h (vectorizePostsPage i 1 100) w)).
    { intros a Ha.
      eapply (exec_holds h i holds holds_mono cs a _ s); [| exact Hex].
      rewrite Hw. replace w1 with (snd (run h (vectorizePostsPage i 1 100) w))
        by now rewrite Hrun.
      apply (run_kept h holds holds_mono holds_store (vectorizePostsPage i 1 100) w []);
        [intros a0 [] | exact Ha]. }
    split; [exact Hrun0 |]. split; [exact Hperm |]. split; [exact Hres |].
    split.
    { intros Hex'. rewrite Hres.
      pose proof (first_error_failure (map f_err (done (grp s)))) as Hfe.
      destruct (first_error (map f_err (done (grp s)))); [discriminate |].
      exfalso. apply Hfe; [| reflexivity].
      apply Exists_exists in Hex'. destruct Hex' as (f & Hf & Hn).
      apply Exists_exists. exists (f_err f). split; [| exact Hn].
      apply list_elem_of_In. apply in_map. now apply list_elem_of_In. }
    split.
    { destruct (page_history_went_through i 1 _ (first_page_history h i w w1 N Hrun))
        as (posts & embeddings & Hwt & _ & Hst).
      exists posts, embeddings. split; [exact Hwt |].
      intros a Ha. apply Hk1. rewrite Hst. exact Ha. }
    split.
    { apply Forall_forall. intros f Hf Hnone.
      rewrite Forall_forall in Hdone, Hkd.
      pose proof (Hdone f Hf) as Hh. unfold finished_ok in Hh. rewrite Hnone in Hh.
      destruct (page_history_went_through i _ _ Hh) as (posts & embeddings & Hwt & _ & Hst).
      exists posts, embeddings. split; [exact Hwt |].
      intros a Ha. apply (Hkd f Hf). rewrite Hst. exact Ha. }
    split; [exact Hk1 |].
    split; [exact Hkd |].
    eapply Forall_impl; [exact Hdone |].
    intros f Hf. apply page_history_once. exact Hf.
  - intros N w1 Hrun Hlt HC Hb.
    destruct (enter_Inv h i holds w w1 N Hrun) as (HI & Hm & Hw).
    assert (HS : Safe h (enter h i w)).
    { split; [| intros m; rewrite Hm; discriminate].
      unfold enter. rewrite Hrun. constructor. }
    split.
    + destruct (drive_returns h i holds holds_mono holds_store Hb N
                  (measure (enter h i w)) (enter h i w) Hlt HC HI HS (le_n _))
        as [r Hr].
      destruct (drive_exec h i (measure (enter h i w)) (enter h i w)) as [cs Hcs].
      exists cs, r, (world (drive h i (measure (enter h i w)) (enter h i w))).
      unfold initialImport. now rewrite Hcs, Hr.
    + intros cs s Hex.
      pose proof (exec_Inv h i holds holds_mono holds_store N cs _ s Hlt HI Hex) as HIs.
      pose proof (exec_Safe h i Hb cs _ s HS Hex) as HSs.
      split.
      { pose proof (exec_bounded h i holds holds_mono holds_store N cs _ s Hlt HI Hex).
        lia. }
      split; [exact (proj2 HSs) |].
      split.
      { intros nb page Hloop.
        destruct (pick_enabled h i s nb page HC (proj1 HIs) Hloop) as [s' Hs'].
        exists (pick s), s'. exact Hs'. }
      destruct (drive_returns h i holds holds_mono holds_store Hb N
                  (measure s) s Hlt HC HIs HSs (le_n _)) as [r Hr].
      destruct (drive_exec h i (measure s) s) as [cs' Hcs'].
      exists cs', r, (world (drive h i (measure s) s)).
      unfold initialImport. rewrite exec_app, Hex, Hcs', Hr. reflexivity.
Qed.

End PartialFailure.

(** The mock store keeps what it has accepted. *)
Lemma mock_holds_mono (site : gmap string doubles.wpServerMock)
    X (e : importer.ImpE X) (w : doubles.World) (a : store.Article) :
  doubles.holds w a -> doubles.holds (snd (doubles.mock_handler site X e w)) a.
Proof.
  unfold doubles.holds. destruct e; cbn; try tauto.
  - unfold doubles.serve. destruct (site !! url); cbn; tauto.
  - unfold doubles.mockStore_StoreArticles.
    destruct (doubles.storeErr (doubles.mstore w)); cbn; [tauto |].
    intros Ha. apply in_or_app. now left.
Qed.

Lemma mock_holds_store (site : gmap string doubles.wpServerMock)
    (l : list store.Article) (w w' : doubles.World) :
  doubles.mock_handler site _ (importer.StoreArticles l) w = (Val None, w') ->
  forall a, In a l -> doubles.holds w' a.
Proof.
  unfold doubles.holds. cbn. unfold doubles.mockStore_StoreArticles.
  destruct (doubles.storeErr (doubles.mstore w)); cbn; intros Heq; [discriminate |].
  injection Heq as <-. cbn. intros a Ha. apply in_or_app. now right.
Qed.

Lemma initialImport_bounded_and_exactly_once_witness :
  (1 <= 4)%Z
  /\ (exists s,
         @initial.exec examples.pagesDecoder _ (doubles.mock_handler examples.fourPages)
           examples.imp4 examples.allAtOnce
           (@initial.enter examples.pagesDecoder _
              (doubles.mock_handler examples.fourPages) examples.imp4 examples.fresh)
         = Some s
         /\ initial.main s = initial.Returned None
         /\ (Z.of_nat (length (errgroup.running (initial.grp s))) <= 4)%Z
         /\ map errgroup.f_id (errgroup.done (initial.grp s)) ≡ₚ pages.fanned_out 4
         /\ Forall (pages.once examples.imp4) (errgroup.done (initial.grp s))
         /\ length (doubles.storedArticles (doubles.mstore (initial.world s))) = 4%nat
         /\ doubles.pageRequests (initial.world s) = 4%Z)
  /\ match @initial.exec examples.pagesDecoder _ (doubles.mock_handler examples.fourPages)
             examples.imp4 [initial.Dispatch; initial.Dispatch; initial.Dispatch]
             (@initial.enter examples.pagesDecoder _
                (doubles.mock_handler examples.fourPages) examples.imp4 examples.fresh)
     with
     | Some s => length (errgroup.running (initial.grp s)) = 3%nat
     | None => False
     end.
Proof.
  split; [lia |]. split; [| vm_compute; reflexivity].
  eassert (Hrun : run (doubles.mock_handler examples.fourPages)
                    (@importer.vectorizePostsPage examples.pagesDecoder examples.imp4 1 100)
                    examples.fresh = (Val (Ok 4), _)) by (vm_compute; reflexivity).
  eassert (Hex : @initial.exec examples.pagesDecoder _
                   (doubles.mock_handler examples.fourPages)
                   examples.imp4 examples.allAtOnce
                   (@initial.enter examples.pagesDecoder _
                      (doubles.mock_handler examples.fourPages) examples.imp4 examples.fresh)
                 = Some _) by (vm_compute; reflexivity).
  eexists. split; [exact Hex |].
  destruct (@initialImport_bounded_and_exactly_once examples.pagesDecoder _
              (doubles.mock_handler examples.fourPages) examples.imp4
              4 4 examples.fresh _ examples.allAtOnce _
              ltac:(lia) eq_refl Hrun Hex) as (Hbound & Hreturned).
  split; [reflexivity |].
  split; [exact Hbound |].
  destruct (Hreturned None eq_refl) as (_ & _ & _ & Hperm & Honce & _).
  split; [exact Hperm |]. split; [exact Honce |].
  split; reflexivity.
Defined.

(** C2 as stated, with the documents of every page stored exactly once in
    every run, fails where a page fails: with five pages, a ceiling of 2 and
    page 3 answering 500, the import returns, page 3 has been fetched, and
    nothing was handed to the store for it. *)
Lemma initialImport_failed_page_is_not_stored :
  ~ (forall (D : importer.Decoder) (W : Type) (h : Handler importer.ImpE W)
            (i : importer.Importer) (C N : Z) (w w1 : W)
            (cs : list initial.Choice) (s : initial.State W),
        (1 <= C)%Z ->
        importer.maxGoroutines i = C ->
        run h (importer.vectorizePostsPage i 1 100) w = (Val (Ok N), w1) ->
        initial.exec h i cs (initial.enter h i w) = Some s ->
        (Z.of_nat (length (errgroup.running (initial.grp s))) <= C)%Z
        /\ (forall r,
               initial.main s = initial.Returned r ->
               importer.urls_fetched (trace h (importer.vectorizePostsPage i 1 100) w)
               = [importer.posts_url i 1 100]
               /\ (exists docs,
                      importer.batches_submitted
                        (trace h (importer.vectorizePostsPage i 1 100) w) = [docs]
                      /\ importer.documents_stored
                           (trace h (importer.vectorizePostsPage i 1 100) w) = docs)
               /\ errgroup.running (initial.grp s) = []
               /\ map errgroup.f_id (errgroup.done (initial.grp s)) ≡ₚ pages.fanned_out N
               /\ Forall (fun f =>
                            importer.urls_fetched (errgroup.f_log f)
                            = [importer.posts_url i (errgroup.f_id f) 100]
                            /\ exists docs,
                                 importer.batches_submitted (errgroup.f_log f) = [docs]
                                 /\ importer.documents_stored (errgroup.f_log f) = docs)
                         (errgroup.done (initial.grp s)))).
Proof.
  intros Hall.
  eassert (Hrun : run (doubles.mock_handler examples.fivePages)
                    (@importer.vectorizePostsPage examples.pagesDecoder examples.imp 1 100)
                    examples.fresh = (Val (Ok 5), _)) by (vm_compute; reflexivity).
  eassert (Hex : @initial.exec examples.pagesDecoder _
                   (doubles.mock_handler examples.fivePages)
                   examples.imp examples.interleaved
                   (@initial.enter examples.pagesDecoder _
                      (doubles.mock_handler examples.fivePages) examples.imp examples.fresh)
                 = Some _) by (vm_compute; reflexivity).
  destruct (Hall examples.pagesDecoder _ _ examples.imp 2%Z 5%Z _ _ _ _
              ltac:(lia) eq_refl Hrun Hex) as (_ & Hreturned).
  destruct (Hreturned _ eq_refl) as (_ & _ & _ & _ & Hstored).
  cbn [initial.grp errgroup.done] in Hstored.
  apply Forall_cons in Hstored. destruct Hstored as [(Hfetched & docs & Hb & _) _].
  vm_compute in Hb. discriminate Hb.
Qed.

Lemma initialImport_partial_failure_witness :
  exists w',
    @initial.initialImport examples.pagesDecoder _
      (doubles.mock_handler examples.fivePages) examples.imp
      examples.interleaved examples.fresh
    = Some (Some ("error during initial import: failed to fetch posts for page 3: "
                  +:+ "failed to fetch posts, status code: 500"), w')
    /\ Forall (doubles.holds w')
         [ examples.pageDocument 1; examples.pageDocument 2;
           examples.pageDocument 4; examples.pageDocument 5 ]
    /\ ~ doubles.holds w' (examples.pageDocument 3).
Proof.
  eassert (Hrun : run (doubles.mock_handler examples.fivePages)
                    (@importer.vectorizePostsPage examples.pagesDecoder examples.imp 1 100)
                    examples.fresh = (Val (Ok 5), _)) by (vm_compute; reflexivity).
  eassert (Himp : @initial.initialImport examples.pagesDecoder _
                    (doubles.mock_handler examples.fivePages)
                    examples.imp examples.interleaved examples.fresh
                  = Some (Some ("error during initial import: failed to fetch posts for page 3: "
                                +:+ "failed to fetch posts, status code: 500"), _))
    by (vm_compute; reflexivity).
  eexists. split; [exact Himp |].
  destruct (@initialImport_partial_failure examples.pagesDecoder _
              (doubles.mock_handler examples.fivePages) examples.imp doubles.holds
              (mock_holds_mono _) (mock_holds_store _) examples.fresh)
    as (_ & Hruns & _).
  destruct (Hruns 5 _ examples.interleaved _ _ Hrun Himp)
    as (s & Hex & _ & _ & _ & _ & _ & _ & _ & _ & Hk1 & Hk & _).
  vm_compute in Hex. injection Hex as <-.
  split.
  - cbn [initial.grp errgroup.done] in Hk.
    repeat match goal with
           | Hf : Forall _ (_ :: _) |- _ =>
               let Hd := fresh "Hd" in
               apply Forall_cons in Hf; destruct Hf as [Hd Hf]; cbv beta in Hd;
               cbn [errgroup.f_log] in Hd
           end.
    repeat (apply Forall_cons; split);
      try match goal with
          | Hd : pages.kept _ _ _ |- doubles.holds _ _ => apply Hd; vm_compute; tauto
          end.
    apply Forall_nil_2.
  - vm_compute; intuition discriminate.
Defined.

(** ** The tests of the repository, replayed on the model *)

(** TestVectorizePostsPage *)

Example vectorizePostsPage_Success :
  harness.vectorizePostsPageCase
    {| doubles.articles := [examples.article1; examples.article2];
       doubles.totalPages := 5; doubles.statusCode := http.StatusOK;
       doubles.invalidJSON := false; doubles.missingHeader := false |}
    {| doubles.embeddings := [doubles.bytes_of "embedding1"; doubles.bytes_of "embedding2"];
       doubles.err := None |}
    examples.emptyStore
  = (Val (Ok 5),
     [ {| store.Title := "Test Article 1"; store.Link := "https://example.com/article1";
          store.Embedding := doubles.bytes_of "embedding1" |};
       {| store.Title := "Test Article 2"; store.Link := "https://example.com/article2";
          store.Embedding := doubles.bytes_of "embedding2" |} ]).
Proof. vm_compute. reflexivity. Qed.

Example vectorizePostsPage_HTTPError :
  let '(r, stored) :=
    harness.vectorizePostsPageCase
      {| doubles.articles := []; doubles.totalPages := 1;
         doubles.statusCode := http.StatusInternalServerError;
         doubles.invalidJSON := false; doubles.missingHeader := false |}
      examples.plainVectorizer examples.emptyStore in
  harness.failed_with "failed to fetch posts" r = true /\ stored = [].
Proof. vm_compute. split; reflexivity. Qed.

Example vectorizePostsPage_VectorizerError :
  let '(r, stored) :=
    harness.vectorizePostsPageCase
      {| doubles.articles := [harness.testArticle]; doubles.totalPages := 1;
         doubles.statusCode := http.StatusOK;
         doubles.invalidJSON := false; doubles.missingHeader := false |}
      {| doubles.embeddings := []; doubles.err := Some "vectorization failed" |}
      examples.emptyStore in
  harness.failed_with "failed to vectorize articles" r = true /\ stored = [].
Proof. vm_compute. split; reflexivity. Qed.

Example vectorizePostsPage_StoreError :
  let '(r, stored) :=
    harness.vectorizePostsPageCase
      {| doubles.articles := [harness.testArticle]; doubles.totalPages := 1;
         doubles.statusCode := http.StatusOK;
         doubles.invalidJSON := false; doubles.missingHeader := false |}
      {| doubles.embeddings := [doubles.bytes_of "embedding"]; doubles.err := None |}
      {| doubles.storeErr := Some "database connection failed";
         doubles.indexErr := None; doubles.storedArticles := [] |} in
  harness.failed_with "failed to store articles" r = true /\ stored = [].
Proof. vm_compute. split; reflexivity. Qed.

Example vectorizePostsPage_EmptyResponse :
  harness.vectorizePostsPageCase examples.emptyResponse
    examples.plainVectorizer examples.emptyStore
  = (Val (Ok 0), []).
Proof. vm_compute. reflexivity. Qed.

Example vectorizePostsPage_InvalidJSON :
  let '(r, stored) :=
    harness.vectorizePostsPageCase
      {| doubles.articles := []; doubles.totalPages := 1;
         doubles.statusCode := http.StatusOK;
         doubles.invalidJSON := true; doubles.missingHeader := false |}
      examples.plainVectorizer examples.emptyStore in
  harness.failed_with "failed to fetch posts" r = true /\ stored = [].
Proof. vm_compute. split; reflexivity. Qed.

Example vectorizePostsPage_MissingPagesHeader :
  let '(r, stored) :=
    harness.vectorizePostsPageCase examples.missingPagesHeader
      examples.plainVectorizer examples.emptyStore in
  harness.failed_with "failed to parse total pages" r = true /\ stored = [].
Proof. vm_compute. split; reflexivity. Qed.

(** TestInitialImport *)

Example initialImport_SuccessSinglePage :
  harness.initialImportCase
    {| doubles.articles := [examples.pageArticle 1; examples.pageArticle 2];
       doubles.totalPages := 1; doubles.statusCode := http.StatusOK;
       doubles.invalidJSON := false; doubles.missingHeader := false |}
    {| doubles.embeddings := [doubles.bytes_of "emb1"; doubles.bytes_of "emb2"];
       doubles.err := None |} 5
  = (Some None, 2%nat, 1).
Proof. vm_compute. reflexivity. Qed.

Example initialImport_SuccessMultiplePages :
  harness.initialImportCase (examples.okPage 3 1)
    {| doubles.embeddings := [doubles.bytes_of "emb1"]; doubles.err := None |} 1
  = (Some None, 3%nat, 3).
Proof. vm_compute. reflexivity. Qed.

Example initialImport_SuccessConcurrentPages :
  harness.initialImportCase (examples.okPage 4 1)
    {| doubles.embeddings := [doubles.bytes_of "emb1"]; doubles.err := None |} 4
  = (Some None, 4%nat, 4).
Proof. vm_compute. reflexivity. Qed.

(** TestHandleSearch *)

#[warnings="-inexact-float"]
Example handleSearch_Success :
  harness.handleSearchCase (harness.post "test query") examples.testVectorizer
    {| doubles.searchResults :=
         [ {| store.h_Title := "Result 1"; store.h_Link := "http://example.com/1";
              store.h_Score := 0.95%float |};
           {| store.h_Title := "Result 2"; store.h_Link := "http://example.com/2";
              store.h_Score := 0.85%float |} ];
       doubles.searchErr := None |}
  = Val {| retrieval.Code := 200; retrieval.ContentType := "application/json";
           retrieval.Payload := "{count:2,results:[Result 1,Result 2]}" |}.
Proof. vm_compute. reflexivity. Qed.

Example handleSearch_SuccessEmptyResults :
  harness.handleSearchCase (harness.post "no results query") examples.testVectorizer
    examples.noResults
  = Val {| retrieval.Code := 200; retrieval.ContentType := "application/json";
           retrieval.Payload := "{count:0,results:[]}" |}.
Proof. vm_compute. reflexivity. Qed.

Example handleSearch_MethodNotAllowed :
  harness.handleSearchCase
    {| retrieval.Method := http.MethodGet;
       retrieval.Body := retrieval.Body (harness.post "test") |}
    examples.testVectorizer examples.noResults
  = Val (retrieval.http_Error "Method not allowed" 405).
Proof. vm_compute. reflexivity. Qed.

Example handleSearch_InvalidRequestBody :
  harness.handleSearchCase
    {| retrieval.Method := http.MethodPost; retrieval.Body := "invalid json" |}
    examples.testVectorizer examples.noResults
  = Val (retrieval.http_Error "Invalid request body" 400).
Proof. vm_compute. reflexivity. Qed.

Example handleSearch_VectorizerError :
  harness.handleSearchCase (harness.post "test query")
    {| doubles.embedding := []; doubles.vErr := Some "vectorization failed" |}
    examples.noResults
  = Val (retrieval.http_Error "Failed to generate query embedding" 500).
Proof. vm_compute. reflexivity. Qed.

Example handleSearch_VectorSearchError :
  harness.handleSearchCase (harness.post "test query") examples.testVectorizer
    {| doubles.searchResults := []; doubles.searchErr := Some "search failed" |}
  = Val (retrieval.http_Error "Vector search failed" 500).
Proof. vm_compute. reflexivity. Qed.

Example handleSearch_EmptyQuery :
  harness.handleSearchCase (harness.post "") examples.testVectorizer examples.noResults
  = Val {| retrieval.Code := 200; retrieval.ContentType := "application/json";
           retrieval.Payload := "{count:0,results:[]}" |}.
Proof. vm_compute. reflexivity. Qed.

(** * More properties *)

(** ** More on the embedding client *)

Section VectorizationMore.
Context `{vectorization.Codec} {W : Type}.
Import vectorization.
Variable h : Handler HttpE W.
Variable c : Client.

(** The decoding loop stops at the first embedding that does not decode, or
    decodes to nothing, and names its index. *)
Lemma decodeEmbeddings_first_bad (good : list EmbeddingData) :
  forall (n : nat) (bad : EmbeddingData) (rest : list EmbeddingData)
         (embeddings : list bytes),
    Forall (fun d => exists b, base64_DecodeString (Embedding d) = Ok b /\ b <> []) good ->
    (forall e,
        base64_DecodeString (Embedding bad) = Err e ->
        decodeEmbeddings n (good ++ bad :: rest) embeddings
        = Err ("failed to decode embedding bytes at index "
               +:+ itoa (Z.of_nat (n + length good)) +:+ ": " +:+ e))
    /\ (base64_DecodeString (Embedding bad) = Ok [] ->
        decodeEmbeddings n (good ++ bad :: rest) embeddings
        = Err ("received empty embedding at index "
               +:+ itoa (Z.of_nat (n + length good)) +:+ " from vectorizer")).
Proof.
  induction good as [|d good IH]; intros n bad rest embeddings Hgood.
  - cbn [app length decodeEmbeddings]. rewrite Nat.add_0_r.
    split; [intros e -> | intros ->]; reflexivity.
  - apply Forall_cons in Hgood. destruct Hgood as [(b & Hb & Hne) Hgood].
    cbn [app length decodeEmbeddings]. rewrite Hb.
    destruct b as [|b0 b]; [now destruct Hne |].
    cbn [length Nat.eqb].
    replace (n + S (length good))%nat with (S n + length good)%nat by lia.
    apply IH. exact Hgood.
Qed.



(** X2: when the service answers with the right number of embeddings, the
    first of them that is not base64, or that decodes to no byte at all,
    fails the whole call, with its index in the error: no embedding is
    returned for the texts before it. *)
Theorem VectorizeBatch_names_first_bad_embedding
    (texts : list string) (jsonData : string) (resp : http.Response)
    (good rest : list EmbeddingData) (bad : EmbeddingData) (w w' : W) :
  json_Marshal texts = Ok jsonData ->
  h _ (Post (baseURL c +:+ "/embed") "application/json" jsonData) w = (Val (Ok resp), w') ->
  http.StatusCode resp = http.StatusOK ->
  http.ReadErr resp = None ->
  json_Unmarshal (http.Body resp) = Ok {| Embeddings := good ++ bad :: rest |} ->
  length texts = length (good ++ bad :: rest) ->
  Forall (fun d => exists b, base64_DecodeString (Embedding d) = Ok b /\ b <> []) good ->
  (forall e,
      base64_DecodeString (Embedding bad) = Err e ->
      run h (VectorizeBatch c texts) w
      = (Val (Err ("failed to decode embedding bytes at index "
                   +:+ itoa (Z.of_nat (length good)) +:+ ": " +:+ e)), w'))
  /\ (base64_DecodeString (Embedding bad) = Ok [] ->
      run h (VectorizeBatch c texts) w
      = (Val (Err ("received empty embedding at index "
                   +:+ itoa (Z.of_nat (length good)) +:+ " from vectorizer")), w')).
Proof.
  intros Hm Hh Hs Hr Hu Hl Hgood.
  assert (Hrun : run h (VectorizeBatch c texts) w
                 = (Val (decodeEmbeddings 0 (good ++ bad :: rest)
                           (replicate (length (good ++ bad :: rest)) [])), w')).
  { unfold VectorizeBatch.
    destruct texts as [|t texts].
    { rewrite length_app in Hl. simpl in Hl. lia. }
    cbn [length Nat.eqb]. rewrite Hm. cbn [bind trigger run]. rewrite Hh.
    cbn [bind]. rewrite Hs, Hr, Hu. cbn [negb Z.eqb Embeddings].
    change (http.StatusOK =? http.StatusOK)%Z with true. cbn [negb].
    cbn [length] in Hl. rewrite <- Hl, Nat.eqb_refl. reflexivity. }
  rewrite Hrun.
  destruct (decodeEmbeddings_first_bad good 0 bad rest
              (replicate (length (good ++ bad :: rest)) []) Hgood) as [Hdec Hemp].
  split.
  - intros e He. now rewrite (Hdec e He).
  - intros He. now rewrite (Hemp He).
Qed.

End VectorizationMore.

Lemma VectorizeBatch_names_first_bad_embedding_witness :
  run (doubles.embed_service (fun _ => Ok (doubles.ok_response "aGk=,a")))
      (@vectorization.VectorizeBatch doubles.wire_codec examples.client ["one"; "two"]) []
  = (Val (Err ("failed to decode embedding bytes at index 1: illegal base64 data")),
     ["one;two"])
  /\ run (doubles.embed_service (fun _ => Ok (doubles.ok_response "aGk=,")))
         (@vectorization.VectorizeBatch doubles.wire_codec examples.client ["one"; "two"]) []
     = (Val (Err "received empty embedding at index 1 from vectorizer"), ["one;two"]).
Proof.
  split.
  - apply (proj1 (@VectorizeBatch_names_first_bad_embedding doubles.wire_codec _
                    (doubles.embed_service (fun _ => Ok (doubles.ok_response "aGk=,a")))
                    examples.client ["one"; "two"] "one;two"
                    (doubles.ok_response "aGk=,a")
                    [ {| vectorization.Embedding := "aGk="; vectorization.Dimension := 0 |} ]
                    []
                    {| vectorization.Embedding := "a"; vectorization.Dimension := 0 |}
                    [] ["one;two"]
                    eq_refl eq_refl eq_refl eq_refl eq_refl eq_refl
                    ltac:(repeat constructor; eexists; split;
                          [vm_compute; reflexivity | discriminate]))
             base64.illegal eq_refl).
  - apply (proj2 (@VectorizeBatch_names_first_bad_embedding doubles.wire_codec _
                    (doubles.embed_service (fun _ => Ok (doubles.ok_response "aGk=,")))
                    examples.client ["one"; "two"] "one;two"
                    (doubles.ok_response "aGk=,")
                    [ {| vectorization.Embedding := "aGk="; vectorization.Dimension := 0 |} ]
                    []
                    {| vectorization.Embedding := ""; vectorization.Dimension := 0 |}
                    [] ["one;two"]
                    eq_refl eq_refl eq_refl eq_refl eq_refl eq_refl
                    ltac:(repeat constructor; eexists; split;
                          [vm_compute; reflexivity | discriminate]))
             eq_refl).
Defined.

(** ** More on the store client *)

Section StoreMore.
Import store.

(** The command [StoreArticles] queues for an article. *)
Local Abbreviation hsetOf :=
  (fun a : Article =>
     {| key := ArticlePrefix +:+ Title a;
        fields := <["title" := VString (Title a)]>
                  (<["link" := VString (Link a)]>
                  (<["embedding" := VBytes (Embedding a)]> ∅)) |}).

Lemma key_inj (s t : string) : ArticlePrefix +:+ s = ArticlePrefix +:+ t -> s = t.
Proof. unfold ArticlePrefix. cbn. intros Heq. now inversion Heq. Qed.

Lemma run_StoreArticles_redis (articles : list Article) (db : Redis) :
  run redis_handler (StoreArticles articles) db
  = (Val None, fold_left hset (map hsetOf articles) db).
Proof.
  unfold StoreArticles. destruct articles as [|a l]; [reflexivity |].
  cbn [length Nat.eqb bind trigger run redis_handler].
  now rewrite StoreArticles_pipeline.
Qed.

Lemma hset_other (db : Redis) (c : HSetCmd) (k : string) :
  k <> key c -> hset db c !! k = db !! k.
Proof. intros Hne. unfold hset. now rewrite lookup_insert_ne. Qed.

Lemma fold_hset_other (cmds : list HSetCmd) : forall (db : Redis) (k : string),
  (forall c, In c cmds -> k <> key c) ->
  fold_left hset cmds db !! k = db !! k.
Proof.
  induction cmds as [|c cmds IH]; intros db k Hk; [reflexivity |].
  cbn [fold_left]. rewrite IH by (intros c' Hc'; apply Hk; now right).
  apply hset_other. apply Hk. now left.
Qed.

(** X3: [StoreArticles] goes to the server once for a batch: one pipeline,
    which holds one [HSET] per article, in the order of the batch, each under
    the key [article:] followed by the title; and for an empty batch it does
    not go to the server at all. *)
Theorem StoreArticles_sends_one_pipeline {W : Type} (h : Handler RedisE W)
    (articles : list Article) (w : W) :
  trace h (StoreArticles articles) w
  = match articles with
    | [] => []
    | _ :: _ =>
        match h _ (PipelineExec (map hsetOf articles)) w with
        | (Val r, _) => [entry (PipelineExec (map hsetOf articles)) r]
        | (Panicked _, _) => []
        end
    end.
Proof.
  unfold StoreArticles. destruct articles as [|a l]; [reflexivity |].
  cbn [length Nat.eqb bind trigger trace]. rewrite StoreArticles_pipeline.
  destruct (h _ _ w) as [[[e|]|m] w1]; reflexivity.
Qed.

Lemma fold_hset_last (l1 l2 : list Article) (a : Article) (db : Redis) :
  (forall b, In b l2 -> Title b <> Title a) ->
  exists hash,
    fold_left hset (map hsetOf (l1 ++ a :: l2)) db !! (ArticlePrefix +:+ Title a)
    = Some hash
    /\ hash !! "title" = Some (VString (Title a))
    /\ hash !! "link" = Some (VString (Link a))
    /\ hash !! "embedding" = Some (VBytes (Embedding a)).
Proof.
  intros Hlast.
  rewrite map_app, fold_left_app. cbn [map fold_left].
  set (db1 := fold_left hset (map hsetOf l1) db).
  rewrite fold_hset_other.
  2:{ intros c Hc. apply in_map_iff in Hc. destruct Hc as (b & <- & Hb).
      cbn [key]. intros Heq. apply key_inj in Heq. now apply (Hlast b Hb). }
  unfold hset. cbn [key fields]. rewrite lookup_insert_eq.
  eexists. split; [reflexivity |].
  repeat split; apply lookup_union_Some_l; reflexivity.
Qed.

(** X4: on a server that executes the pipeline, the hash of an article is
    found under its key after [StoreArticles], with its title, its link and
    its embedding; when several articles of the batch have the same title,
    the last of them is the one found. *)
Theorem StoreArticles_last_write_wins
    (l1 l2 : list Article) (a : Article) (db : Redis) :
  (forall b, In b l2 -> Title b <> Title a) ->
  exists hash,
    snd (run redis_handler (StoreArticles (l1 ++ a :: l2)) db)
      !! (ArticlePrefix +:+ Title a) = Some hash
    /\ hash !! "title" = Some (VString (Title a))
    /\ hash !! "link" = Some (VString (Link a))
    /\ hash !! "embedding" = Some (VBytes (Embedding a)).
Proof.
  intros Hlast. rewrite run_StoreArticles_redis. cbn [snd].
  now apply fold_hset_last.
Qed.

(** X5: [StoreArticles] leaves every key alone that is not the key of an
    article of the batch. *)
Theorem StoreArticles_touches_only_its_keys
    (articles : list Article) (db : Redis) (k : string) :
  (forall a, In a articles -> k <> ArticlePrefix +:+ Title a) ->
  snd (run redis_handler (StoreArticles articles) db) !! k = db !! k.
Proof.
  intros Hk. rewrite run_StoreArticles_redis. cbn [snd].
  apply fold_hset_other. intros c Hc.
  apply in_map_iff in Hc. destruct Hc as (a & <- & Ha). now apply Hk.
Qed.

End StoreMore.

Lemma StoreArticles_last_write_wins_witness :
  exists hash,
    snd (run store.redis_handler
           (store.StoreArticles
              [ {| store.Title := "T"; store.Link := "old"; store.Embedding := [] |};
                {| store.Title := "T"; store.Link := "new"; store.Embedding := [] |};
                {| store.Title := "U"; store.Link := "u"; store.Embedding := [] |} ]) ∅)
      !! "article:T" = Some hash
    /\ hash !! "link" = Some (store.VString "new").
Proof.
  destruct (StoreArticles_last_write_wins
              [ {| store.Title := "T"; store.Link := "old"; store.Embedding := [] |} ]
              [ {| store.Title := "U"; store.Link := "u"; store.Embedding := [] |} ]
              {| store.Title := "T"; store.Link := "new"; store.Embedding := [] |} ∅)
    as (hash & Hk & _ & Hlink & _).
  { intros b [<- | []]. discriminate. }
  exists hash. split; [exact Hk | exact Hlink].
Defined.

Lemma StoreArticles_touches_only_its_keys_witness :
  snd (run store.redis_handler
         (store.StoreArticles
            [ {| store.Title := "T"; store.Link := "t"; store.Embedding := [] |} ])
         {[ "article:U" := ∅ ]}) !! "article:U"
  = ({[ "article:U" := ∅ ]} : store.Redis) !! "article:U".
Proof.
  apply StoreArticles_touches_only_its_keys.
  intros a [<- | []]. discriminate.
Defined.

(** ** The search index *)

Section IndexFacts.
Import ftcreate.

(** X6: against a server that refuses to create an index whose name is
    taken, [CreateVectorIndex] always returns [nil]; it changes nothing but
    the entry of its own index, and not even that when the index is already
    there, whatever its dimension: a second call, with any dimension, returns
    [nil] and leaves the server as the first call left it. *)
Theorem CreateVectorIndex_is_idempotent (dim dim' : Z) (ix : Indexes) :
  exists ix1,
    run ft_server (CreateVectorIndex dim) ix = (Val None, ix1)
    /\ ix1 !! store.IndexName
       = Some (default (options, schema dim) (ix !! store.IndexName))
    /\ (forall name, name <> store.IndexName -> ix1 !! name = ix !! name)
    /\ run ft_server (CreateVectorIndex dim') ix1 = (Val None, ix1).
Proof.
  unfold CreateVectorIndex. cbn [bind trigger run ft_server].
  destruct (ix !! store.IndexName) as [d|] eqn:Hix.
  - exists ix. cbn [bind run String.eqb]. split; [reflexivity |].
    split; [exact Hix |]. split; [reflexivity |].
    rewrite Hix. reflexivity.
  - eexists. cbn [bind run]. split; [reflexivity |].
    split; [apply lookup_insert_eq |].
    split; [intros name Hne; now apply lookup_insert_ne |].
    rewrite lookup_insert_eq. reflexivity.
Qed.

(** X7: every hash [StoreArticles] writes falls under the index
    [CreateVectorIndex] asks for: the index is on hashes, the key of the
    hash starts with a prefix of the index, and the hash has every field of
    the schema, the vector as bytes and the texts as strings. *)
Theorem stored_articles_fall_under_the_index (dim : Z) (articles : list store.Article) :
  OnHash options = true
  /\ Forall
       (fun c =>
          Exists (fun p => String.prefix p (store.key c) = true) (Prefix options)
          /\ Forall (fun f => exists v, store.fields c !! FieldName f = Some v
                                        /\ fits (FieldType f) v = true)
                    (schema dim))
       (fold_left store.queueHSet articles []).
Proof.
  split; [reflexivity |].
  rewrite StoreArticles_pipeline. apply Forall_forall. intros c Hc.
  apply list_elem_of_In, in_map_iff in Hc. destruct Hc as (a & <- & _).
  split.
  - left. cbn [store.key]. apply prefix_append.
  - repeat constructor; eexists; (split; [reflexivity | reflexivity]).
Qed.

End IndexFacts.

(** ** The vector search *)

Section SearchMore.
Context `{ftsearch.Scanner} {W : Type}.
Import ftsearch.
Variable h : Handler SearchE W.

(** The hit [VectorSearch] makes of a document. *)
Local Abbreviation hitOf :=
  (fun doc : Document =>
     {| store.h_Title := default "" (Fields doc !! "title");
        store.h_Link := default "" (Fields doc !! "link");
        store.h_Score :=
          match Fields doc !! "vector_score" with
          | Some scoreVal =>
              if String.eqb scoreVal "" then 0%float
              else match Sscanf_f scoreVal with
                   | Ok f => f
                   | Err _ => 0%float
                   end
          | None => 0%float
          end |}).

Lemma hits_are_mapped (docs : list Document) :
  fold_left appendHit docs [] = map hitOf docs.
Proof.
  enough (forall acc, fold_left appendHit docs acc = acc ++ map hitOf docs)
    as Hgen by apply (Hgen []).
  induction docs as [|d docs IH]; intros acc; cbn [fold_left map].
  - now rewrite app_nil_r.
  - rewrite IH. unfold appendHit, field. rewrite <- app_assoc. cbn [app].
    do 3 f_equal.
    destruct (Fields d !! "vector_score") as [s|]; cbn [default]; [| reflexivity].
    unfold id. destruct (String.eqb s ""); reflexivity.
Qed.

Lemma run_VectorSearch (queryEmbedding : bytes) (k : Z) (w : W) :
  run h (VectorSearch queryEmbedding k) w
  = match h _ (FTSearchWithArgs store.IndexName (knnQuery k)
                 (searchOptions queryEmbedding)) w with
    | (Val cmd, w') =>
        (Val match err cmd with
             | Some e => Err ("vector search failed: " +:+ e)
             | None => Ok (map hitOf (Docs (val cmd)))
             end, w')
    | (Panicked m, w') => (Panicked m, w')
    end.
Proof.
  unfold VectorSearch. cbn [bind trigger run].
  destruct (h _ _ w) as [[cmd|m] w']; [| reflexivity].
  unfold Err_, Result. cbn [bind].
  destruct (err cmd) as [e|]; [reflexivity |].
  cbn [run]. now rewrite hits_are_mapped.
Qed.

(** X8: when the search command has no error, [VectorSearch] succeeds, with
    one hit per document of the answer, in the order of the answer: title and
    link are the fields of the document (the empty string for a missing
    field), and a score that is missing, empty or not a number is 0, not an
    error.  When the command has an error, that error is returned as
    "vector search failed"; the second check of the error, on
    [searchCmd.Result()], never fires. *)
Theorem VectorSearch_one_hit_per_document
    (queryEmbedding : bytes) (k : Z) (cmd : FTSearchCmd) (w w' : W) :
  h _ (FTSearchWithArgs store.IndexName (knnQuery k) (searchOptions queryEmbedding)) w
  = (Val cmd, w') ->
  (err cmd = None ->
   run h (VectorSearch queryEmbedding k) w = (Val (Ok (map hitOf (Docs (val cmd)))), w'))
  /\ (forall e,
         err cmd = Some e ->
         run h (VectorSearch queryEmbedding k) w
         = (Val (Err ("vector search failed: " +:+ e)), w'))
  /\ (forall e w'',
         run h (VectorSearch queryEmbedding k) w
         <> (Val (Err ("failed to get search results: " +:+ e)), w'')).
Proof.
  intros Hh. rewrite run_VectorSearch, Hh.
  split; [intros ->; reflexivity |].
  split; [intros e ->; reflexivity |].
  intros e w''. destruct (err cmd) as [e'|]; intros Heq; [| discriminate].
  injection Heq as Heq _. discriminate Heq.
Qed.

End SearchMore.

Lemma VectorSearch_one_hit_per_document_witness :
  run (@situations.search_server unit situations.threeDocs)
      (@ftsearch.VectorSearch situations.table_scanner (doubles.bytes_of "query") 10) tt
  = (Val (Ok [ {| store.h_Title := "A"; store.h_Link := "http://a";
                  store.h_Score := 0.5%float |};
               {| store.h_Title := "B"; store.h_Link := ""; store.h_Score := 0%float |};
               {| store.h_Title := "C"; store.h_Link := "http://c";
                  store.h_Score := 0%float |} ]), tt).
Proof.
  apply (proj1 (@VectorSearch_one_hit_per_document situations.table_scanner unit
                  (situations.search_server situations.threeDocs)
                  (doubles.bytes_of "query") 10 situations.threeDocs tt tt eq_refl)
           eq_refl).
Defined.

(** ** More on the search handler *)

Section HandlerMore.
Context `{retrieval.Json} {W : Type}.
Import retrieval.
Variable h : Handler RetE W.

Local Abbreviation resultOf :=
  (fun sr : store.SearchHit =>
     {| Title := store.h_Title sr; URL := store.h_Link sr; Score := store.h_Score sr |}).

Lemma run_handleSearch (r : Request) (w : W) :
  run h (handleSearch r) w
  = if negb (String.eqb (Method r) http.MethodPost)
    then (Val (http_Error "Method not allowed" http.StatusMethodNotAllowed), w)
    else
      match json_Decode (Body r) with
      | Err _ => (Val (http_Error "Invalid request body" http.StatusBadRequest), w)
      | Ok req =>
          match h _ (Vectorize (Query req)) w with
          | (Panicked m, w1) => (Panicked m, w1)
          | (Val (Err _), w1) =>
              (Val (http_Error "Failed to generate query embedding"
                      http.StatusInternalServerError), w1)
          | (Val (Ok emb), w1) =>
              match h _ (VectorSearch emb 10) w1 with
              | (Panicked m, w2) => (Panicked m, w2)
              | (Val (Err _), w2) =>
                  (Val (http_Error "Vector search failed"
                          http.StatusInternalServerError), w2)
              | (Val (Ok hits), w2) =>
                  (Val match json_Encode {| Results := map resultOf hits;
                                            Count := Z.of_nat (length hits) |} with
                       | Err _ => http_Error "Failed to encode response"
                                    http.StatusInternalServerError
                       | Ok body => {| Code := http.StatusOK;
                                       ContentType := "application/json";
                                       Payload := body |}
                       end, w2)
              end
          end
      end.
Proof.
  unfold handleSearch.
  destruct (negb _); [reflexivity |].
  destruct (json_Decode (Body r)) as [req|e]; [| reflexivity].
  cbn [bind trigger run].
  destruct (h _ (Vectorize (Query req)) w) as [[[emb|e]|m] w1]; try reflexivity.
  cbn [bind run].
  destruct (h _ (VectorSearch emb 10) w1) as [[[hits|e]|m] w2]; try reflexivity.
  cbn zeta. rewrite results_are_mapped, length_map.
  destruct (json_Encode _); reflexivity.
Qed.

Lemma trace_handleSearch (r : Request) (w : W) :
  trace h (handleSearch r) w
  = if negb (String.eqb (Method r) http.MethodPost) then []
    else
      match json_Decode (Body r) with
      | Err _ => []
      | Ok req =>
          match h _ (Vectorize (Query req)) w with
          | (Panicked _, _) => []
          | (Val (Err e), _) => [entry (Vectorize (Query req)) (Err e)]
          | (Val (Ok emb), w1) =>
              entry (Vectorize (Query req)) (Ok emb)
              :: match h _ (VectorSearch emb 10) w1 with
                 | (Panicked _, _) => []
                 | (Val s, _) => [entry (VectorSearch emb 10) s]
                 end
          end
      end.
Proof.
  unfold handleSearch.
  destruct (negb _); [reflexivity |].
  destruct (json_Decode (Body r)) as [req|e]; [| reflexivity].
  cbn [bind trigger trace].
  destruct (h _ (Vectorize (Query req)) w) as [[[emb|e]|m] w1]; try reflexivity.
  cbn [bind trace]. f_equal.
  destruct (h _ (VectorSearch emb 10) w1) as [[[hits|e]|m] w2]; try reflexivity.
  cbn zeta. destruct (json_Encode _); reflexivity.
Qed.

(** X9: a reply with status 200 has gone all the way: the request was a
    POST whose body decoded, the vectorizer embedded its query, the store was
    asked for the 10 nearest neighbours of that embedding, and the payload is
    the encoding of one result per hit, in the order of the store, with the
    link of the hit as its URL and the number of hits as the count. *)
Theorem handleSearch_ok_reply (r : Request) (rep : Reply) (w w' : W) :
  run h (handleSearch r) w = (Val rep, w') ->
  Code rep = http.StatusOK ->
  Method r = http.MethodPost
  /\ ContentType rep = "application/json"
  /\ exists req emb hits w1,
       json_Decode (Body r) = Ok req
       /\ h _ (Vectorize (Query req)) w = (Val (Ok emb), w1)
       /\ h _ (VectorSearch emb 10) w1 = (Val (Ok hits), w')
       /\ json_Encode {| Results := map resultOf hits;
                         Count := Z.of_nat (length hits) |} = Ok (Payload rep)
       /\ trace h (handleSearch r) w
          = [ entry (Vectorize (Query req)) (Ok emb);
              entry (VectorSearch emb 10) (Ok hits) ].
Proof.
  rewrite run_handleSearch, trace_handleSearch.
  destruct (String.eqb_spec (Method r) http.MethodPost) as [Hm|Hm]; cbn [negb].
  2:{ intros Hrun Hc. injection Hrun as <- _. discriminate Hc. }
  destruct (json_Decode (Body r)) as [req|e] eqn:Hd.
  2:{ intros Hrun Hc. injection Hrun as <- _. discriminate Hc. }
  destruct (h _ (Vectorize (Query req)) w) as [[[emb|e]|m] w1] eqn:Hv.
  2:{ intros Hrun Hc. injection Hrun as <- _. discriminate Hc. }
  2:{ intros Hrun. discriminate Hrun. }
  destruct (h _ (VectorSearch emb 10) w1) as [[[hits|e]|m] w2] eqn:Hs.
  2:{ intros Hrun Hc. injection Hrun as <- _. discriminate Hc. }
  2:{ intros Hrun. discriminate Hrun. }
  destruct (json_Encode _) as [body|e] eqn:He.
  2:{ intros Hrun Hc. injection Hrun as <- _. discriminate Hc. }
  intros Hrun _. injection Hrun as <- <-.
  split; [exact Hm |]. split; [reflexivity |].
  exists req, emb, hits, w1. repeat split; assumption.
Qed.

(** X10: a reply with another status is one of five fixed replies, each
    with the status 405, 400 or 500 and a plain text that says which stage
    failed and nothing of the error that made it fail; the store is asked
    only once the vectorizer has succeeded, and neither is asked for a
    request that is not a POST or whose body does not decode. *)
Theorem handleSearch_error_reply_is_generic (r : Request) (rep : Reply) (w w' : W) :
  run h (handleSearch r) w = (Val rep, w') ->
  Code rep <> http.StatusOK ->
  (rep = http_Error "Method not allowed" http.StatusMethodNotAllowed
   /\ Method r <> http.MethodPost
   /\ trace h (handleSearch r) w = [])
  \/ (rep = http_Error "Invalid request body" http.StatusBadRequest
      /\ (exists e, json_Decode (Body r) = Err e)
      /\ trace h (handleSearch r) w = [])
  \/ (rep = http_Error "Failed to generate query embedding" http.StatusInternalServerError
      /\ exists query e, trace h (handleSearch r) w = [entry (Vectorize query) (Err e)])
  \/ (rep = http_Error "Vector search failed" http.StatusInternalServerError
      /\ exists query emb e,
           trace h (handleSearch r) w
           = [entry (Vectorize query) (Ok emb); entry (VectorSearch emb 10) (Err e)])
  \/ (rep = http_Error "Failed to encode response" http.StatusInternalServerError
      /\ exists query emb hits,
           trace h (handleSearch r) w
           = [entry (Vectorize query) (Ok emb); entry (VectorSearch emb 10) (Ok hits)]).
Proof.
  rewrite run_handleSearch, trace_handleSearch.
  destruct (String.eqb_spec (Method r) http.MethodPost) as [Hm|Hm]; cbn [negb].
  2:{ intros Hrun _. injection Hrun as <- _. left. repeat split. exact Hm. }
  destruct (json_Decode (Body r)) as [req|e] eqn:Hd.
  2:{ intros Hrun _. injection Hrun as <- _. right; left. repeat split. now exists e. }
  destruct (h _ (Vectorize (Query req)) w) as [[[emb|e]|m] w1].
  2:{ intros Hrun _. injection Hrun as <- _. right; right; left.
      split; [reflexivity |]. now exists (Query req), e. }
  2:{ intros Hrun. discriminate Hrun. }
  destruct (h _ (VectorSearch emb 10) w1) as [[[hits|e]|m] w2].
  2:{ intros Hrun _. injection Hrun as <- _. right; right; right; left.
      split; [reflexivity |]. now exists (Query req), emb, e. }
  2:{ intros Hrun. discriminate Hrun. }
  destruct (json_Encode _) as [body|e] eqn:He.
  { intros Hrun Hc. injection Hrun as <- _. now destruct Hc. }
  intros Hrun _. injection Hrun as <- _. right; right; right; right.
  split; [reflexivity |]. now exists (Query req), emb, hits.
Qed.

End HandlerMore.

Lemma handleSearch_ok_reply_witness :
  exists rep,
    run (doubles.search_handler examples.testVectorizer
           {| doubles.searchResults :=
                [ {| store.h_Title := "Article 1"; store.h_Link := "http://example.com/1";
                     store.h_Score := 0.5%float |};
                  {| store.h_Title := "Article 2"; store.h_Link := "http://example.com/2";
                     store.h_Score := 0.25%float |} ];
              doubles.searchErr := None |})
        (@retrieval.handleSearch doubles.query_json (harness.post "test query")) tt
    = (Val rep, tt)
    /\ retrieval.Payload rep = "{count:2,results:[Article 1,Article 2]}"
    /\ retrieval.ContentType rep = "application/json".
Proof.
  eassert (Hrun : run (doubles.search_handler examples.testVectorizer
                         {| doubles.searchResults :=
                              [ {| store.h_Title := "Article 1";
                                   store.h_Link := "http://example.com/1";
                                   store.h_Score := 0.5%float |};
                                {| store.h_Title := "Article 2";
                                   store.h_Link := "http://example.com/2";
                                   store.h_Score := 0.25%float |} ];
                            doubles.searchErr := None |})
                      (@retrieval.handleSearch doubles.query_json
                         (harness.post "test query")) tt
                  = (Val _, tt)) by (vm_compute; reflexivity).
  eexists. split; [exact Hrun |].
  split; [reflexivity |].
  exact (proj1 (proj2 (handleSearch_ok_reply _ _ _ _ _ Hrun eq_refl))).
Defined.

Lemma handleSearch_error_reply_is_generic_witness :
  exists query emb e,
    trace (doubles.search_handler examples.testVectorizer
             {| doubles.searchResults := [];
                doubles.searchErr := Some "redis connection failed" |})
          (@retrieval.handleSearch doubles.query_json (harness.post "test query")) tt
    = [ entry (retrieval.Vectorize query) (Ok emb);
        entry (retrieval.VectorSearch emb 10) (Err e) ].
Proof.
  destruct (@handleSearch_error_reply_is_generic doubles.query_json unit
              (doubles.search_handler examples.testVectorizer
                 {| doubles.searchResults := [];
                    doubles.searchErr := Some "redis connection failed" |})
              (harness.post "test query")
              (retrieval.http_Error "Vector search failed" http.StatusInternalServerError)
              tt tt eq_refl ltac:(discriminate))
    as [[Hrep _] | [[Hrep _] | [[Hrep _] | [[_ Ht] | [Hrep _]]]]];
    try discriminate Hrep.
  exact Ht.
Defined.

(** ** The retrieval service as it is wired *)

Section ProductionSearch.
Context `{vectorization.Codec} `{retrieval.Json} `{ftsearch.Scanner} {W : Type}.
Import retrieval.
Variable embed : Handler vectorization.HttpE W.
Variable redis : Handler ftsearch.SearchE W.
Variable c : vectorization.Client.

(** X11: in the retrieval service as [main] wires it, a query the embedding
    client has embedded leads to one search command on Redis: the 10 nearest
    neighbours ([KNN 10]) of the vector bound to [$query_vec], which is the
    embedding of the query, on the index [gs_data], sorted by ascending
    distance.  The reply lists one result per document of the answer, in its
    order, or is the fixed reply "Vector search failed" when the command
    failed. *)
Theorem production_search_asks_for_ten_neighbours
    (r : Request) (req : SearchRequest) (emb : bytes)
    (cmd : ftsearch.FTSearchCmd) (w w1 w2 : W) :
  Method r = http.MethodPost ->
  json_Decode (Body r) = Ok req ->
  run embed (vectorization.Vectorize c (Query req)) w = (Val (Ok emb), w1) ->
  redis _ (ftsearch.FTSearchWithArgs "gs_data"
             "*=>[KNN 10 @embedding $query_vec AS vector_score]"
             {| ftsearch.SortBy :=
                  [ {| ftsearch.sb_FieldName := "vector_score"; ftsearch.Asc := true |} ];
                ftsearch.DialectVersion := 2;
                ftsearch.Params := {[ "query_vec" := store.VBytes emb ]};
                ftsearch.Return :=
                  [ {| ftsearch.r_FieldName := "title" |};
                    {| ftsearch.r_FieldName := "link" |};
                    {| ftsearch.r_FieldName := "vector_score" |} ] |}) w1
  = (Val cmd, w2) ->
  run (served.handler embed redis c) (handleSearch r) w
  = (Val match ftsearch.err cmd with
         | Some _ => http_Error "Vector search failed" http.StatusInternalServerError
         | None =>
             match json_Encode
                     {| Results :=
                          map (fun doc =>
                                 {| Title := default "" (ftsearch.Fields doc !! "title");
                                    URL := default "" (ftsearch.Fields doc !! "link");
                                    Score :=
                                      match ftsearch.Fields doc !! "vector_score" with
                                      | Some scoreVal =>
                                          if String.eqb scoreVal "" then 0%float
                                          else match ftsearch.Sscanf_f scoreVal with
                                               | Ok f => f
                                               | Err _ => 0%float
                                               end
                                      | None => 0%float
                                      end |})
                              (ftsearch.Docs (ftsearch.val cmd));
                        Count := Z.of_nat (length (ftsearch.Docs (ftsearch.val cmd))) |}
             with
             | Ok body => {| Code := http.StatusOK; ContentType := "application/json";
                             Payload := body |}
             | Err _ => http_Error "Failed to encode response"
                          http.StatusInternalServerError
             end
         end, w2).
Proof.
  intros Hm Hd Hv Hs.
  rewrite run_handleSearch, Hm, Hd. cbn [String.eqb Ascii.eqb Bool.eqb negb http.MethodPost].
  change (String.eqb http.MethodPost http.MethodPost) with true. cbn [negb].
  unfold served.handler at 1. cbn [wiring.retrieval_handler]. rewrite Hv.
  unfold served.handler at 1. cbn [wiring.retrieval_handler].
  rewrite run_VectorSearch.
  change (ftsearch.knnQuery 10) with "*=>[KNN 10 @embedding $query_vec AS vector_score]".
  unfold ftsearch.searchOptions. change store.IndexName with "gs_data".
  rewrite Hs.
  destruct (ftsearch.err cmd) as [e|]; [reflexivity |].
  rewrite !length_map, map_map. cbn [store.h_Title store.h_Link store.h_Score].
  destruct (json_Encode _); reflexivity.
Qed.

End ProductionSearch.

Lemma production_search_asks_for_ten_neighbours_witness :
  run (@served.handler doubles.wire_codec situations.table_scanner _
         examples.one_embedding (situations.search_server situations.threeDocs)
         examples.client)
      (@retrieval.handleSearch doubles.query_json (harness.post "test query")) []
  = (Val {| retrieval.Code := http.StatusOK;
            retrieval.ContentType := "application/json";
            retrieval.Payload := "{count:3,results:[A,B,C]}" |}, ["test query"]).
Proof.
  apply (@production_search_asks_for_ten_neighbours
           doubles.wire_codec doubles.query_json situations.table_scanner _
           examples.one_embedding (situations.search_server situations.threeDocs)
           examples.client (harness.post "test query")
           {| retrieval.Query := "test query" |} (doubles.bytes_of "hi")
           situations.threeDocs [] ["test query"] ["test query"]
           eq_refl eq_refl eq_refl eq_refl).
Defined.

(** ** More on one page of the import pipeline *)

Section PageMore.
Context `{importer.Decoder} {W : Type}.
Import importer.
Variable h : Handler ImpE W.
Variable i : Importer.

(** What [fetchPostsPage] makes of an answer of the site. *)
Local Abbreviation parsed :=
  (fun resp : http.Response =>
     match strconv.Atoi (http.Header_Get (http.Hdr resp) "X-WP-TotalPages") with
     | Err e => Err ("failed to parse total pages: " +:+ e)
     | Ok nbPages =>
         if negb (http.StatusCode resp =? http.StatusOK)%Z
         then Err ("failed to fetch posts, status code: " +:+ itoa (http.StatusCode resp))
         else match json_Decode resp with
              | Err e => Err ("failed to decode response: " +:+ e)
              | Ok posts => Ok (posts, nbPages)
              end
     end).

(** A call of [vectorizePostsPage], stage by stage: its result, the world
    it leaves and its history. *)
Lemma vectorizePostsPage_stages (page hitsPerPage : Z) (w : W) :
  (run h (vectorizePostsPage i page hitsPerPage) w,
   trace h (vectorizePostsPage i page hitsPerPage) w)
  = let get := HttpGet (posts_url i page hitsPerPage) in
    match h _ get w with
    | (Panicked m, w0) => ((Panicked m, w0), [])
    | (Val (Err e), w0) =>
        ((Val (Err ("failed to fetch posts for page " +:+ itoa page +:+ ": "
                    +:+ ("failed to create request: " +:+ e))), w0),
         [entry get (Err e)])
    | (Val (Ok resp), w0) =>
        match parsed resp with
        | Err e =>
            ((Val (Err ("failed to fetch posts for page " +:+ itoa page +:+ ": " +:+ e)), w0),
             [entry get (Ok resp)])
        | Ok (posts, nbPages) =>
            let embed := VectorizeBatch (textsOf (articlesOf posts)) in
            match h _ embed w0 with
            | (Panicked m, w1) => ((Panicked m, w1), [entry get (Ok resp)])
            | (Val (Err e), w1) =>
                ((Val (Err ("failed to vectorize articles: "
                            +:+ ("failed to vectorize articles in batch: " +:+ e))), w1),
                 [entry get (Ok resp); entry embed (Err e)])
            | (Val (Ok embeddings), w1) =>
                if (length embeddings <=? length posts)%nat
                then
                  let put := StoreArticles (pages.page_documents posts embeddings) in
                  match h _ put w1 with
                  | (Panicked m, w2) =>
                      ((Panicked m, w2),
                       [entry get (Ok resp); entry embed (Ok embeddings)])
                  | (Val (Some e), w2) =>
                      ((Val (Err ("failed to store articles: "
                                  +:+ ("failed to store articles: " +:+ e))), w2),
                       [entry get (Ok resp); entry embed (Ok embeddings);
                        entry put (Some e)])
                  | (Val None, w2) =>
                      ((Val (Ok nbPages), w2),
                       [entry get (Ok resp); entry embed (Ok embeddings);
                        entry put None])
                  end
                else
                  ((Panicked ("index out of range [" +:+ itoa (Z.of_nat (length posts))
                              +:+ "] with length " +:+ itoa (Z.of_nat (length posts))),
                    w1),
                   [entry get (Ok resp); entry embed (Ok embeddings)])
            end
        end
    end.
Proof.
  cbn zeta. unfold vectorizePostsPage.
  rewrite run_bind, trace_bind, run_fetchPostsPage, trace_fetchPostsPage.
  destruct (h _ (HttpGet _) w) as [[[resp|e]|m] w0]; try reflexivity.
  cbn beta.
  destruct (strconv.Atoi _) as [nbPages|e]; [| reflexivity].
  destruct (negb _); [reflexivity |].
  destruct (json_Decode resp) as [posts|e]; [| reflexivity].
  rewrite run_bind, trace_bind.
  unfold vectorizeArticles. cbn [bind trigger run trace].
  destruct (h _ (VectorizeBatch _) w0) as [[[embeddings|e]|m] w1]; try reflexivity.
  rewrite run_bind, trace_bind.
  destruct (Nat.leb_spec (length embeddings) (length posts)) as [Hle|Hlt].
  - rewrite pairEmbeddings_in_range by (rewrite articlesOf_length; simpl; lia).
    cbn [app drop bind run trace].
    unfold storeArticles. cbn [bind trigger run trace].
    fold (pages.page_documents posts embeddings).
    destruct (h _ (StoreArticles _) w1) as [[[e|]|m] w2]; reflexivity.
  - rewrite pairEmbeddings_out_of_range by (rewrite articlesOf_length; lia).
    rewrite articlesOf_length. reflexivity.
Qed.


(** X12: a call of [vectorizePostsPage] that succeeds has fetched the page
    with status 200, returns the total the site announced in
    [X-WP-TotalPages], has sent the vectorizer one text per post, the title
    and the excerpt joined by a full stop, and has handed the store, in one
    batch that the store accepted, one document per embedding it got back:
    the title and the link of the post at that place, and the embedding.
    The excerpt is never stored. *)
Theorem vectorizePostsPage_stores_the_page (page hitsPerPage nbPages : Z) (w w' : W) :
  run h (vectorizePostsPage i page hitsPerPage) w = (Val (Ok nbPages), w') ->
  exists resp posts embeddings,
    http.StatusCode resp = http.StatusOK
    /\ strconv.Atoi (http.Header_Get (http.Hdr resp) "X-WP-TotalPages") = Ok nbPages
    /\ json_Decode resp = Ok posts
    /\ (length embeddings <= length posts)%nat
    /\ trace h (vectorizePostsPage i page hitsPerPage) w
       = [ entry (HttpGet (posts_url i page hitsPerPage)) (Ok resp);
           entry (VectorizeBatch
                    (map (fun post => rendered (wp_Title post) +:+ ". "
                                      +:+ rendered (wp_Excerpt post)) posts))
                 (Ok embeddings);
           entry (StoreArticles
                    (zip_with (fun post e => {| store.Title := rendered (wp_Title post);
                                                store.Link := wp_Link post;
                                                store.Embedding := e |})
                              posts embeddings))
                 None ].
Proof.
  intros Hrun.
  pose proof (vectorizePostsPage_stages page hitsPerPage w) as Hst.
  rewrite Hrun in Hst. cbn zeta in Hst.
  destruct (h _ (HttpGet _) w) as [[[resp|e]|m] w0]; try discriminate Hst.
  destruct (strconv.Atoi _) as [nb|e] eqn:Ha; [| discriminate Hst].
  destruct (Z.eqb_spec (http.StatusCode resp) http.StatusOK) as [Hs|Hs];
    cbn [negb] in Hst; [| discriminate Hst].
  destruct (json_Decode resp) as [posts|e] eqn:Hd; [| discriminate Hst].
  destruct (h _ (VectorizeBatch _) w0) as [[[embeddings|e]|m] w1]; try discriminate Hst.
  destruct (Nat.leb_spec (length embeddings) (length posts)) as [Hle|Hlt];
    [| discriminate Hst].
  destruct (h _ (StoreArticles _) w1) as [[[e|]|m] w2]; try discriminate Hst.
  pose proof (f_equal snd Hst) as Ht. cbn [snd] in Ht.
  pose proof (f_equal fst Hst) as Hr. cbn [fst] in Hr.
  injection Hr as Hnb _. subst nb.
  exists resp, posts, embeddings.
  split; [exact Hs |]. split; [exact Ha |]. split; [exact Hd |].
  split; [exact Hle |].
  rewrite Ht, texts_are_mapped, articlesOf_map, map_map, page_documents_zip.
  reflexivity.
Qed.


End PageMore.

(** ** The address of a page *)

Lemma append_inj_l (s a b : string) : s +:+ a = s +:+ b -> a = b.
Proof.
  induction s as [|c s IH]; cbn; intros Heq; [exact Heq |].
  injection Heq as Heq. now apply IH.
Qed.

Lemma itoa_inj (a b : Z) : itoa a = itoa b -> a = b.
Proof.
  unfold itoa. intros Heq. apply DecimalZ.to_int_inj.
  assert (Hnn : forall z, Z.to_int z <> Decimal.Pos Decimal.Nil
                          /\ Z.to_int z <> Decimal.Neg Decimal.Nil).
  { intros [|p|p]; cbn; split; try discriminate; intros Hp; injection Hp as Hp;
      now apply DecimalPos.Unsigned.to_uint_nonnil in Hp. }
  destruct (Hnn a) as [Ha1 Ha2]. destruct (Hnn b) as [Hb1 Hb2].
  pose proof (NilZero.isi _ Ha1 Ha2) as Hia.
  pose proof (NilZero.isi _ Hb1 Hb2) as Hib.
  rewrite Heq in Hia. rewrite Hia in Hib. now injection Hib.
Qed.

(** X14: two pages of a site have two addresses: for the same number of
    posts per page, [posts_url] maps different page numbers to different
    URLs. *)
Theorem posts_url_tells_pages_apart (i : importer.Importer) (hitsPerPage page page' : Z) :
  page <> page' ->
  importer.posts_url i page hitsPerPage <> importer.posts_url i page' hitsPerPage.
Proof.
  intros Hne Heq. apply Hne. unfold importer.posts_url in Heq.
  do 4 apply append_inj_l in Heq. now apply itoa_inj.
Qed.

Lemma posts_url_tells_pages_apart_witness :
  importer.posts_url examples.imp 2 100 <> importer.posts_url examples.imp 12 100.
Proof.
  apply posts_url_tells_pages_apart. lia.
Defined.

(** ** The importer as it is wired *)

Section ProductionPage.
Context `{importer.Decoder} `{vectorization.Codec} {W : Type}.
Import importer.
Variable source : string -> W -> Res (result http.Response) * W.
Variable embed : Handler vectorization.HttpE W.
Variable redis : Handler store.RedisE W.
Variable index : W -> Res (option error) * W.
Variable c : vectorization.Client.

Lemma zip_with_articles (articles : list Article) : forall embeddings : list bytes,
  length embeddings = length articles ->
  map va_Article
      (zip_with (fun a e => {| va_Article := a; va_Embedding := e |}) articles embeddings)
  = articles
  /\ map va_Embedding
       (zip_with (fun a e => {| va_Article := a; va_Embedding := e |}) articles embeddings)
     = embeddings.
Proof.
  induction articles as [|a l IH]; intros [|e embeddings] Hlen; try discriminate Hlen.
  - split; reflexivity.
  - cbn in Hlen. injection Hlen as Hlen. destruct (IH _ Hlen) as [Ha He].
    cbn [zip_with map va_Article va_Embedding]. now rewrite Ha, He.
Qed.

(** X15: wired to the embedding client, [vectorizeArticles] never runs past
    the articles and never leaves one out: the client returns exactly one
    embedding per text, so that a call that succeeds returns every article,
    in order, each with the embedding at its place; and the only panic there
    can be is one of the HTTP transport. *)
Theorem production_vectorizer_pairs_every_article (articles : list Article) (w : W) :
  match run (wiring.importer_handler source embed redis index c)
            (vectorizeArticles articles) w with
  | (Val (Ok vectorizedArticles), w') =>
      exists embeddings,
        run embed (vectorization.VectorizeBatch c
                     (map (fun a => Title a +:+ ". " +:+ Description a) articles)) w
        = (Val (Ok embeddings), w')
        /\ map va_Article vectorizedArticles = articles
        /\ map va_Embedding vectorizedArticles = embeddings
  | (Val (Err e), w') =>
      exists e',
        e = "failed to vectorize articles in batch: " +:+ e'
        /\ run embed (vectorization.VectorizeBatch c
                        (map (fun a => Title a +:+ ". " +:+ Description a) articles)) w
           = (Val (Err e'), w')
  | (Panicked m, w') =>
      run embed (vectorization.VectorizeBatch c
                   (map (fun a => Title a +:+ ". " +:+ Description a) articles)) w
      = (Panicked m, w')
  end.
Proof.
  unfold vectorizeArticles. rewrite texts_are_mapped.
  cbn [bind trigger run wiring.importer_handler].
  destruct (run embed _ w) as [[[embeddings|e]|m] w'] eqn:Hrun.
  - pose proof (VectorizeBatch_length _ _ _ _ _ _ Hrun) as Hlen.
    rewrite length_map in Hlen.
    cbn [bind]. rewrite run_bind.
    rewrite pairEmbeddings_in_range by (simpl; lia).
    cbn [app drop run].
    exists embeddings. split; [reflexivity |].
    apply zip_with_articles. exact Hlen.
  - cbn [bind run]. exists e. split; reflexivity.
  - reflexivity.
Qed.

End ProductionPage.

(** ** More on the runs of [initialImport] *)

Section ImportMore.
Context `{importer.Decoder} {W : Type}.
Import importer pages initial errgroup.
Variable h : Handler ImpE W.
Variable i : Importer.

Lemma enter_loop (w w1 : W) (nb : Z) :
  run h (vectorizePostsPage i 1 100) w = (Val (Ok nb), w1) ->
  enter h i w = {| main := Loop nb 2;
                   grp := SetLimit (maxGoroutines i) zero;
                   world := w1 |}.
Proof. intros Hrun. unfold enter. now rewrite Hrun. Qed.

Lemma returned_is_final (cs : list Choice) (s s' : State W) (r : option error) :
  main s = Returned r -> exec h i cs s = Some s' -> cs = [] /\ s' = s.
Proof.
  intros Hm Hex. destruct cs as [|c cs]; cbn in Hex.
  - injection Hex as <-. now split.
  - unfold step in Hex. rewrite Hm in Hex. discriminate Hex.
Qed.

(** X16: when the first page announces one page, none, or a negative
    number of pages, [initialImport] starts no goroutine: it returns [nil]
    as soon as the first page is stored, and nothing more is asked of the
    site, the vectorizer or the store. *)
Theorem initialImport_stops_after_a_single_page (nb : Z) (w w1 : W) :
  run h (vectorizePostsPage i 1 100) w = (Val (Ok nb), w1) ->
  (nb <= 1)%Z ->
  initialImport h i [WaitReturns] w = Some (None, w1)
  /\ forall cs r w',
       initialImport h i cs w = Some (r, w') ->
       cs = [WaitReturns] /\ r = None /\ w' = w1.
Proof.
  intros Hrun Hnb.
  assert (Hw : step h i WaitReturns (enter h i w)
               = Some {| main := Returned None;
                         grp := SetLimit (maxGoroutines i) zero; world := w1 |}).
  { rewrite (enter_loop _ _ _ Hrun). unfold step. cbn.
    destruct (Z.leb_spec 2 nb); [lia | reflexivity]. }
  split.
  { unfold initialImport. cbn [exec]. rewrite Hw. reflexivity. }
  intros cs r w' Himp. unfold initialImport in Himp.
  destruct cs as [|c cs].
  { cbn [exec] in Himp. rewrite (enter_loop _ _ _ Hrun) in Himp. discriminate Himp. }
  cbn [exec] in Himp.
  destruct c as [|n|].
  - rewrite (enter_loop _ _ _ Hrun) in Himp. unfold step in Himp. cbn in Himp.
    destruct (Z.leb_spec 2 nb); [lia | discriminate Himp].
  - rewrite (enter_loop _ _ _ Hrun) in Himp. unfold step in Himp. cbn in Himp.
    unfold move in Himp. cbn in Himp. rewrite lookup_nil in Himp. discriminate Himp.
  - rewrite Hw in Himp.
    destruct (exec h i cs _) as [s'|] eqn:Hex; [| discriminate Himp].
    destruct (returned_is_final cs {| main := Returned None;
                                      grp := SetLimit (maxGoroutines i) zero;
                                      world := w1 |} s' None eq_refl Hex) as [-> ->].
    cbn in Himp. injection Himp as <- <-. repeat split.
Qed.

(** X17: with a ceiling of 0 the semaphore has no token: when the first
    page announces two pages or more, the first [grp.Go] blocks for ever.
    [initialImport] cannot take a step after the first page, and no run of it
    returns. *)
Theorem initialImport_blocks_on_a_zero_ceiling (nb : Z) (w w1 : W) :
  run h (vectorizePostsPage i 1 100) w = (Val (Ok nb), w1) ->
  (2 <= nb)%Z ->
  maxGoroutines i = 0%Z ->
  (forall c, step h i c (enter h i w) = None)
  /\ forall cs, initialImport h i cs w = None.
Proof.
  intros Hrun Hnb Hmax.
  assert (Hstuck : forall c, step h i c (enter h i w) = None).
  { intros c. rewrite (enter_loop _ _ _ Hrun). unfold step. cbn. rewrite Hmax.
    destruct c as [|n|]; cbn.
    - destruct (Z.leb_spec 2 nb); [reflexivity | lia].
    - unfold move. cbn. now rewrite lookup_nil.
    - destruct (Z.leb_spec 2 nb); [reflexivity | lia]. }
  split; [exact Hstuck |].
  intros [|c cs]; unfold initialImport; cbn [exec].
  - now rewrite (enter_loop _ _ _ Hrun).
  - now rewrite Hstuck.
Qed.

Lemma dispatch_all (nb : Z) (k : nat) : forall (s : State W) (page : Z),
  main s = Loop nb page ->
  sem (grp s) = None ->
  (nb <= int_max)%Z -> (2 <= page)%Z ->
  (k <> O -> page + Z.of_nat k <= nb + 1)%Z ->
  exists s',
    exec h i (replicate k Dispatch) s = Some s'
    /\ map id (running (grp s')) = map id (running (grp s)) ++ pages_from page k
    /\ world s' = world s.
Proof.
  induction k as [|k IH]; intros s page Hm Hsem Hnb Hp Hk.
  - exists s. cbn. now rewrite app_nil_r.
  - specialize (Hk ltac:(discriminate)).
    cbn [replicate exec]. unfold step. rewrite Hm.
    unfold can_Go. rewrite Hsem.
    destruct (Z.leb_spec page nb); [| lia]. cbn [andb].
    destruct k as [|k].
    + eexists. cbn [replicate exec]. split; [reflexivity |].
      cbn. rewrite map_app. cbn. now split.
    + edestruct (IH {| main := Loop nb (int_wrap (page + 1));
                       grp := Go page (pageTask i page) (grp s);
                       world := world s |} (page + 1)%Z)
        as (s' & Hex & Hids & Hw).
      * cbn. rewrite int_wrap_small; [reflexivity |]. unfold int_min, int_max in *. lia.
      * exact Hsem.
      * exact Hnb.
      * lia.
      * lia.
      * exists s'. split; [exact Hex |]. split; [| exact Hw].
        rewrite Hids. cbn [grp Go running]. rewrite map_app. cbn [map id pages_from].
        now rewrite <- app_assoc.
Qed.

(** X18: a negative ceiling is no ceiling ([SetLimit] drops the semaphore):
    the loop can hand every page from 2 on to [grp.Go] before any goroutine
    has moved, so that all of them are in flight at once. *)
Theorem initialImport_has_no_ceiling_when_negative (nb : Z) (w w1 : W) :
  run h (vectorizePostsPage i 1 100) w = (Val (Ok nb), w1) ->
  (maxGoroutines i < 0)%Z ->
  exists s,
    exec h i (replicate (Z.to_nat (nb - 1)) Dispatch) (enter h i w) = Some s
    /\ map id (running (grp s)) = fanned_out nb
    /\ length (running (grp s)) = Z.to_nat (nb - 1)
    /\ world s = w1.
Proof.
  intros Hrun Hmax.
  pose proof (first_page_range h i w w1 nb Hrun) as Hnb.
  destruct (dispatch_all nb (Z.to_nat (nb - 1)) (enter h i w) 2) as (s & Hex & Hids & Hw).
  - now rewrite (enter_loop _ _ _ Hrun).
  - rewrite (enter_loop _ _ _ Hrun). cbn.
    destruct (Z.ltb_spec (maxGoroutines i) 0); [reflexivity | lia].
  - exact Hnb.
  - lia.
  - lia.
  - exists s. split; [exact Hex |].
    rewrite (enter_loop _ _ _ Hrun) in Hids, Hw. cbn in Hids, Hw.
    split; [exact Hids |]. split; [| exact Hw].
    rewrite <- (length_map id), Hids. unfold fanned_out.
    clear. generalize 2%Z. induction (Z.to_nat (nb - 1)) as [|n IH]; intros a; cbn;
      [reflexivity | now rewrite IH].
Qed.

End ImportMore.

(** ** [Start] *)

Section StartFacts.
Context `{importer.Decoder} {W : Type}.
Import importer start.
Variable h : Handler ImpE W.
Variable i : Importer.

(** A call of [vectorizePostsPage] that returns has asked the site for its
    page, once. *)
Lemma vectorizePostsPage_fetches_once (page hitsPerPage : Z) (r : result Z) (w w' : W) :
  run h (vectorizePostsPage i page hitsPerPage) w = (Val r, w') ->
  urls_fetched (trace h (vectorizePostsPage i page hitsPerPage) w)
  = [posts_url i page hitsPerPage].
Proof.
  intros Hrun.
  pose proof (vectorizePostsPage_stages h i page hitsPerPage w) as Hst.
  rewrite Hrun in Hst. cbn zeta in Hst.
  destruct (h _ (HttpGet _) w) as [[[resp|e]|m] w0]; try discriminate Hst.
  2:{ pose proof (f_equal snd Hst) as Ht. cbn [snd] in Ht. now rewrite Ht. }
  cbn beta in Hst.
  destruct (strconv.Atoi _) as [nb|e0].
  2:{ pose proof (f_equal snd Hst) as Ht. cbn [snd] in Ht. now rewrite Ht. }
  destruct (negb _).
  { pose proof (f_equal snd Hst) as Ht. cbn [snd] in Ht. now rewrite Ht. }
  destruct (json_Decode resp) as [posts|e0].
  2:{ pose proof (f_equal snd Hst) as Ht. cbn [snd] in Ht. now rewrite Ht. }
  destruct (h _ (VectorizeBatch _) w0) as [[[embeddings|e0]|m] w1]; try discriminate Hst.
  2:{ pose proof (f_equal snd Hst) as Ht. cbn [snd] in Ht. now rewrite Ht. }
  destruct (Nat.leb_spec (length embeddings) (length posts)) as [Hle|Hlt];
    [| discriminate Hst].
  destruct (h _ (StoreArticles _) w1) as [[[e0|]|m] w2]; try discriminate Hst;
    pose proof (f_equal snd Hst) as Ht; cbn [snd] in Ht; now rewrite Ht.
Qed.

Lemma urls_fetched_app (l l' : list (Entry ImpE)) :
  urls_fetched (l ++ l') = urls_fetched l ++ urls_fetched l'.
Proof. unfold urls_fetched. now rewrite map_app, concat_app. Qed.

(** The loop returns when the context is done, and only then. *)
Lemma polling_stops (signals : list Signal) : forall (st : Status) (w w' : W),
  run h (polling i signals) w = (Val st, w') ->
  st = Stopped <-> In Done signals.
Proof.
  induction signals as [|[|] signals IH]; intros st w w' Hrun.
  - cbn in Hrun. injection Hrun as <- _. split; [discriminate | intros []].
  - cbn [polling] in Hrun. rewrite run_bind in Hrun.
    destruct (run h (vectorizePostsPage i 1 20) w) as [[r|m] w1]; [| discriminate Hrun].
    rewrite (IH _ _ _ Hrun).
    split; [intros Hin; now right | intros [Heq | Hin]];
      [discriminate Heq | exact Hin].
  - cbn in Hrun. injection Hrun as <- _. split; [intros _; now left | reflexivity].
Qed.

(** X19: the loop of [Start] asks the site for page 1, 20 posts, once per
    tick, whatever became of the ticks before, until the context is done:
    in a run that does not panic the pages asked for are as many times that
    one page as there are ticks before the end of the context. *)
Theorem polling_fetches_page_one_per_tick
    (signals : list Signal) (st : Status) (w w' : W) :
  run h (polling i signals) w = (Val st, w') ->
  urls_fetched (trace h (polling i signals) w)
  = replicate (ticks signals) (posts_url i 1 20).
Proof.
  revert st w w'.
  induction signals as [|[|] signals IH]; intros st w w' Hrun; [reflexivity | | reflexivity].
  cbn [polling ticks replicate] in Hrun |- *.
  rewrite run_bind in Hrun. rewrite trace_bind.
  destruct (run h (vectorizePostsPage i 1 20) w) as [[r|m] w1] eqn:Hpage;
    [| discriminate Hrun].
  rewrite urls_fetched_app, (vectorizePostsPage_fetches_once _ _ _ _ _ Hpage).
  rewrite (IH _ _ _ Hrun). reflexivity.
Qed.

(** X20: no error stops [Start].  With an interval that is not positive it
    panics in [time.NewTicker], before anything else; otherwise, in a run
    without panic, the index has been asked for and the initial import has
    returned, with or without an error, the loop has run, and [Start] has
    returned exactly when the context was done. *)
Theorem Start_stops_only_when_done
    (interval : Z) (cs : list initial.Choice) (signals : list Signal) (w : W) :
  ((interval <= 0)%Z ->
   Start h i interval cs signals w
   = Some (Panicked "non-positive interval for NewTicker", w))
  /\ forall st w',
       Start h i interval cs signals w = Some (Val st, w') ->
       (0 < interval)%Z
       /\ (st = Stopped <-> In Done signals)
       /\ exists indexed w1 s imported,
            h _ CreateVectorIndex w = (Val indexed, w1)
            /\ initial.exec h i cs (initial.enter h i w1) = Some s
            /\ initial.main s = initial.Returned imported
            /\ run h (polling i signals) (initial.world s) = (Val st, w').
Proof.
  unfold Start. split.
  - intros Hle. destruct (Z.leb_spec interval 0); [reflexivity | lia].
  - intros st w' HS.
    destruct (Z.leb_spec interval 0) as [Hle|Hlt]; [discriminate HS |].
    destruct (h _ CreateVectorIndex w) as [[indexed|m] w1]; [| discriminate HS].
    destruct (initial.exec h i cs _) as [s|] eqn:Hex; [| discriminate HS].
    destruct (initial.main s) as [nb page|imported|m] eqn:Hm; try discriminate HS.
    injection HS as HS.
    split; [exact Hlt |].
    split; [exact (polling_stops signals st _ w' HS) |].
    exists indexed, w1, s, imported. auto.
Qed.

End StartFacts.

Lemma vectorizePostsPage_stores_the_page_witness :
  exists resp posts embeddings,
    http.StatusCode resp = http.StatusOK
    /\ strconv.Atoi (http.Header_Get (http.Hdr resp) "X-WP-TotalPages") = Ok 5
    /\ @importer.json_Decode examples.decoder resp = Ok posts
    /\ (length embeddings <= length posts)%nat
    /\ trace (doubles.mock_handler (examples.onePage 10 situations.twoArticles))
             (@importer.vectorizePostsPage examples.decoder examples.imp 1 10)
             examples.fresh
       = [ entry (importer.HttpGet (importer.posts_url examples.imp 1 10)) (Ok resp);
           entry (importer.VectorizeBatch
                    (map (fun post =>
                            importer.rendered (importer.wp_Title post) +:+ ". "
                            +:+ importer.rendered (importer.wp_Excerpt post)) posts))
                 (Ok embeddings);
           entry (importer.StoreArticles
                    (zip_with (fun post e =>
                                 {| store.Title := importer.rendered (importer.wp_Title post);
                                    store.Link := importer.wp_Link post;
                                    store.Embedding := e |})
                              posts embeddings))
                 None ].
Proof.
  eassert (Hrun : run (doubles.mock_handler (examples.onePage 10 situations.twoArticles))
                      (@importer.vectorizePostsPage examples.decoder examples.imp 1 10)
                      examples.fresh
                  = (Val (Ok 5), _)) by (vm_compute; reflexivity).
  exact (@vectorizePostsPage_stores_the_page examples.decoder _ _ _ _ _ _ _ _ Hrun).
Defined.


Lemma initialImport_stops_after_a_single_page_witness :
  @initial.initialImport examples.pagesDecoder _
    (doubles.mock_handler (examples.onePage 100 (examples.okPage (-3) 1)))
    examples.imp [initial.WaitReturns] examples.fresh
  = Some (None,
          {| doubles.pageRequests := 1; doubles.vectorizer := examples.plainVectorizer;
             doubles.mstore :=
               {| doubles.storeErr := None; doubles.indexErr := None;
                  doubles.storedArticles := [examples.pageDocument 1] |} |}).
Proof.
  eassert (Hrun : run (doubles.mock_handler (examples.onePage 100 (examples.okPage (-3) 1)))
                      (@importer.vectorizePostsPage examples.pagesDecoder examples.imp 1 100)
                      examples.fresh
                  = (Val (Ok (-3)%Z), _)) by (vm_compute; reflexivity).
  exact (proj1 (@initialImport_stops_after_a_single_page examples.pagesDecoder _ _ _ _ _ _
                  Hrun ltac:(lia))).
Defined.

Lemma initialImport_blocks_on_a_zero_ceiling_witness :
  @initial.step examples.pagesDecoder _ (doubles.mock_handler examples.fivePages)
    situations.blocked initial.Dispatch
    (@initial.enter examples.pagesDecoder _ (doubles.mock_handler examples.fivePages)
       situations.blocked examples.fresh) = None
  /\ @initial.initialImport examples.pagesDecoder _
       (doubles.mock_handler examples.fivePages) situations.blocked
       [initial.Dispatch; initial.Goroutine 0; initial.WaitReturns] examples.fresh
     = None.
Proof.
  eassert (Hrun : run (doubles.mock_handler examples.fivePages)
                      (@importer.vectorizePostsPage examples.pagesDecoder
                         situations.blocked 1 100)
                      examples.fresh
                  = (Val (Ok 5), _)) by (vm_compute; reflexivity).
  destruct (@initialImport_blocks_on_a_zero_ceiling examples.pagesDecoder _ _ _ _ _ _
              Hrun ltac:(lia) eq_refl) as [Hstep Hnever].
  split; [apply Hstep | apply Hnever].
Defined.

Lemma initialImport_has_no_ceiling_when_negative_witness :
  exists s,
    @initial.exec examples.pagesDecoder _ (doubles.mock_handler examples.fivePages)
      situations.unbounded
      [initial.Dispatch; initial.Dispatch; initial.Dispatch; initial.Dispatch]
      (@initial.enter examples.pagesDecoder _ (doubles.mock_handler examples.fivePages)
         situations.unbounded examples.fresh) = Some s
    /\ map errgroup.id (errgroup.running (initial.grp s)) = [2; 3; 4; 5]%Z
    /\ length (errgroup.running (initial.grp s)) = 4%nat.
Proof.
  eassert (Hrun : run (doubles.mock_handler examples.fivePages)
                      (@importer.vectorizePostsPage examples.pagesDecoder
                         situations.unbounded 1 100)
                      examples.fresh
                  = (Val (Ok 5), _)) by (vm_compute; reflexivity).
  destruct (@initialImport_has_no_ceiling_when_negative examples.pagesDecoder _ _ _ _ _ _
              Hrun ltac:(unfold situations.unbounded; cbn; lia))
    as (s & Hex & Hids & Hlen & _).
  exists s. split; [exact Hex |]. split; [exact Hids | exact Hlen].
Defined.

Lemma polling_fetches_page_one_per_tick_witness :
  importer.urls_fetched
    (trace (doubles.mock_handler (examples.onePage 20 situations.twoArticles))
           (@start.polling examples.decoder examples.imp
              [start.Tick; start.Tick; start.Done; start.Tick])
           situations.refusing)
  = [ importer.posts_url examples.imp 1 20; importer.posts_url examples.imp 1 20 ].
Proof.
  eassert (Hrun : run (doubles.mock_handler (examples.onePage 20 situations.twoArticles))
                      (@start.polling examples.decoder examples.imp
                         [start.Tick; start.Tick; start.Done; start.Tick])
                      situations.refusing
                  = (Val start.Stopped, _)) by (vm_compute; reflexivity).
  exact (@polling_fetches_page_one_per_tick examples.decoder _ _ _ _ _ _ _ Hrun).
Defined.

Lemma Start_stops_only_when_done_witness :
  exists w',
    @start.Start examples.pagesDecoder _ (doubles.mock_handler examples.fivePages)
      examples.imp 10 examples.interleaved [start.Tick; start.Done] situations.noIndex
    = Some (Val start.Stopped, w')
    /\ (start.Stopped = start.Stopped <-> In start.Done [start.Tick; start.Done]).
Proof.
  eassert (HS : @start.Start examples.pagesDecoder _ (doubles.mock_handler examples.fivePages)
                  examples.imp 10 examples.interleaved [start.Tick; start.Done]
                  situations.noIndex
                = Some (Val start.Stopped, _)) by (vm_compute; reflexivity).
  eexists. split; [exact HS |].
  exact (proj1 (proj2 (proj2 (@Start_stops_only_when_done examples.pagesDecoder _ _ _ _ _ _ _)
                         _ _ HS))).
Defined.

(** ** The order of the pages under a ceiling of 1 *)

Section Sequential.
Context `{importer.Decoder} {W : Type}.
Import importer pages initial errgroup sequential.
Variable h : Handler ImpE W.
Variable i : Importer.
Hypothesis one : maxGoroutines i = 1%Z.

Lemma step_in_order (nb : Z) (c : Choice) (s s' : State W) :
  (nb < int_max)%Z ->
  sem (grp s) = Some 1%Z ->
  in_order nb s -> step h i c s = Some s' ->
  in_order nb s' /\ sem (grp s') = Some 1%Z.
Proof.
  intros Hnb Hsem [Hlen Hmain] Hstep. unfold step in Hstep.
  destruct (main s) as [nb' page|r|m] eqn:Hm; [| discriminate | discriminate].
  destruct Hmain as (-> & Hp & Hpn & Hids).
  destruct c as [|n|].
  - destruct (Z.leb_spec page nb) as [Hle|]; [| discriminate Hstep].
    unfold can_Go in Hstep. rewrite Hsem in Hstep.
    destruct (Z.ltb_spec (Z.of_nat (length (running (grp s)))) 1) as [Hfree|];
      [| discriminate Hstep].
    cbn [andb] in Hstep. injection Hstep as <-.
    destruct (running (grp s)) as [|t l] eqn:Hrun; [| cbn in Hfree; lia].
    split; [| exact Hsem].
    split; [cbn; rewrite Hrun; cbn; lia |].
    cbn [main grp Go running done]. rewrite Hrun.
    rewrite int_wrap_small by (unfold int_min, int_max in *; lia).
    split; [reflexivity |]. split; [lia |]. split; [left; lia |].
    cbn [app map id]. cbn [map] in Hids. rewrite app_nil_r in Hids.
    replace (Z.to_nat (page + 1 - 2)) with (S (Z.to_nat (page - 2))) by lia.
    rewrite pages_from_snoc, Hids. do 2 f_equal. lia.
  - unfold move in Hstep.
    destruct (running (grp s)) as [|t [|t' l]] eqn:Hrun; [| | cbn in Hlen; lia].
    { rewrite lookup_nil in Hstep. discriminate Hstep. }
    destruct n as [|n]; [| discriminate Hstep].
    cbn [lookup list_lookup] in Hstep.
    destruct (prog t) as [r | X e k | m].
    + injection Hstep as <-. split; [| exact Hsem].
      split; [cbn; lia |].
      cbn [main grp running done delete].
      split; [reflexivity |]. split; [exact Hp |]. split; [exact Hpn |].
      rewrite map_app. cbn [map f_id app]. rewrite app_nil_r. exact Hids.
    + destruct (h X e (world s)) as [[x|m] w'].
      * injection Hstep as <-. split; [| exact Hsem].
        split; [cbn; lia |].
        cbn [main grp running done].
        split; [reflexivity |]. split; [exact Hp |]. split; [exact Hpn |]. exact Hids.
      * injection Hstep as <-. split; [| exact Hsem].
        split; [cbn [grp]; rewrite Hrun; cbn; lia | exact I].
    + injection Hstep as <-. split; [| exact Hsem].
      split; [cbn [grp]; rewrite Hrun; cbn; lia | exact I].
  - destruct (Z.leb_spec page nb) as [|Hgt]; [discriminate Hstep |].
    unfold can_Wait in Hstep.
    destruct (running (grp s)) as [|t l] eqn:Hrun; [| discriminate Hstep].
    cbn [negb andb] in Hstep. injection Hstep as <-.
    split; [| exact Hsem]. split; [cbn; rewrite Hrun; cbn; lia |].
    cbn [main grp done]. cbn [map] in Hids. rewrite app_nil_r in Hids.
    rewrite Hids. unfold fanned_out. f_equal. lia.
Qed.

Lemma exec_in_order (nb : Z) (cs : list Choice) : forall s s',
  (nb < int_max)%Z ->
  sem (grp s) = Some 1%Z ->
  in_order nb s -> exec h i cs s = Some s' ->
  in_order nb s'.
Proof.
  induction cs as [|c cs IH]; intros s s' Hnb Hsem Hin Hex; cbn in Hex.
  - now injection Hex as <-.
  - destruct (step h i c s) as [s1|] eqn:Hstep; [| discriminate Hex].
    destruct (step_in_order nb c s s1 Hnb Hsem Hin Hstep) as [Hin1 Hsem1].
    exact (IH s1 s' Hnb Hsem1 Hin1 Hex).
Qed.

(** X21: with a ceiling of 1 the import is sequential: in every run that
    returns, the goroutines have returned in the order of the pages, 2, 3,
    ... up to the total, each one before the next was started; so that the
    error [initialImport] returns, if any, is the error of the failing page
    with the lowest number. *)
Theorem initialImport_is_sequential_under_a_ceiling_of_one
    (nb : Z) (w w1 : W) (cs : list Choice) (s : State W) (r : option error) :
  run h (vectorizePostsPage i 1 100) w = (Val (Ok nb), w1) ->
  exec h i cs (enter h i w) = Some s ->
  main s = Returned r ->
  map f_id (done (grp s)) = fanned_out nb
  /\ r = match first_error (map f_err (done (grp s))) with
         | Some e => Some ("error during initial import: " +:+ e)
         | None => None
         end.
Proof.
  intros Hrun Hex Hr.
  pose proof (first_page_range h i w w1 nb Hrun) as Hmax.
  destruct (enter_Inv h i (fun _ _ => True) w w1 nb Hrun) as (HI & Hm & _).
  destruct (Z.eq_dec nb int_max) as [-> | Hne].
  { exfalso. eapply (exec_never_returns h i cs _ s 2 Hm); eauto.
    unfold int_max. lia. }
  assert (Hlt : (nb < int_max)%Z) by lia.
  split.
  - assert (Hin : in_order nb (enter h i w)).
    { rewrite (enter_loop h i _ _ _ Hrun). split; [cbn; lia |].
      cbn. repeat split; lia. }
    assert (Hsem : sem (grp (enter h i w)) = Some 1%Z).
    { rewrite (enter_loop h i _ _ _ Hrun). cbn. now rewrite one. }
    destruct (exec_in_order nb cs _ s Hlt Hsem Hin Hex) as [_ Hmain].
    rewrite Hr in Hmain. exact Hmain.
  - pose proof (exec_Inv h i (fun _ _ => True) (fun _ _ _ _ _ => I)
                  (fun _ _ _ _ _ _ => I) nb cs _ s Hlt HI Hex)
      as (_ & _ & _ & _ & _ & _ & Hmain).
    rewrite Hr in Hmain. now destruct Hmain as (_ & _ & ->).
Qed.

End Sequential.

(** ** From a page of the site to the hashes of Redis *)

Section ProductionStore.
Context `{importer.Decoder} `{vectorization.Codec} {W : Type}.
Import importer.
Variable source : string -> W -> Res (result http.Response) * W.
Variable embed : Handler vectorization.HttpE W.
Variable index : W -> Res (option error) * W.
Variable c : vectorization.Client.
Variable i : Importer.
(** The Redis server is a part of the world. *)
Variable get : W -> store.Redis.
Variable set : W -> store.Redis -> W.
Hypothesis get_set : forall w db, get (set w db) = db.

(** X22: the importer wired to the embedding client and to the store
    client, on a Redis server that executes its pipelines.  After a call of
    [vectorizePostsPage] that succeeds, every post of the page is found in
    Redis under [article:] followed by its title: the hash there has that
    title, the link of the post and the embedding the service returned at
    the place of the post; if several posts of the page have the same title,
    the hash is that of the last of them.  No post is left out: there are as
    many embeddings as posts. *)
Theorem production_page_is_found_in_redis (page hitsPerPage nbPages : Z) (w w' : W) :
  run (wiring.importer_handler source embed (focus get set store.redis_handler) index c)
      (vectorizePostsPage i page hitsPerPage) w
  = (Val (Ok nbPages), w') ->
  exists resp w0 posts embeddings w1,
    source (posts_url i page hitsPerPage) w = (Val (Ok resp), w0)
    /\ json_Decode resp = Ok posts
    /\ run embed
          (vectorization.VectorizeBatch c
             (map (fun post => rendered (wp_Title post) +:+ ". "
                               +:+ rendered (wp_Excerpt post)) posts)) w0
       = (Val (Ok embeddings), w1)
    /\ length embeddings = length posts
    /\ forall (n : nat) (post : WPPost) (e : bytes),
         posts !! n = Some post ->
         embeddings !! n = Some e ->
         (forall m post', (n < m)%nat -> posts !! m = Some post' ->
                          rendered (wp_Title post') <> rendered (wp_Title post)) ->
         exists hash,
           get w' !! (store.ArticlePrefix +:+ rendered (wp_Title post)) = Some hash
           /\ hash !! "title" = Some (store.VString (rendered (wp_Title post)))
           /\ hash !! "link" = Some (store.VString (wp_Link post))
           /\ hash !! "embedding" = Some (store.VBytes e).
Proof.
  intros Hrun.
  set (h := wiring.importer_handler source embed (focus get set store.redis_handler)
              index c) in *.
  pose proof (vectorizePostsPage_stages h i page hitsPerPage w) as Hst.
  rewrite Hrun in Hst. cbn zeta in Hst.
  change (h _ (HttpGet (posts_url i page hitsPerPage)) w)
    with (source (posts_url i page hitsPerPage) w) in Hst.
  destruct (source _ w) as [[[resp|e]|m] w0] eqn:Hget; try discriminate Hst.
  cbn beta in Hst.
  destruct (strconv.Atoi _) as [nb|e]; [| discriminate Hst].
  destruct (negb _); [discriminate Hst |].
  destruct (json_Decode resp) as [posts|e] eqn:Hd; [| discriminate Hst].
  change (h _ (VectorizeBatch (textsOf (articlesOf posts))) w0)
    with (run embed (vectorization.VectorizeBatch c (textsOf (articlesOf posts))) w0)
    in Hst.
  destruct (run embed _ w0) as [[[embeddings|e]|m] w1] eqn:Hemb; try discriminate Hst.
  pose proof (VectorizeBatch_length _ _ _ _ _ _ Hemb) as Hv.
  rewrite texts_are_mapped, length_map, articlesOf_length in Hv.
  rewrite texts_are_mapped, articlesOf_map, map_map in Hemb. cbn [Title Description] in Hemb.
  rewrite Hv, Nat.leb_refl in Hst.
  change (h _ (StoreArticles (pages.page_documents posts embeddings)) w1)
    with (run (focus get set store.redis_handler)
              (store.StoreArticles (pages.page_documents posts embeddings)) w1) in Hst.
  exists resp, w0, posts, embeddings, w1.
  split; [reflexivity |]. split; [exact Hd |]. split; [exact Hemb |].
  split; [exact Hv |].
  intros n post e Hpost He Hlast.
  rewrite page_documents_zip in Hst.
  set (docs := zip_with _ posts embeddings) in Hst.
  assert (Hdoc : docs !! n = Some {| store.Title := rendered (wp_Title post);
                                     store.Link := wp_Link post;
                                     store.Embedding := e |}).
  { unfold docs. rewrite lookup_zip_with, Hpost. cbn. now rewrite He. }
  assert (Hw' : get w' = fold_left store.hset
                           (map (fun a => {| store.key := store.ArticlePrefix +:+ store.Title a;
                                             store.fields :=
                                               <["title" := store.VString (store.Title a)]>
                                               (<["link" := store.VString (store.Link a)]>
                                               (<["embedding" :=
                                                    store.VBytes (store.Embedding a)]> ∅)) |})
                                docs)
                           (get w1)).
  { unfold store.StoreArticles in Hst.
    destruct docs as [|d docs'] eqn:Hdocs; [rewrite lookup_nil in Hdoc; discriminate |].
    cbn [length Nat.eqb bind trigger run focus store.redis_handler] in Hst.
    rewrite StoreArticles_pipeline in Hst.
    pose proof (f_equal fst Hst) as Hr. cbn [fst] in Hr. injection Hr as _ ->.
    apply get_set. }
  rewrite Hw'. rewrite <- (take_drop_middle _ _ _ Hdoc).
  apply (fold_hset_last (take n docs) (drop (S n) docs)
           {| store.Title := rendered (wp_Title post); store.Link := wp_Link post;
              store.Embedding := e |}).
  intros b Hb. apply list_elem_of_In, list_elem_of_lookup in Hb. destruct Hb as [k Hk].
  rewrite lookup_drop in Hk. unfold docs in Hk.
  apply lookup_zip_with_Some in Hk. destruct Hk as (post' & e' & -> & Hp' & _).
  cbn [store.Title].
  apply (Hlast (S n + k)%nat post'); [lia | exact Hp'].
Qed.

End ProductionStore.

(** ** Reading back the total of a site *)

Lemma digits_of_uint_acc (d : Decimal.uint) : forall acc : positive,
  strconv.digits (NilEmpty.string_of_uint d) (Z.pos acc)
  = Some (Z.pos (Pos.of_uint_acc d acc)).
Proof.
  induction d; intros acc; cbn [NilEmpty.string_of_uint strconv.digits Pos.of_uint_acc];
    try reflexivity;
    (match goal with
     | |- context [strconv.digit ?c] =>
         let v := eval vm_compute in (strconv.digit c) in
         change (strconv.digit c) with v
     end;
     rewrite <- IHd; f_equal; lia).
Qed.

Lemma digits_of_uint (d : Decimal.uint) :
  strconv.digits (NilEmpty.string_of_uint d) 0 = Some (Z.of_N (Pos.of_uint d)).
Proof.
  induction d; cbn [NilEmpty.string_of_uint strconv.digits Pos.of_uint];
    try reflexivity;
    match goal with
    | |- context [strconv.digit ?c] =>
        let v := eval vm_compute in (strconv.digit c) in
        change (strconv.digit c) with v
    end;
    try exact IHd; apply digits_of_uint_acc.
Qed.

(** What [fmt] prints for an [int] with [%d], [strconv.Atoi] reads back. *)
Lemma Atoi_itoa (n : Z) :
  (int_min <= n <= int_max)%Z -> strconv.Atoi (itoa n) = Ok n.
Proof.
  intros Hn. unfold itoa.
  assert (Hmax : strconv.maxUint64 = 18446744073709551615%Z) by reflexivity.
  assert (Hcut : strconv.cutoff = 9223372036854775808%Z) by reflexivity.
  unfold int_min, int_max in Hn.
  destruct n as [|p|p].
  - reflexivity.
  - cbn [Z.to_int NilZero.string_of_int]. unfold NilZero.string_of_uint.
    pose proof (DecimalPos.Unsigned.of_to p) as Hof.
    pose proof (digits_of_uint (Pos.to_uint p)) as Hd. rewrite Hof in Hd.
    cbn [Z.of_N] in Hd.
    apply ParseUint_loop_digits in Hd; [| lia | lia].
    assert (Hc : (strconv.cutoff <=? Z.pos p)%Z = false) by (apply Z.leb_gt; lia).
    destruct (Pos.to_uint p) as [|d|d|d|d|d|d|d|d|d|d] eqn:Hp;
      [discriminate Hof | ..];
      unfold strconv.Atoi; cbn [NilEmpty.string_of_uint];
      cbn [NilEmpty.string_of_uint] in Hd; cbn iota beta zeta; rewrite Hd;
      cbn iota beta zeta; rewrite Hc; reflexivity.
  - cbn [Z.to_int NilZero.string_of_int]. unfold NilZero.string_of_uint.
    pose proof (DecimalPos.Unsigned.of_to p) as Hof.
    pose proof (digits_of_uint (Pos.to_uint p)) as Hd. rewrite Hof in Hd.
    cbn [Z.of_N] in Hd.
    apply ParseUint_loop_digits in Hd; [| lia | lia].
    assert (Hc : (strconv.cutoff <? Z.pos p)%Z = false) by (apply Z.ltb_ge; lia).
    destruct (Pos.to_uint p) as [|d|d|d|d|d|d|d|d|d|d] eqn:Hp;
      [discriminate Hof | ..];
      unfold strconv.Atoi; cbn [NilEmpty.string_of_uint];
      cbn [NilEmpty.string_of_uint] in Hd; cbn iota beta zeta; rewrite Hd;
      cbn iota beta zeta; rewrite Hc; reflexivity.
Qed.

Section MockSite.
Context `{importer.Decoder}.
Import importer doubles.

(** X24: the importer reads back the total the mock of the site announces:
    against a page served with status 200 and the header [X-WP-TotalPages]
    written with [%d], [fetchPostsPage] returns the posts of the body and
    that total, whatever [int] it is, negative ones included. *)
Theorem fetchPostsPage_reads_the_announced_total
    (site : gmap string wpServerMock) (m : wpServerMock) (i : Importer)
    (page hitsPerPage : Z) (posts : list WPPost) (w : World) :
  site !! posts_url i page hitsPerPage = Some m ->
  statusCode m = http.StatusOK ->
  missingHeader m = false ->
  (int_min <= totalPages m <= int_max)%Z ->
  json_Decode (respond m) = Ok posts ->
  run (mock_handler site) (fetchPostsPage i page hitsPerPage) w
  = (Val (Ok (posts, totalPages m)),
     {| pageRequests := pageRequests w + 1;
        vectorizer := vectorizer w; mstore := mstore w |}).
Proof.
  intros Hsite Hs Hh Hn Hd.
  rewrite run_fetchPostsPage. cbn [mock_handler]. unfold serve. rewrite Hsite.
  assert (Hget : http.Header_Get (http.Hdr (respond m)) "X-WP-TotalPages"
                 = itoa (totalPages m)).
  { unfold http.Header_Get, respond. cbn [http.Hdr]. rewrite Hh.
    change (http.CanonicalMIMEHeaderKey "X-WP-TotalPages") with "X-Wp-Totalpages".
    assert (Hl : (({[ "X-Wp-Totalpages" := [itoa (totalPages m)] ]} : http.Header)
                  ∪ {[ "Content-Type" := ["application/json"] ]})
                 !! "X-Wp-Totalpages" = Some [itoa (totalPages m)])
      by apply lookup_union_Some_l, lookup_singleton_eq.
    now rewrite Hl. }
  rewrite Hget, (Atoi_itoa _ Hn), Hd.
  assert (Hcode : http.StatusCode (respond m) = http.StatusOK) by exact Hs.
  rewrite Hcode. reflexivity.
Qed.

End MockSite.

Lemma fetchPostsPage_reads_the_announced_total_witness :
  run (doubles.mock_handler (examples.onePage 100 (examples.okPage (-3) 1)))
      (@importer.fetchPostsPage examples.pagesDecoder examples.imp 1 100) examples.fresh
  = (Val (Ok ([doubles.postOf (examples.pageArticle 1)], (-3)%Z)),
     {| doubles.pageRequests := 1; doubles.vectorizer := examples.plainVectorizer;
        doubles.mstore := examples.emptyStore |}).
Proof.
  apply (@fetchPostsPage_reads_the_announced_total examples.pagesDecoder
           (examples.onePage 100 (examples.okPage (-3) 1)) (examples.okPage (-3) 1)
           examples.imp 1 100 [doubles.postOf (examples.pageArticle 1)] examples.fresh).
  - apply lookup_singleton_eq.
  - reflexivity.
  - reflexivity.
  - unfold int_min, int_max. cbn. lia.
  - vm_compute. reflexivity.
Defined.

(** ** Posts without a title *)

(** X23: a post whose title has no [rendered] member, or one that is not a
    string, is imported with the empty title: its hash is written under the
    bare key [article:], where every such post lands. *)
Theorem untitled_posts_share_one_key
    (posts : list importer.WPPost) (embeddings : list bytes)
    (n : nat) (post : importer.WPPost) (e : bytes) :
  posts !! n = Some post ->
  embeddings !! n = Some e ->
  (forall s, importer.wp_Title post !! "rendered" <> Some (importer.JString s)) ->
  fold_left store.queueHSet (pages.page_documents posts embeddings) [] !! n
  = Some {| store.key := "article:";
            store.fields :=
              <["title" := store.VString ""]>
              (<["link" := store.VString (importer.wp_Link post)]>
              (<["embedding" := store.VBytes e]> ∅)) |}.
Proof.
  intros Hpost He Hnot.
  rewrite StoreArticles_pipeline, page_documents_zip, list_lookup_fmap, lookup_zip_with.
  rewrite Hpost. cbn. rewrite He. cbn.
  assert (Hr : importer.rendered (importer.wp_Title post) = "").
  { unfold importer.rendered.
    destruct (importer.wp_Title post !! "rendered") as [[| | |s| |]|] eqn:Ht;
      try reflexivity.
    now destruct (Hnot s). }
  rewrite Hr. reflexivity.
Qed.

Lemma untitled_posts_share_one_key_witness :
  fold_left store.queueHSet
    (pages.page_documents
       [ {| importer.wp_Title := {[ "rendered" := importer.JString "A" ]};
            importer.wp_Excerpt := ∅; importer.wp_Link := "http://a" |};
         {| importer.wp_Title := {[ "rendered" := importer.JNumber "7" ]};
            importer.wp_Excerpt := ∅; importer.wp_Link := "http://b" |} ]
       [doubles.bytes_of "x"; doubles.bytes_of "y"]) [] !! 1%nat
  = Some {| store.key := "article:";
            store.fields :=
              <["title" := store.VString ""]>
              (<["link" := store.VString "http://b"]>
              (<["embedding" := store.VBytes (doubles.bytes_of "y")]> ∅)) |}.
Proof.
  refine (untitled_posts_share_one_key
            [ {| importer.wp_Title := {[ "rendered" := importer.JString "A" ]};
                 importer.wp_Excerpt := ∅; importer.wp_Link := "http://a" |};
              {| importer.wp_Title := {[ "rendered" := importer.JNumber "7" ]};
                 importer.wp_Excerpt := ∅; importer.wp_Link := "http://b" |} ]
            [doubles.bytes_of "x"; doubles.bytes_of "y"] 1
            {| importer.wp_Title := {[ "rendered" := importer.JNumber "7" ]};
               importer.wp_Excerpt := ∅; importer.wp_Link := "http://b" |}
            (doubles.bytes_of "y") eq_refl eq_refl _).
  intros s Hs. vm_compute in Hs. discriminate Hs.
Defined.

Lemma initialImport_is_sequential_under_a_ceiling_of_one_witness :
  exists s,
    @initial.exec examples.pagesDecoder _ (doubles.mock_handler situations.twoBroken)
      situations.oneAtATime situations.oneByOne
      (@initial.enter examples.pagesDecoder _ (doubles.mock_handler situations.twoBroken)
         situations.oneAtATime examples.fresh) = Some s
    /\ initial.main s
       = initial.Returned
           (Some ("error during initial import: failed to fetch posts for page 3: "
                  +:+ "failed to fetch posts, status code: 500"))
    /\ map errgroup.f_id (errgroup.done (initial.grp s)) = [2; 3; 4; 5]%Z.
Proof.
  eassert (Hrun : run (doubles.mock_handler situations.twoBroken)
                      (@importer.vectorizePostsPage examples.pagesDecoder
                         situations.oneAtATime 1 100)
                      examples.fresh
                  = (Val (Ok 5), _)) by (vm_compute; reflexivity).
  eassert (Hex : @initial.exec examples.pagesDecoder _
                   (doubles.mock_handler situations.twoBroken)
                   situations.oneAtATime situations.oneByOne
                   (@initial.enter examples.pagesDecoder _
                      (doubles.mock_handler situations.twoBroken)
                      situations.oneAtATime examples.fresh)
                 = Some _) by (vm_compute; reflexivity).
  eexists. split; [exact Hex |].
  split; [reflexivity |].
  exact (proj1 (@initialImport_is_sequential_under_a_ceiling_of_one
                  examples.pagesDecoder _ (doubles.mock_handler situations.twoBroken)
                  situations.oneAtATime eq_refl _ _ _ _ _ _ Hrun Hex eq_refl)).
Defined.

Lemma production_page_is_found_in_redis_witness :
  exists hash,
    fst (run situations.wired
           (@importer.vectorizePostsPage examples.decoder examples.imp 1 10) ∅)
    = Val (Ok 5)
    /\ snd (run situations.wired
              (@importer.vectorizePostsPage examples.decoder examples.imp 1 10) ∅)
       !! "article:Test Article 1" = Some hash
    /\ hash !! "link" = Some (store.VString "https://example.com/article1")
    /\ hash !! "embedding" = Some (store.VBytes (doubles.bytes_of "hi")).
Proof.
  assert (Hfst : fst (run situations.wired
                        (@importer.vectorizePostsPage examples.decoder examples.imp 1 10) ∅)
                 = Val (Ok 5)) by (vm_compute; reflexivity).
  assert (Hrun : run situations.wired
                   (@importer.vectorizePostsPage examples.decoder examples.imp 1 10) ∅
                 = (Val (Ok 5),
                    snd (run situations.wired
                           (@importer.vectorizePostsPage examples.decoder examples.imp 1 10) ∅)))
    by (rewrite <- Hfst; apply surjective_pairing).
  destruct (@production_page_is_found_in_redis examples.decoder doubles.wire_codec _
              situations.site_source situations.embeds (fun db => (Val None, db))
              examples.client examples.imp (fun db => db) (fun _ db => db)
              (fun _ _ => eq_refl) 1 10 5 _ _ Hrun)
    as (resp & w0 & posts & embeddings & w1 & Hsrc & Hd & Hv & Hlen & Hfound).
  injection Hsrc as <- <-.
  vm_compute in Hd. injection Hd as <-.
  vm_compute in Hv. injection Hv as <- _.
  destruct (Hfound 0%nat _ _ eq_refl eq_refl) as (hash & Hk & _ & Hlink & Hemb).
  { intros [|[|m]] post' Hlt Hp'; [lia | | discriminate Hp'].
    injection Hp' as <-. vm_compute. discriminate. }
  exists hash.
  split; [exact Hfst |].
  split; [exact Hk |].
  split; [exact Hlink | exact Hemb].
Defined.

(** ** The initial import as it is wired *)

Section ProductionImport.
Context `{importer.Decoder} `{vectorization.Codec} {W : Type}.
Import importer pages initial errgroup.
Variable source : string -> W -> Res (result http.Response) * W.
Variable embed : Handler vectorization.HttpE W.
Variable redis : Handler store.RedisE W.
Variable index : W -> Res (option error) * W.
Variable c : vectorization.Client.
Variable i : Importer.
(** The transports answer: none of them panics. *)
Hypothesis source_answers : forall url w, exists r w', source url w = (Val r, w').
Hypothesis embed_answers :
  forall X (e : vectorization.HttpE X) w, exists x w', embed X e w = (Val x, w').
Hypothesis redis_answers :
  forall X (e : store.RedisE X) w, exists x w', redis X e w = (Val x, w').
Hypothesis index_answers : forall w, exists r w', index w = (Val r, w').

Lemma VectorizeBatch_answers (texts : list string) (w : W) :
  exists r w', run embed (vectorization.VectorizeBatch c texts) w = (Val r, w').
Proof.
  unfold vectorization.VectorizeBatch.
  destruct (length texts =? 0)%nat; [cbn; eauto |].
  destruct (vectorization.json_Marshal texts) as [jsonData|e]; [| cbn; eauto].
  cbn [bind trigger run].
  destruct (embed_answers _ (vectorization.Post (vectorization.baseURL c +:+ "/embed")
                               "application/json" jsonData) w) as (r & w' & ->).
  destruct r as [resp|e]; cbn [bind]; [| cbn; eauto].
  destruct (negb _); [cbn; eauto |].
  destruct (http.ReadErr resp); [cbn; eauto |].
  destruct (vectorization.json_Unmarshal _); [| cbn; eauto].
  destruct (negb _); cbn; eauto.
Qed.

Lemma StoreArticles_answers (articles : list store.Article) (w : W) :
  exists r w', run redis (store.StoreArticles articles) w = (Val r, w').
Proof.
  unfold store.StoreArticles.
  destruct (length articles =? 0)%nat; [cbn; eauto |].
  cbn [bind trigger run].
  destruct (redis_answers _ (store.PipelineExec (fold_left store.queueHSet articles [])) w)
    as (r & w' & ->).
  destruct r; cbn; eauto.
Qed.

Lemma production_is_well_behaved :
  well_behaved (wiring.importer_handler source embed redis index c).
Proof.
  split.
  - intros X e w. destruct e as [url | texts | | articles]; cbn [wiring.importer_handler].
    + apply source_answers.
    + apply VectorizeBatch_answers.
    + apply index_answers.
    + apply StoreArticles_answers.
  - intros texts w embeddings w' Hrun. cbn [wiring.importer_handler] in Hrun.
    apply VectorizeBatch_length in Hrun. lia.
Qed.

(** X25: the initial import of the importer as [main] wires it ends.  When
    the transports answer, the ceiling is not 0 and the site announces fewer
    pages than the largest [int], no run of [initialImport] panics (the
    embedding client returns one embedding per text, so that no index runs
    past the articles), every run is bounded by the measure of its first
    state, and some run returns. *)
Theorem production_import_always_returns (nb : Z) (w w1 : W) :
  run (wiring.importer_handler source embed redis index c)
      (vectorizePostsPage i 1 100) w = (Val (Ok nb), w1) ->
  (nb < int_max)%Z ->
  maxGoroutines i <> 0%Z ->
  (exists cs r w',
      initialImport (wiring.importer_handler source embed redis index c) i cs w
      = Some (r, w'))
  /\ forall cs s,
       exec (wiring.importer_handler source embed redis index c) i cs
            (enter (wiring.importer_handler source embed redis index c) i w) = Some s ->
       (forall m, main s <> Panicking m)
       /\ (length cs
           <= measure (enter (wiring.importer_handler source embed redis index c) i w))%nat.
Proof.
  set (h := wiring.importer_handler source embed redis index c).
  intros Hrun Hlt HC.
  pose proof production_is_well_behaved as Hb. fold h in Hb.
  destruct (enter_Inv h i (fun _ _ => True) w w1 nb Hrun) as (HI & Hm & Hw).
  assert (HS : Safe h (enter h i w)).
  { split; [| intros m; rewrite Hm; discriminate].
    unfold enter. rewrite Hrun. constructor. }
  split.
  - destruct (drive_returns h i (fun _ _ => True) (fun _ _ _ _ _ => I)
                (fun _ _ _ _ _ _ => I) Hb nb
                (measure (enter h i w)) (enter h i w) Hlt HC HI HS (le_n _))
      as [r Hr].
    destruct (drive_exec h i (measure (enter h i w)) (enter h i w)) as [cs Hcs].
    exists cs, r, (world (drive h i (measure (enter h i w)) (enter h i w))).
    unfold initialImport. now rewrite Hcs, Hr.
  - intros cs s Hex. split.
    + exact (proj2 (exec_Safe h i Hb cs _ s HS Hex)).
    + pose proof (exec_bounded h i (fun _ _ => True) (fun _ _ _ _ _ => I)
                    (fun _ _ _ _ _ _ => I) nb cs _ s Hlt HI Hex).
      lia.
Qed.

End ProductionImport.

Lemma production_import_always_returns_witness :
  exists cs r db,
    @initial.initialImport examples.decoder _ situations.wired examples.imp cs ∅
    = Some (r, db).
Proof.
  assert (Hfst : fst (run situations.wired
                        (@importer.vectorizePostsPage examples.decoder examples.imp 1 100) ∅)
                 = Val (Ok 5)) by (vm_compute; reflexivity).
  assert (Hrun : run situations.wired
                   (@importer.vectorizePostsPage examples.decoder examples.imp 1 100) ∅
                 = (Val (Ok 5),
                    snd (run situations.wired
                           (@importer.vectorizePostsPage examples.decoder examples.imp 1 100)
                           ∅)))
    by (rewrite <- Hfst; apply surjective_pairing).
  refine (proj1 (@production_import_always_returns examples.decoder doubles.wire_codec _
                   situations.site_source situations.embeds
                   (focus (fun db => db) (fun _ db => db) store.redis_handler)
                   (fun db => (Val None, db)) examples.client examples.imp
                   _ _ _ _ 5 ∅ _ Hrun _ _)).
  - intros url w. unfold situations.site_source. eauto.
  - intros X e w. destruct e. cbn. eauto.
  - intros X e w. destruct e. cbn. eauto.
  - intros w. eauto.
  - unfold int_max. lia.
  - discriminate.
Defined.
